(** * The recurring-alarm scheduler of the student planner

    A shallow embedding of the alarm scheduler of [raining2.py] (the SQLite
    planner), of its MySQL port [hyper5.py] and of the older periodic check
    of [autumn.py], with the properties of the scheduler stated over it.

    Text is modelled at the ASCII level ([string] of the standard library);
    integers are [Z]. *)

From Stdlib Require Import ZArith List String Ascii Bool Lia.
From Stdlib Require Import Permutation Sorted.
Import ListNotations.
Open Scope string_scope.
Open Scope Z_scope.

(** ** Python's [datetime.date] and [datetime.timedelta]

    The planner calls the standard [datetime] module for three things: parsing
    and printing dates, and adding a number of days to a date. The module
    defines date arithmetic through proleptic Gregorian ordinals (day 1 is
    0001-01-01); the definitions below follow it function by function. *)
Module PyDate.

Record date : Type := mkdate { year : Z; month : Z; day : Z }.

Definition MINYEAR : Z := 1.
Definition MAXYEAR : Z := 9999.
Definition MAXORDINAL : Z := 3652059.

Definition is_leap (y : Z) : bool :=
  (y mod 4 =? 0) && (negb (y mod 100 =? 0) || (y mod 400 =? 0)).

Definition b2z (b : bool) : Z := if b then 1 else 0.

(* _DAYS_IN_MONTH = [-1, 31, 28, 31, 30, 31, 30, 31, 31, 30, 31, 30, 31] *)
Definition DAYS_IN_MONTH (m : Z) : Z :=
  match m with
  | 1 => 31 | 2 => 28 | 3 => 31 | 4 => 30 | 5 => 31 | 6 => 30
  | 7 => 31 | 8 => 31 | 9 => 30 | 10 => 31 | 11 => 30 | 12 => 31
  | _ => -1
  end.

(* _DAYS_BEFORE_MONTH: the running sums of _DAYS_IN_MONTH *)
Definition DAYS_BEFORE_MONTH (m : Z) : Z :=
  match m with
  | 1 => 0 | 2 => 31 | 3 => 59 | 4 => 90 | 5 => 120 | 6 => 151
  | 7 => 181 | 8 => 212 | 9 => 243 | 10 => 273 | 11 => 304 | 12 => 334
  | _ => -1
  end.

Definition days_in_month (y m : Z) : Z :=
  if (m =? 2) && is_leap y then 29 else DAYS_IN_MONTH m.

Definition days_before_year (y : Z) : Z :=
  let y1 := y - 1 in y1 * 365 + y1 / 4 - y1 / 100 + y1 / 400.

Definition days_before_month (y m : Z) : Z :=
  DAYS_BEFORE_MONTH m + b2z ((2 <? m) && is_leap y).

Definition ymd2ord (y m d : Z) : Z :=
  days_before_year y + days_before_month y m + d.

Definition DI400Y : Z := 146097.
Definition DI100Y : Z := 36524.
Definition DI4Y : Z := 1461.

(* _ord2ymd: the year by successive division by the 400-, 100-, 4- and
   1-year cycles, then the month by an estimate that is corrected downwards. *)
Definition ord2ymd (n : Z) : date :=
  let n := n - 1 in
  let n400 := n / DI400Y in
  let n := n mod DI400Y in
  let yr := n400 * 400 + 1 in
  let n100 := n / DI100Y in
  let n := n mod DI100Y in
  let n4 := n / DI4Y in
  let n := n mod DI4Y in
  let n1 := n / 365 in
  let n := n mod 365 in
  let yr := yr + n100 * 100 + n4 * 4 + n1 in
  if (n1 =? 4) || (n100 =? 4) then mkdate (yr - 1) 12 31
  else
    let leapyear := (n1 =? 3) && (negb (n4 =? 24) || (n100 =? 3)) in
    let mo := Z.shiftr (n + 50) 5 in
    let preceding := DAYS_BEFORE_MONTH mo + b2z ((2 <? mo) && leapyear) in
    if n <? preceding then
      let mo := mo - 1 in
      let preceding :=
        preceding - (DAYS_IN_MONTH mo + b2z ((mo =? 2) && leapyear)) in
      mkdate yr mo (n - preceding + 1)
    else mkdate yr mo (n - preceding + 1).

(** The checks of the [date] constructor ([_check_date_fields]). *)
Definition valid_date (d : date) : bool :=
  (MINYEAR <=? year d) && (year d <=? MAXYEAR) &&
  (1 <=? month d) && (month d <=? 12) &&
  (1 <=? day d) && (day d <=? days_in_month (year d) (month d)).

Definition toordinal (d : date) : Z := ymd2ord (year d) (month d) (day d).

(** [d + timedelta(days=k)]: [None] stands for [OverflowError]. *)
Definition add_days (d : date) (k : Z) : option date :=
  let o := toordinal d + k in
  if (0 <? o) && (o <=? MAXORDINAL) then Some (ord2ymd o) else None.

(** The calendar's own notion of the following day, against which the
    ordinal arithmetic is checked. *)
Definition next_day (d : date) : date :=
  if day d <? days_in_month (year d) (month d)
  then mkdate (year d) (month d) (day d + 1)
  else if month d <? 12 then mkdate (year d) (month d + 1) 1
  else mkdate (year d + 1) 1 1.

(* the days that remain after [d] up to 9999-12-31 *)
Definition days_left (d : date) : Z := MAXORDINAL - toordinal d.

Definition date_eqb (a b : date) : bool :=
  (year a =? year b) && (month a =? month b) && (day a =? day b).

(* every day of year [y] survives the round trip through its ordinal *)
Definition year_roundtrip (y : Z) : bool :=
  forallb (fun m =>
    forallb (fun d =>
      let dt := mkdate y (Z.of_nat m) (Z.of_nat d) in
      negb (valid_date dt) || date_eqb (ord2ymd (toordinal dt)) dt)
      (seq 1 31))
    (seq 1 12).

Definition shift_year (k : Z) (d : date) : date :=
  mkdate (year d + k) (month d) (day d).

(** [n] days later, counted on the calendar. *)
Fixpoint days_later (n : nat) (d : date) : date :=
  match n with
  | O => d
  | S n' => next_day (days_later n' d)
  end.

End PyDate.

(** ** Printing and parsing dates

    [strftime] and [strptime] for the two formats the planner uses,
    ["%Y-%m-%d"] and ["%Y-%m-%d %H:%M"]. Numbers are printed zero-padded to
    the field's width. *)
Module PyText.
Import PyDate.

Definition digit_char (n : Z) : ascii :=
  match n with
  | 0 => "0" | 1 => "1" | 2 => "2" | 3 => "3" | 4 => "4"
  | 5 => "5" | 6 => "6" | 7 => "7" | 8 => "8" | 9 => "9"
  | _ => "0"
  end%char.

Definition digit_val (c : ascii) : option Z :=
  let n := Z.of_N (N_of_ascii c) in
  if (48 <=? n) && (n <=? 57) then Some (n - 48) else None.

(* "%02d" and "%04d" on numbers that fit the width *)
Definition pad2 (n : Z) : string :=
  String (digit_char (n / 10)) (String (digit_char (n mod 10)) EmptyString).

Definition pad4 (n : Z) : string :=
  String (digit_char (n / 1000))
    (String (digit_char (n / 100 mod 10))
       (String (digit_char (n / 10 mod 10))
          (String (digit_char (n mod 10)) EmptyString))).

(** [d.strftime("%Y-%m-%d")], the year on four digits: what every C
    library prints for the years from 1000 on. For an earlier year the
    digits depend on the platform (glibc prints no leading zeros), so that
    this is [strftime] for dates and clock readings from year 1000 on. *)
Definition format_date (d : date) : string :=
  pad4 (year d) ++ "-" ++ pad2 (month d) ++ "-" ++ pad2 (day d).

Record datetime : Type :=
  mkdatetime { dt_date : date; hour : Z; minute : Z; second : Z }.

Definition valid_datetime (t : datetime) : bool :=
  valid_date (dt_date t) &&
  (0 <=? hour t) && (hour t <=? 23) &&
  (0 <=? minute t) && (minute t <=? 59) &&
  (0 <=? second t) && (second t <=? 59).

Definition format_time (t : datetime) : string :=
  pad2 (hour t) ++ ":" ++ pad2 (minute t).

(** [now.strftime("%Y-%m-%d %H:%M")]: the minute key of a clock reading. *)
Definition format_key (t : datetime) : string :=
  format_date (dt_date t) ++ " " ++ format_time t.

(** *** [strptime(s, "%Y-%m-%d")]

    The format compiles to the regular expression
    [(\d\d\d\d)-(1[0-2]|0[1-9]|[1-9])-(3[0-1]|[1-2]\d|0[1-9]|[1-9]| [1-9])],
    matched at the start of the text; text left over after the match, or
    fields that are no date, raise [ValueError] ([None] here). The
    alternatives of a group are tried in order; as each month alternative
    fixes where the following ["-"] must stand, the first one that matches is
    the one the regular expression settles on. *)
Definition opt_bind {A B : Type} (o : option A) (f : A -> option B) : option B :=
  match o with Some a => f a | None => None end.

Local Notation "x <- o ;; k" := (opt_bind o (fun x => k))
  (at level 61, o at next level, right associativity).
Local Notation "' p <- o ;; k" := (opt_bind o (fun x => let p := x in k))
  (at level 61, p pattern, o at next level, right associativity).

Definition parse_year (s : string) : option (Z * string) :=
  match s with
  | String c1 (String c2 (String c3 (String c4 r))) =>
      a <- digit_val c1 ;; b <- digit_val c2 ;;
      c <- digit_val c3 ;; d <- digit_val c4 ;;
      Some (1000 * a + 100 * b + 10 * c + d, r)
  | _ => None
  end.

Definition expect (c : ascii) (s : string) : option string :=
  match s with
  | String c' r => if (c' =? c)%char then Some r else None
  | EmptyString => None
  end.

Definition in_range (lo hi : Z) (v : Z) : bool := (lo <=? v) && (v <=? hi).

(* two characters read as [tens] followed by a digit between [lo] and [hi] *)
Definition two_chars (tens : ascii) (lo hi : Z) (s : string)
  : option (Z * string) :=
  match s with
  | String c1 (String c2 r) =>
      if (c1 =? tens)%char then
        match digit_val c2, digit_val c1 with
        | Some v, Some t =>
            if in_range lo hi v then Some (10 * t + v, r) else None
        | Some v, None =>
            (* a leading blank counts for nothing *)
            if in_range lo hi v then Some (v, r) else None
        | None, _ => None
        end
      else None
  | _ => None
  end.

Definition one_char (lo hi : Z) (s : string) : option (Z * string) :=
  match s with
  | String c r =>
      match digit_val c with
      | Some v => if in_range lo hi v then Some (v, r) else None
      | None => None
      end
  | EmptyString => None
  end.

Definition or_else {A : Type} (o : option A) (alt : option A) : option A :=
  match o with Some a => Some a | None => alt end.

(* 1[0-2] | 0[1-9] | [1-9] *)
Definition parse_month (s : string) : option (Z * string) :=
  or_else (two_chars "1" 0 2 s)
    (or_else (two_chars "0" 1 9 s) (one_char 1 9 s)).

(* 3[0-1] | [1-2]\d | 0[1-9] | [1-9] | " "[1-9] *)
Definition parse_day (s : string) : option (Z * string) :=
  or_else (two_chars "3" 0 1 s)
    (or_else (two_chars "1" 0 9 s)
       (or_else (two_chars "2" 0 9 s)
          (or_else (two_chars "0" 1 9 s)
             (or_else (one_char 1 9 s) (two_chars " " 1 9 s))))).

Definition strptime_date (s : string) : option date :=
  '(y, r1) <- parse_year s ;;
  r2 <- expect "-" r1 ;;
  '(m, r3) <- parse_month r2 ;;
  r4 <- expect "-" r3 ;;
  '(d, r5) <- parse_day r4 ;;
  match r5 with
  | EmptyString =>
      let dt := mkdate y m d in
      if valid_date dt then Some dt else None
  | String _ _ => None
  end.

(* is the text free of blanks? *)
Fixpoint no_blank (s : string) : bool :=
  match s with
  | EmptyString => true
  | String c r => negb (c =? " ")%char && no_blank r
  end.

(* how many colons a text has *)
Fixpoint colons (s : string) : nat :=
  match s with
  | EmptyString => O
  | String c r => ((if (c =? ":")%char then 1 else 0) + colons r)%nat
  end.

(** [str.lower] on ASCII text: the letters [A] to [Z] are changed and
    nothing else. On other text [str.lower] does more (it takes the Kelvin
    sign U+212A to [k], for one); [is_ascii] says that a text has no byte
    outside ASCII. *)
Definition ascii_lower (c : ascii) : ascii :=
  let n := N_of_ascii c in
  if ((65 <=? n) && (n <=? 90))%N then ascii_of_N (n + 32) else c.

Fixpoint lower (s : string) : string :=
  match s with
  | EmptyString => EmptyString
  | String c r => String (ascii_lower c) (lower r)
  end.

Fixpoint is_ascii (s : string) : bool :=
  match s with
  | EmptyString => true
  | String c r => (N_of_ascii c <? 128)%N && is_ascii r
  end.

(** *** Whitespace and [str.strip]

    Python's whitespace among the ASCII characters: tab, line feed, vertical
    tab, form feed, carriage return, the four separators 28 to 31, and the
    blank. [str.strip()] and the regular expression's [\s] agree on it. *)
Definition is_space (c : ascii) : bool :=
  let n := N_of_ascii c in
  ((9 <=? n) && (n <=? 13) || (28 <=? n) && (n <=? 31) || (n =? 32))%N.

Fixpoint lstrip (s : string) : string :=
  match s with
  | EmptyString => EmptyString
  | String c r => if is_space c then lstrip r else s
  end.

Fixpoint rstrip (s : string) : string :=
  match s with
  | EmptyString => EmptyString
  | String c r =>
      match rstrip r with
      | EmptyString => if is_space c then EmptyString else String c EmptyString
      | String c' r' => String c (String c' r')
      end
  end.

Definition strip (s : string) : string := rstrip (lstrip s).

(** *** [strptime(s, "%Y-%m-%d %H:%M")] and [strptime(s, "%H:%M")]

    A blank in the format stands for [\s+]; [%H] is [2[0-3]|[0-1]\d|\d] and
    [%M] is [[0-5]\d|\d]. No hour begins with whitespace, so [\s+] takes all
    the whitespace there is; an hour alternative that matched and is not
    followed by [":"] leaves no later alternative that is. *)
Definition spaces (s : string) : option string :=
  match s with
  | String c r => if is_space c then Some (lstrip r) else None
  | EmptyString => None
  end.

Definition parse_hour (s : string) : option (Z * string) :=
  or_else (two_chars "2" 0 3 s)
    (or_else (two_chars "0" 0 9 s)
       (or_else (two_chars "1" 0 9 s) (one_char 0 9 s))).

Definition parse_minute (s : string) : option (Z * string) :=
  or_else (two_chars "0" 0 9 s)
    (or_else (two_chars "1" 0 9 s)
       (or_else (two_chars "2" 0 9 s)
          (or_else (two_chars "3" 0 9 s)
             (or_else (two_chars "4" 0 9 s)
                (or_else (two_chars "5" 0 9 s) (one_char 0 9 s)))))).

Definition strptime_datetime (s : string) : option datetime :=
  '(y, r1) <- parse_year s ;;
  r2 <- expect "-" r1 ;;
  '(m, r3) <- parse_month r2 ;;
  r4 <- expect "-" r3 ;;
  '(d, r5) <- parse_day r4 ;;
  r6 <- spaces r5 ;;
  '(h, r7) <- parse_hour r6 ;;
  r8 <- expect ":" r7 ;;
  '(mi, r9) <- parse_minute r8 ;;
  match r9 with
  | EmptyString =>
      let dt := mkdate y m d in
      if valid_date dt then Some (mkdatetime dt h mi 0) else None
  | String _ _ => None
  end.

(* the minute of a clock reading, counted from the first minute of the
   calendar *)
Definition minute_number (t : datetime) : Z :=
  (toordinal (dt_date t) * 24 + hour t) * 60 + minute t.


(* a parser's result when the text [x] is appended to what it left *)
Definition more (x : string) (o : option (Z * string)) : option (Z * string) :=
  match o with
  | Some (v, r) => Some (v, r ++ x)
  | None => None
  end.

(* [r] is [s] without its first character, or without its first two *)
Definition one_or_two (s r : string) : Prop :=
  (exists c, s = String c r) \/ (exists c1 c2, s = String c1 (String c2 r)).

(* is the text made of whitespace only? *)
Fixpoint blank_only (s : string) : bool :=
  match s with
  | EmptyString => true
  | String c r => is_space c && blank_only r
  end.

(* the characters of a text, the last one first *)
Fixpoint backwards (s : string) : list ascii :=
  match s with
  | EmptyString => []
  | String c r => (backwards r ++ [c])%list
  end.

(* the hour and the minute of the text; the date part of the result
   (1900-01-01) is of no use to the callers *)
Definition strptime_time (s : string) : option (Z * Z) :=
  '(h, r1) <- parse_hour s ;;
  r2 <- expect ":" r1 ;;
  '(mi, r3) <- parse_minute r2 ;;
  match r3 with
  | EmptyString => Some (h, mi)
  | String _ _ => None
  end.

End PyText.

Import PyDate PyText.

(** ** Code that may raise

    Exceptions over a state: what was done before an exception stays done. *)
Module Py.

Inductive exn : Type := ValueError | OverflowError | StoreError.

Inductive outcome (A : Type) : Type :=
| Return (a : A)
| Raise (e : exn).
Arguments Return {A} a.
Arguments Raise {A} e.

Section OverState.
Variable S : Type.

Definition M (A : Type) : Type := S -> outcome A * S.

Definition ret {A : Type} (a : A) : M A := fun s => (Return a, s).
Definition raise {A : Type} (e : exn) : M A := fun s => (Raise e, s).
Definition bind {A B : Type} (m : M A) (f : A -> M B) : M B :=
  fun s =>
    match m s with
    | (Return a, s') => f a s'
    | (Raise e, s') => (Raise e, s')
    end.
Definition gets {A : Type} (f : S -> A) : M A := fun s => (Return (f s), s).
Definition modify (f : S -> S) : M unit := fun s => (Return tt, f s).

(* for a in l: f(a) *)
Fixpoint for_each {A : Type} (f : A -> M unit) (l : list A) : M unit :=
  match l with
  | [] => ret tt
  | a :: l' => bind (f a) (fun _ => for_each f l')
  end.

End OverState.

Arguments ret {S A} a _.
Arguments raise {S A} e _.
Arguments bind {S A B} m f _.
Arguments gets {S A} f _.
Arguments modify {S} f _.
Arguments for_each {S A} f l _.

End Py.

Import Py.

Notation "x <- m ;; k" := (bind m (fun x => k))
  (at level 61, m at next level, right associativity).
Notation "m ;;; k" := (bind m (fun _ => k))
  (at level 61, right associativity).

Definition truthy (s : string) : bool := negb (s =? EmptyString)%string.

Definition pair_eqb (a b : Z * string) : bool :=
  (fst a =? fst b) && (snd a =? snd b)%string.

(** ** The SQLite planner ([raining2.py])

    The [tasks] table is a list of rows in row-id order; [title], [date] and
    [time] are [NOT NULL], the other columns may hold [NULL] ([None]). *)
Module Planner.

Record Row : Type := mkRow {
  id : Z;
  title : string;
  date : string;        (* YYYY-MM-DD *)
  time : string;        (* HH:MM (24h) *)
  description : option string;
  completed : option Z;
  recurrence : option string
}.

(** *** The recurrence engine *)

Definition compute_next_date (date_str recurrence : string)
  : outcome (option string) :=
  match strptime_date date_str with
  | None => Raise ValueError
  | Some d =>
      if (recurrence =? "daily")%string then
        match add_days d 1 with
        | Some nd => Return (Some (format_date nd))
        | None => Raise OverflowError
        end
      else if (recurrence =? "weekly")%string then
        match add_days d 7 with
        | Some nd => Return (Some (format_date nd))
        | None => Raise OverflowError
        end
      else Return None
  end.

(** *** What the background thread does and sees

    The thread's visible actions are recorded in order. [Alarm] is the sound
    (or console bell) together with the popup scheduled on the main window
    when it still exists ([popup]; errors of the sound and of the scheduling
    are swallowed by the code); the row id in it is only there to tell
    alarms apart. [Inserted] is an [INSERT] followed by its [commit]. The
    [recurrence] column is always there ([ensure_schema] adds it). *)
Inductive event : Type :=
| Polled (is_set : bool)
| ClockRead (key : string)
| Alarm (task : Z) (ttl : string) (desc : option string) (popup : bool)
| Inserted (r : Row)
| Printed (e : exn)
| Slept.

Record state : Type := mkState {
  tasks : list Row;               (* the table *)
  handled : list (Z * string);    (* handled_this_minute *)
  fuse : option nat;              (* store calls left before one fails *)
  polls : nat;                    (* calls of stop_event.is_set() so far *)
  log : list event
}.

Definition with_tasks (t : list Row) (s : state) : state :=
  mkState t (handled s) (fuse s) (polls s) (log s).
Definition with_handled (h : list (Z * string)) (s : state) : state :=
  mkState (tasks s) h (fuse s) (polls s) (log s).
Definition with_fuse (f : option nat) (s : state) : state :=
  mkState (tasks s) (handled s) f (polls s) (log s).
Definition with_polls (n : nat) (s : state) : state :=
  mkState (tasks s) (handled s) (fuse s) n (log s).
Definition emit (e : event) (s : state) : state :=
  mkState (tasks s) (handled s) (fuse s) (polls s) (log s ++ [e]).

(** *** The store

    Every call on the cursor or the connection may raise; [fuse] says which
    call of the current pass does, if any. A call that raises leaves the
    table as it was. *)
Definition store_call : M state unit :=
  fun s =>
    match fuse s with
    | Some O => (Raise StoreError, s)
    | Some (S n) => (Return tt, with_fuse (Some n) s)
    | None => (Return tt, s)
    end.

(* WHERE date || ' ' || time = ? *)
Definition due_at (key : string) (r : Row) : bool :=
  (date r ++ " " ++ time r =? key)%string.

Definition select_due (key : string) : M state (list Row) :=
  store_call ;;; gets (fun s => filter (due_at key) (tasks s)).

(* WHERE title=? AND date=? AND time=? AND recurrence=? *)
Definition same_occurrence (t d tm rc : string) (r : Row) : bool :=
  (title r =? t)%string && (date r =? d)%string && (time r =? tm)%string &&
  match recurrence r with
  | Some x => (x =? rc)%string
  | None => false
  end.

Definition count_occurrences (t d tm rc : string) : M state Z :=
  store_call ;;;
  gets (fun s =>
    Z.of_nat (List.length (filter (same_occurrence t d tm rc) (tasks s)))).

(* the row id SQLite gives to a new row: one more than the largest in use
   (as long as that is below 2^63 - 1, the last id SQLite counts up to) *)
Definition next_rowid (rows : list Row) : Z :=
  match rows with
  | [] => 1
  | r :: rest => 1 + fold_left Z.max (map id rest) (id r)
  end.

(* INSERT INTO tasks (title, date, time, description, completed, recurrence)
   VALUES (?, ?, ?, ?, 0, ?), then commit *)
Definition insert_task (t d tm : string) (desc : option string) (rc : string)
  : M state unit :=
  store_call ;;;
  modify (fun s =>
    let r := mkRow (next_rowid (tasks s)) t d tm desc (Some 0) (Some rc) in
    emit (Inserted r) (with_tasks (tasks s ++ [r]) s)).

(** *** One pass of the loop *)

Definition is_handled (u : Z * string) : M state bool :=
  gets (fun s => existsb (pair_eqb u) (handled s)).

Definition mark_handled (u : Z * string) : M state unit :=
  modify (fun s => with_handled (u :: handled s) s).

Definition daily_or_weekly (rc : string) : bool :=
  (rc =? "daily")%string || (rc =? "weekly")%string.

(* if recurrence and recurrence.lower() in ("daily", "weekly"): ... *)
Definition advance (m : Row) : M state unit :=
  match recurrence m with
  | None => ret tt
  | Some rc =>
      if truthy rc && daily_or_weekly (lower rc) then
        match compute_next_date (date m) (lower rc) with
        | Raise e => raise e
        | Return None => ret tt
        | Return (Some next_date) =>
            if truthy next_date then
              c <- count_occurrences (title m) next_date (time m) rc ;;
              if c =? 0
              then insert_task (title m) next_date (time m)
                     (description m) rc
              else ret tt
            else ret tt
        end
      else ret tt
  end.

(* the body of [for m in matches] *)
Definition process (key : string) (root_alive : bool) (m : Row)
  : M state unit :=
  seen <- is_handled (id m, key) ;;
  if seen : bool then ret tt
  else
    mark_handled (id m, key) ;;;
    modify (emit (Alarm (id m) (title m) (description m) root_alive)) ;;;
    advance m.

(* the body of [try] *)
Definition check_body (key : string) (root_alive : bool) : M state unit :=
  matches <- select_due key ;;
  for_each (process key root_alive) matches.

(** What one pass gets from outside: the clock, whether the main window is
    still there, and which store call fails. *)
Record pass : Type := mkPass {
  now : datetime;
  root_alive : bool;
  fault : option nat
}.

(* the state in which the [try] block of pass [p] starts: the clock is read *)
Definition ready (p : pass) (s : state) : state :=
  with_fuse (fault p) (emit (ClockRead (format_key (now p))) s).

(* clock reading, [try] ... [except Exception as e: print(...)] *)
Definition check_once (p : pass) (s : state) : state :=
  match check_body (format_key (now p)) (root_alive p) (ready p s) with
  | (Return _, s1) => s1
  | (Raise e, s1) => emit (Printed e) s1
  end.

(** *** The loop

    [stop_event] is set by the main thread and never cleared: [stop_after] is
    the number of polls that still find it clear ([None]: it is never set). *)
Definition is_set (stop_after : option nat) (s : state) : bool * state :=
  let b := match stop_after with
           | Some n => (n <=? polls s)%nat
           | None => false
           end in
  (b, emit (Polled b) (with_polls (S (polls s)) s)).

(* for i in range(7): if stop_event.is_set(): break; time.sleep(10) *)
Fixpoint sleep_loop (stop_after : option nat) (i : nat) (s : state) : state :=
  match i with
  | O => s
  | S i' =>
      let (b, s1) := is_set stop_after s in
      if b then s1 else sleep_loop stop_after i' (emit Slept s1)
  end.

Inductive status : Type := Exited | Running.

(** The thread, run over the passes its clock readings allow for; after the
    sleeps of each pass [handled_this_minute] is cleared. *)
Fixpoint alarm_checker (stop_after : option nat) (passes : list pass)
    (s : state) : status * state :=
  let (b, s1) := is_set stop_after s in
  if b then (Exited, s1)
  else
    match passes with
    | [] => (Running, s1)
    | p :: rest =>
        let s2 := check_once p s1 in
        let s3 := sleep_loop stop_after 7 s2 in
        alarm_checker stop_after rest (with_handled [] s3)
    end.

(* the thread is started on the table with an empty set and nothing done *)
Definition start (rows : list Row) : state := mkState rows [] None O [].

Definition with_recurrence (rc : option string) (m : Row) : Row :=
  mkRow (id m) (title m) (date m) (time m) (description m) (completed m) rc.

(* is there a row with these four fields? *)
Definition has_occurrence (rows : list Row) (t d tm rc : string) : bool :=
  existsb (same_occurrence t d tm rc) rows.

(* the row the planner inserts for the next occurrence of [m] *)
Definition successor (rows : list Row) (m : Row) (d rc : string) : Row :=
  mkRow (next_rowid rows) (title m) d (time m) (description m) (Some 0)
    (Some rc).

(* the state once [m] is marked handled and its alarm is raised *)
Definition rung (key : string) (alive : bool) (m : Row) (s : state) : state :=
  emit (Alarm (id m) (title m) (description m) alive)
    (with_handled ((id m, key) :: handled s) s).

(* the rows of [ms] that are not skipped as already handled *)
Fixpoint to_process (key : string) (h : list (Z * string)) (ms : list Row)
  : list Row :=
  match ms with
  | [] => []
  | m :: rest =>
      if existsb (pair_eqb (id m, key)) h then to_process key h rest
      else m :: to_process key ((id m, key) :: h) rest
  end.

(* [m] needs no insertion any more in a table holding [rows] *)
Definition settled (rows : list Row) (m : Row) : Prop :=
  forall rc nd,
    recurrence m = Some rc ->
    truthy rc && daily_or_weekly (lower rc) = true ->
    compute_next_date (date m) (lower rc) = Return (Some nd) ->
    has_occurrence rows (title m) nd (time m) rc = true.

(* the events the body of a pass can add *)
Definition quiet (e : event) : Prop :=
  match e with
  | Alarm _ _ _ _ | Inserted _ => True
  | _ => False
  end.

(* did the [try] block of pass [p] end in [except]? *)
Definition abandoned (p : pass) (s : state) : bool :=
  match fst (check_body (format_key (now p)) (root_alive p) (ready p s)) with
  | Return _ => false
  | Raise _ => true
  end.

(* a text of events in which no poll found the stop event set *)
Definition calm (evs : list event) : Prop := ~ In (Polled true) evs.

(* the stop event is set by now *)
Definition seen_set (stop_after : option nat) (s : state) : Prop :=
  exists n, stop_after = Some n /\ (n <= polls s)%nat.

(* the alarms of a log, and the rows a log inserted *)
Definition alarms (l : list event) : list Z :=
  flat_map (fun e => match e with Alarm i _ _ _ => [i] | _ => [] end) l.

Definition inserted (l : list event) : list Row :=
  flat_map (fun e => match e with Inserted r => [r] | _ => [] end) l.

Definition clock_reads (l : list event) : list string :=
  flat_map (fun e => match e with ClockRead k => [k] | _ => [] end) l.

(* the row of the [j]-th occurrence of the task [m] of day [d], the
   occurrences being [step] days apart: [m] itself, then the rows that the
   thread inserts one after the other into a table that began with [m] *)
Definition occurrence (m : Row) (d : PyDate.date) (step j : nat) : Row :=
  match j with
  | O => m
  | S _ =>
      mkRow (id m + Z.of_nat j) (title m)
        (format_date (days_later (step * j) d)) (time m) (description m)
        (Some 0) (recurrence m)
  end.

(* a pass with a working store whose clock reads hour [h], minute [mi] of
   the day of the [j]-th occurrence *)
Definition occurrence_pass (d : PyDate.date) (h mi : Z) (step : nat)
    (sec : nat -> Z) (alive : nat -> bool) (j : nat) : pass :=
  mkPass (mkdatetime (days_later (step * j) d) h mi (sec j)) (alive j) None.





(* does the [date] column of the row hold a text that [strptime] takes for
   a date, as [compute_next_date] asks of it? *)
Definition dated (r : Row) : bool :=
  match strptime_date (date r) with
  | Some _ => true
  | None => false
  end.

End Planner.

(** ** The MySQL port ([hyper5.py])

    [date] is a [DATE] and [time] a [TIME] column; the connector hands them
    over as a date and as a duration in seconds. A turn of the loop is told
    whether its connection or its query fails; failing calls inside the
    loop body are studied on the SQLite planner and left out here. *)
Module Hyper5.

Record Row : Type := mkRow {
  id : Z;
  title : string;
  date : PyDate.date;
  time : Z;             (* seconds *)
  description : option string;
  completed : option Z;
  recurrence : option string
}.

Definition compute_next_date (date_obj : PyDate.date) (recurrence : string)
  : outcome (option PyDate.date) :=
  if (recurrence =? "daily")%string then
    match add_days date_obj 1 with
    | Some nd => Return (Some nd)
    | None => Raise OverflowError
    end
  else if (recurrence =? "weekly")%string then
    match add_days date_obj 7 with
    | Some nd => Return (Some nd)
    | None => Raise OverflowError
    end
  else Return None.

(* the text MySQL gives for a TIME value: [-]hh:mm:ss, hours over 99 on
   three digits *)
Definition render_hours (h : Z) : string :=
  if h <? 100 then pad2 h
  else String (digit_char (h / 100)) (pad2 (h mod 100)).

Definition render_time (secs : Z) : string :=
  let a := Z.abs secs in
  (if secs <? 0 then "-" else EmptyString) ++
  render_hours (a / 3600) ++ ":" ++ pad2 (a / 60 mod 60) ++ ":" ++
  pad2 (a mod 60).

(* what add_task stores for the hour and minute picked: f"{h}:{m}:00" *)
Definition time_of (h m : Z) : Z := h * 3600 + m * 60.

Inductive event : Type :=
| Alarm (task : Z) (ttl : string) (desc : option string)
| Inserted (r : Row)
| Printed (e : exn).

Record state : Type := mkState {
  tasks : list Row;
  handled : list (Z * string);
  log : list event
}.

Definition emit (e : event) (s : state) : state :=
  mkState (tasks s) (handled s) (log s ++ [e]).

(* WHERE CONCAT(date, ' ', time) = %s *)
Definition due_at (key : string) (r : Row) : bool :=
  (format_date (date r) ++ " " ++ render_time (time r) =? key)%string.

Definition next_id (rows : list Row) : Z :=
  match rows with
  | [] => 1
  | r :: rest => 1 + fold_left Z.max (map id rest) (id r)
  end.

Definition insert_task (t : string) (d : PyDate.date) (tm : Z)
    (desc : option string) (rc : string) : M state unit :=
  modify (fun s =>
    let r := mkRow (next_id (tasks s)) t d tm desc (Some 0) (Some rc) in
    emit (Inserted r) (mkState (tasks s ++ [r]) (handled s) (log s))).

Definition daily_or_weekly (rc : string) : bool :=
  (rc =? "daily")%string || (rc =? "weekly")%string.

(* the body of [for task in tasks] *)
Definition process (key : string) (task : Row) : M state unit :=
  seen <- gets (fun s => existsb (pair_eqb (id task, key)) (handled s)) ;;
  if seen : bool then ret tt
  else
    modify (fun s =>
      mkState (tasks s) ((id task, key) :: handled s) (log s)) ;;;
    modify (emit (Alarm (id task) (title task) (description task))) ;;;
    match recurrence task with
    | None => ret tt
    | Some rc =>
        if daily_or_weekly rc then
          match compute_next_date (date task) rc with
          | Raise e => raise e
          | Return None => ret tt
          | Return (Some next_date) =>
              insert_task (title task) next_date (time task)
                (description task) rc
          end
        else ret tt
    end.

(* the [try] block: [conn_fails] says whether [get_connection], the cursor
   or the query raises *)
Definition check_body (now : datetime) (conn_fails : bool) : M state unit :=
  (if conn_fails then raise StoreError else ret tt) ;;;
  let key := format_key now in
  matches <- gets (fun s => filter (due_at key) (tasks s)) ;;
  for_each (process key) matches.

(* one turn of the loop: try ... except Exception as e: print, then
   [handled.clear()] *)
Definition check_once (now : datetime) (conn_fails : bool) (s : state)
  : state :=
  let s1 :=
    match check_body now conn_fails s with
    | (Return _, s') => s'
    | (Raise e, s') => emit (Printed e) s'
    end in
  mkState (tasks s1) [] (log s1).

Definition alarm_checker (turns : list (datetime * bool)) (s : state)
  : state :=
  fold_left (fun st t => check_once (fst t) (snd t) st) turns s.

Definition start (rows : list Row) : state := mkState rows [] [].

Definition alarms (l : list event) : list Z :=
  flat_map (fun e => match e with Alarm i _ _ => [i] | _ => [] end) l.

End Hyper5.

(** ** The periodic check of the first planner ([autumn.py], lines 1-116)

    [check_alarms] runs on the main thread and schedules its own next run
    with [root.after] as its last statement. All columns may hold [NULL]. *)
Module Autumn.

Record Row : Type := mkRow {
  id : Z;
  title : option string;
  date : option string;
  time : option string;
  note : option string
}.

Inductive event : Type :=
| Alarm (ttl : option string)     (* play_alarm(task[1]) *)
| Rescheduled                     (* root.after(60000, check_alarms) *)
| Traceback (e : exn).            (* the exception reaches the caller *)

Record state : Type := mkState {
  tasks : list Row;
  log : list event
}.

Definition emit (e : event) (s : state) : state :=
  mkState (tasks s) (log s ++ [e]).

(* WHERE date || ' ' || time = ?; a NULL operand makes the test fail *)
Definition due_at (key : string) (r : Row) : bool :=
  match date r, time r with
  | Some d, Some t => (d ++ " " ++ t =? key)%string
  | _, _ => false
  end.

Definition check_alarms (now : datetime) (store_fails : bool)
  : M state unit :=
  let key := format_key now in
  (if store_fails then raise StoreError else ret tt) ;;;
  matches <- gets (fun s => filter (due_at key) (tasks s)) ;;
  for_each (fun task => modify (emit (Alarm (title task)))) matches ;;;
  modify (emit Rescheduled).

(** The runs of [check_alarms] that take place over a sequence of timer
    periods: the next one only if the last one scheduled it. *)
Fixpoint run (periods : list (datetime * bool)) (s : state) : state :=
  match periods with
  | [] => s
  | (now, store_fails) :: rest =>
      match check_alarms now store_fails s with
      | (Return _, s') => run rest s'
      | (Raise e, s') => emit (Traceback e) s'
      end
  end.

Definition start (rows : list Row) : state := mkState rows [].

Definition alarms (l : list event) : list (option string) :=
  flat_map (fun e => match e with Alarm t => [t] | _ => [] end) l.

End Autumn.

(** ** The planner's window ([class PlannerApp] of [raining2.py])

    The methods run on the main thread, on the cursor of the connection that
    the alarm thread uses too. What a method reads from the widgets, from the
    clock and from the user's answer to a question is given to it: the entry
    fields and menu variables are part of the state, clock readings and
    answers are arguments. [root.after(ms, f)] adds a pending timer; nothing
    in the program cancels one. An [INSERT], [UPDATE] or [DELETE] with its
    [commit] is one store call, as in the alarm thread. *)
Module App.
Import Planner.

Inductive callback : Type := RefreshUpcomingPanel | ScheduleDailyAutoclean.

(* what stands in the panel of upcoming tasks *)
Inductive item : Type :=
| NoUpcoming                          (* the label "No upcoming tasks." *)
| Upcoming (txt : string) (tid : Z).  (* a label, its Edit and Del buttons *)

(* message boxes and console output, with the values put into their texts *)
Inductive event : Type :=
| Warned (ttl : string)               (* showwarning(ttl, ...) *)
| Added (ttl d tm : string)           (* showinfo("Added", ...) *)
| Saved                               (* showinfo("Saved", "Task updated.") *)
| Closed                              (* ew.destroy() *)
| NothingToClean                      (* showinfo("Clean Old Tasks", ...) *)
| AskedToClean (count : Z) (cutoff : string)
| Cleaned (count : Z)                 (* showinfo("Cleaned", ...) *)
| Printed (e : exn)                   (* print("Auto-clean error:", e) *)
| Traceback (e : exn).                (* an exception that reached Tk *)

Record state : Type := mkState {
  tasks : list Row;                   (* the table *)
  fuse : option nat;                  (* store calls left before one fails *)
  title_entry : string;
  desc_entry : string;
  date_entry : string;
  hour_var : string;
  min_var : string;
  recur_var : string;
  up_container : list item;
  timers : list (Z * callback);       (* pending root.after(ms, f) *)
  stop_event : bool;
  log : list event
}.

Definition with_tasks (t : list Row) (s : state) : state :=
  mkState t (fuse s) (title_entry s) (desc_entry s) (date_entry s)
    (hour_var s) (min_var s) (recur_var s) (up_container s) (timers s)
    (stop_event s) (log s).
Definition with_fuse (f : option nat) (s : state) : state :=
  mkState (tasks s) f (title_entry s) (desc_entry s) (date_entry s)
    (hour_var s) (min_var s) (recur_var s) (up_container s) (timers s)
    (stop_event s) (log s).
(* title_entry.delete(0, tk.END); desc_entry.delete(0, tk.END) *)
Definition clear_entries (s : state) : state :=
  mkState (tasks s) (fuse s) EmptyString EmptyString (date_entry s)
    (hour_var s) (min_var s) (recur_var s) (up_container s) (timers s)
    (stop_event s) (log s).
Definition with_panel (p : list item) (s : state) : state :=
  mkState (tasks s) (fuse s) (title_entry s) (desc_entry s) (date_entry s)
    (hour_var s) (min_var s) (recur_var s) p (timers s)
    (stop_event s) (log s).
Definition with_timers (t : list (Z * callback)) (s : state) : state :=
  mkState (tasks s) (fuse s) (title_entry s) (desc_entry s) (date_entry s)
    (hour_var s) (min_var s) (recur_var s) (up_container s) t
    (stop_event s) (log s).
Definition emit (e : event) (s : state) : state :=
  mkState (tasks s) (fuse s) (title_entry s) (desc_entry s) (date_entry s)
    (hour_var s) (min_var s) (recur_var s) (up_container s) (timers s)
    (stop_event s) (log s ++ [e]).

Definition store_call : M state unit :=
  fun s =>
    match fuse s with
    | Some O => (Raise StoreError, s)
    | Some (S n) => (Return tt, with_fuse (Some n) s)
    | None => (Return tt, s)
    end.

(* self.root.after(ms, f) *)
Definition after (ms : Z) (f : callback) : M state unit :=
  modify (fun s => with_timers (timers s ++ [(ms, f)]) s).

(* WHERE (date || ' ' || time) >= ?, texts compared byte by byte *)
Definition upcoming_at (now_key : string) (r : Row) : bool :=
  (now_key <=? date r ++ " " ++ time r)%string.

(* the order of ORDER BY date, time *)
Definition row_le (a b : Row) : bool :=
  match String.compare (date a) (date b) with
  | Lt => true
  | Eq => (time a <=? time b)%string
  | Gt => false
  end.

(* f"{r['date']} {r['time']}  -  {r['title']}" and the id of the buttons *)
Definition entry (r : Row) : item :=
  Upcoming (date r ++ " " ++ time r ++ "  -  " ++ title r) (id r).

(* WHERE date < ? *)
Definition older_than (cutoff_str : string) (r : Row) : bool :=
  (date r <? cutoff_str)%string.

(* today - datetime.timedelta(days=30), printed *)
Definition cutoff_of (today : PyDate.date) : outcome string :=
  match add_days today (-30) with
  | Some cutoff_date => Return (format_date cutoff_date)
  | None => Raise OverflowError
  end.

Section OrderBy.

(** [ORDER BY] leaves the order of rows with equal keys to the engine: the
    methods take the engine's sorting as it comes. *)
Variable order_by : list Row -> list Row.

Definition refresh_upcoming_panel (now : datetime) : M state unit :=
  modify (with_panel []) ;;;
  let now_key := format_key now in
  store_call ;;;
  rows <- gets (fun s =>
            firstn 6 (order_by (filter (upcoming_at now_key) (tasks s)))) ;;
  modify (with_panel
            match rows with
            | [] => [NoUpcoming]
            | _ :: _ => map entry rows
            end) ;;;
  stop <- gets stop_event ;;
  if stop : bool then ret tt else after 60000 RefreshUpcomingPanel.

Definition insert_task (t d tm desc rc : string) : M state unit :=
  store_call ;;;
  modify (fun s =>
    with_tasks
      (tasks s ++
       [mkRow (next_rowid (tasks s)) t d tm (Some desc) (Some 0) (Some rc)])
      s).

Definition add_task (now : datetime) : M state unit :=
  ttl <- gets (fun s => strip (title_entry s)) ;;
  desc <- gets (fun s => strip (desc_entry s)) ;;
  d <- gets (fun s => strip (date_entry s)) ;;
  time_str <- gets (fun s => hour_var s ++ ":" ++ min_var s) ;;
  rc <- gets recur_var ;;
  if negb (truthy ttl) then modify (emit (Warned "Missing"))
  else
    match strptime_datetime (d ++ " " ++ time_str) with
    | None => modify (emit (Warned "Invalid"))
    | Some _ =>
        insert_task ttl d time_str desc rc ;;;
        modify (emit (Added ttl d time_str)) ;;;
        modify clear_entries ;;;
        refresh_upcoming_panel now
    end.

(* [confirm] is the answer to "Delete this task?" *)
Definition delete_task (now : datetime) (confirm : bool) (task_id : Z)
  : M state unit :=
  if confirm then
    store_call ;;;
    modify (fun s =>
      with_tasks (filter (fun r => negb (id r =? task_id)) (tasks s)) s) ;;;
    refresh_upcoming_panel now
  else ret tt.

Definition update_row (task_id : Z)
    (new_title new_date new_time new_desc new_recurrence : string) (r : Row)
  : Row :=
  if id r =? task_id
  then mkRow (id r) new_title new_date new_time (Some new_desc) (completed r)
         (Some new_recurrence)
  else r.

Definition update_task (now : datetime) (task_id : Z)
    (new_title new_date new_time new_desc new_recurrence : string)
  : M state unit :=
  match strptime_datetime (new_date ++ " " ++ new_time) with
  | None => modify (emit (Warned "Invalid"))
  | Some _ =>
      store_call ;;;
      modify (fun s =>
        with_tasks
          (map (update_row task_id new_title new_date new_time new_desc
                  new_recurrence) (tasks s)) s) ;;;
      refresh_upcoming_panel now
  end.

(** [save_and_close] of the edit window opened for [task_id]: the arguments
    are what its fields hold, and [refresh_cb] is the callback the window was
    opened with, if any. *)
Definition save_and_close (now : datetime) (task_id : Z)
    (title_e desc_e date_e hvar mvar rvar : string)
    (refresh_cb : option (M state unit)) : M state unit :=
  let new_title := strip title_e in
  let new_desc := strip desc_e in
  let new_date := strip date_e in
  let new_time := hvar ++ ":" ++ mvar in
  let new_recur := rvar in
  if negb (truthy new_title) then modify (emit (Warned "Missing"))
  else
    update_task now task_id new_title new_date new_time new_desc new_recur ;;;
    match refresh_cb with
    | Some cb => cb
    | None => ret tt
    end ;;;
    modify (emit Saved) ;;;
    modify (emit Closed).

(* [today], [now]: the clock read by the method and by the refresh it ends
   with; [confirm]: the answer to the question, when it is asked *)
Definition auto_clean_old_tasks (today : PyDate.date) (confirm : bool)
    (now : datetime) : M state unit :=
  match cutoff_of today with
  | Raise e => raise e
  | Return cutoff_str =>
      store_call ;;;
      count <- gets (fun s =>
        Z.of_nat (List.length (filter (older_than cutoff_str) (tasks s)))) ;;
      if count =? 0 then modify (emit NothingToClean)
      else
        modify (emit (AskedToClean count cutoff_str)) ;;;
        if confirm then
          store_call ;;;
          modify (fun s =>
            with_tasks
              (filter (fun r => negb (older_than cutoff_str r)) (tasks s))
              s) ;;;
          modify (emit (Cleaned count)) ;;;
          refresh_upcoming_panel now
        else ret tt
  end.

Definition auto_clean_old_tasks_silent (today : PyDate.date) (now : datetime)
  : M state unit :=
  match cutoff_of today with
  | Raise e => raise e
  | Return cutoff_str =>
      store_call ;;;
      modify (fun s =>
        with_tasks
          (filter (fun r => negb (older_than cutoff_str r)) (tasks s)) s) ;;;
      refresh_upcoming_panel now
  end.

(* try: silent clean; except Exception as e: print; then the next run *)
Definition schedule_daily_autoclean (today : PyDate.date) (now : datetime)
  : M state unit :=
  fun s =>
    let s1 :=
      match auto_clean_old_tasks_silent today now s with
      | (Return _, s') => s'
      | (Raise e, s') => emit (Printed e) s'
      end in
    if stop_event s1 then (Return tt, s1)
    else after 86400000 ScheduleDailyAutoclean s1.

(** The main loop runs the pending timer at place [i]: the timer is gone
    and its function is called, with the clock as it then reads; an
    exception of the function is reported on the console by Tk, and the loop
    goes on. *)
Definition run_timer (i : nat) (today : PyDate.date) (now : datetime)
    (s : state) : state :=
  match nth_error (timers s) i with
  | None => s
  | Some (_, f) =>
      let s0 :=
        with_timers (firstn i (timers s) ++ skipn (S i) (timers s)) s in
      match
        match f with
        | RefreshUpcomingPanel => refresh_upcoming_panel now s0
        | ScheduleDailyAutoclean => schedule_daily_autoclean today now s0
        end
      with
      | (Return _, s1) => s1
      | (Raise e, s1) => emit (Traceback e) s1
      end
  end.

End OrderBy.

(* the rows in the order of the table: one ordering that the engine may
   give, by insertion *)
Fixpoint insert_row (r : Row) (l : list Row) : list Row :=
  match l with
  | [] => [r]
  | x :: l' => if row_le r x then r :: l else x :: insert_row r l'
  end.

Fixpoint sort_rows (l : list Row) : list Row :=
  match l with
  | [] => []
  | r :: l' => insert_row r (sort_rows l')
  end.

(* the pending timers that will run [refresh_upcoming_panel] *)
Definition refreshes (s : state) : nat :=
  List.length
    (filter (fun t => match snd t with
                      | RefreshUpcomingPanel => true
                      | ScheduleDailyAutoclean => false
                      end) (timers s)).

(* what the alarm thread finds when it is started on the table *)
Definition table (s : state) : Planner.state := Planner.start (tasks s).

(* a row that holds the date and the time of [t] the way the window and the
   clock write them *)
Definition written (r : Row) (t : datetime) : Prop :=
  valid_datetime t = true /\
  date r = format_date (dt_date t) /\ time r = format_time t.

End App.

(** ** The schema ([ensure_schema] of [raining2.py])

    A database has the table [tasks] or not. Of the table, the names of its
    columns are kept, in their order: that is what [PRAGMA table_info] gives
    and what [ALTER TABLE ... ADD COLUMN] changes. SQLite tells column names
    apart up to the case of ASCII letters and refuses to add a column whose
    name the table has; the membership test of the program compares the
    texts themselves. *)
Module Schema.

(* the columns of CREATE TABLE IF NOT EXISTS tasks (...) *)
Definition CREATED : list string :=
  ["id"; "title"; "date"; "time"; "description"; "completed"; "recurrence"].

Definition create_if_not_exists (db : option (list string)) : list string :=
  match db with
  | Some cols => cols
  | None => CREATED
  end.

Definition has_column (cols : list string) (name : string) : bool :=
  existsb (fun c => (lower c =? lower name)%string) cols.

(* ALTER TABLE tasks ADD COLUMN name ... *)
Definition add_column (name : string) : M (list string) unit :=
  fun cols =>
    if has_column cols name then (Raise StoreError, cols)
    else (Return tt, (cols ++ [name])%list).

(* cur.execute("PRAGMA table_info(tasks)");
   cols = [r["name"] for r in cur.fetchall()] *)
Definition table_info : M (list string) (list string) := gets (fun cols => cols).

(* name in cols *)
Definition mem (name : string) (cols : list string) : bool :=
  existsb (String.eqb name) cols.

Definition ensure_schema (db : option (list string))
  : outcome unit * list string :=
  (cols <- table_info ;;
   (if mem "description" cols then ret tt else add_column "description") ;;;
   cols <- (if mem "completed" cols then ret cols
            else
              (* the first statement of this branch runs nothing *)
              cols <- table_info ;;
              (if mem "completed" cols then ret tt
               else add_column "completed") ;;;
              ret cols) ;;
   if mem "recurrence" cols then ret tt else add_column "recurrence")
    (create_if_not_exists db).

(* the columns the program asks for *)
Definition WANTED : list string := ["description"; "completed"; "recurrence"].

End Schema.

(** ** The window of the first planner ([autumn.py], lines 37-111)

    [add_task] reads four entry fields; the table is the one that
    [check_alarms] reads. *)
Module AutumnWindow.

Inductive event : Type :=
| InputError (msg : string)     (* showwarning("Input Error", msg) *)
| Success.                      (* showinfo("Success", "Task Added!") *)

Record state : Type := mkState {
  tasks : list Autumn.Row;
  title_entry : string;
  date_entry : string;
  time_entry : string;
  note_entry : string;
  log : list event
}.

Definition emit (e : event) (s : state) : state :=
  mkState (tasks s) (title_entry s) (date_entry s) (time_entry s)
    (note_entry s) (log s ++ [e]).

(* the row id SQLite gives to a new row *)
Definition next_rowid (rows : list Autumn.Row) : Z :=
  match rows with
  | [] => 1
  | r :: rest => 1 + fold_left Z.max (map Autumn.id rest) (Autumn.id r)
  end.

(* [store_fails]: the INSERT or its commit raises *)
Definition add_task (store_fails : bool) : M state unit :=
  ttl <- gets (fun s => strip (title_entry s)) ;;
  d <- gets (fun s => strip (date_entry s)) ;;
  time_ <- gets (fun s => strip (time_entry s)) ;;
  note <- gets (fun s => strip (note_entry s)) ;;
  if negb (truthy ttl && truthy d && truthy time_ && truthy note)
  then modify (emit (InputError "All fields are required!"))
  else
    match strptime_date d with
    | None =>
        modify (emit (InputError "Date format is incorrect! Use YYYY-MM-DD."))
    | Some _ =>
        match strptime_time time_ with
        | None =>
            modify
              (emit (InputError "Time format is incorrect! Use HH:MM (24h)."))
        | Some _ =>
            (if store_fails then raise StoreError else ret tt) ;;;
            modify (fun s =>
              mkState
                (tasks s ++
                 [Autumn.mkRow (next_rowid (tasks s)) (Some ttl) (Some d)
                    (Some time_) (Some note)])
                EmptyString EmptyString EmptyString EmptyString
                (log s ++ [Success]))
        end
    end.

End AutumnWindow.

(** ** The alarm thread of the second planner of [autumn.py] (lines 233-278)

    The MySQL planner without recurrence: [task_date] is a [DATE] and
    [task_time] a [TIME] column, handed over as a date and as a duration in
    seconds and rendered by [CONCAT] as the MySQL port of [hyper5.py] has
    them. The loop is followed over the turns it takes before the stop
    event is set. *)
Module Autumn2.

Record Row : Type := mkRow {
  id : Z;
  title : string;
  task_date : PyDate.date;
  task_time : Z;            (* seconds *)
  description : option string;
  status : option Z
}.

Inductive event : Type :=
| Alarm (ttl : string) (desc : option string)
| Printed (e : exn)
| Slept.

Record state : Type := mkState {
  tasks : list Row;
  triggered : list (Z * string);
  log : list event
}.

Definition emit (e : event) (s : state) : state :=
  mkState (tasks s) (triggered s) (log s ++ [e]).

(* WHERE CONCAT(task_date,' ',task_time) = %s *)
Definition due_at (key : string) (r : Row) : bool :=
  (format_date (task_date r) ++ " " ++ Hyper5.render_time (task_time r)
   =? key)%string.

(* the body of [for task in tasks] *)
Definition process (key : string) (task : Row) : M state unit :=
  seen <- gets (fun s => existsb (pair_eqb (id task, key)) (triggered s)) ;;
  if seen : bool then ret tt
  else
    modify (fun s =>
      mkState (tasks s) ((id task, key) :: triggered s) (log s)) ;;;
    modify (emit (Alarm (title task) (description task))).

(* the [try] block: [conn_fails] says whether the connection or the query
   raises; [triggered.clear()] is its last statement *)
Definition check_body (now : datetime) (conn_fails : bool) : M state unit :=
  (if conn_fails then raise StoreError else ret tt) ;;;
  let key := format_key now in
  matches <- gets (fun s => filter (due_at key) (tasks s)) ;;
  for_each (process key) matches ;;;
  modify (fun s => mkState (tasks s) [] (log s)).

(* one turn of the loop: try ... except Exception as e: print; sleep(60) *)
Definition check_once (now : datetime) (conn_fails : bool) (s : state)
  : state :=
  emit Slept
    match check_body now conn_fails s with
    | (Return _, s1) => s1
    | (Raise e, s1) => emit (Printed e) s1
    end.

Definition alarm_checker (turns : list (datetime * bool)) (s : state)
  : state :=
  fold_left (fun st t => check_once (fst t) (snd t) st) turns s.

Definition start (rows : list Row) : state := mkState rows [] [].

Definition alarms (l : list event) : list string :=
  flat_map (fun e => match e with Alarm t _ => [t] | _ => [] end) l.

End Autumn2.

(** ** Rows and clock readings used as examples *)
Module Scenario.
Import Planner.

Definition math_hw : Row :=
  mkRow 1 "Math HW" "2024-01-01" "09:00" (Some "chapter 3") (Some 0)
    (Some "daily").
Definition math_hw_next : Row :=
  mkRow 2 "Math HW" "2024-01-02" "09:00" (Some "chapter 3") (Some 0)
    (Some "daily").
Definition math_hw_twin : Row :=
  mkRow 5 "Math HW" "2024-01-01" "09:00" (Some "another note") (Some 1)
    (Some "daily").
Definition one_off : Row :=
  mkRow 2 "One-off" "2024-01-01" "09:00" (Some EmptyString) (Some 0) (Some "none").
Definition shouted : Row :=
  mkRow 1 "Piano" "2024-01-01" "09:00" None (Some 1) (Some "Daily").
Definition math_hw_mysql : Hyper5.Row :=
  Hyper5.mkRow 1 "Math HW" (mkdate 2024 1 1) (Hyper5.time_of 9 0)
    (Some "chapter 3") (Some 0) (Some "daily").
Definition jan1_at (h mi : Z) : datetime :=
  mkdatetime (mkdate 2024 1 1) h mi 5.
Definition note_0901 : Autumn.Row :=
  Autumn.mkRow 1 (Some "Bus") (Some "2024-01-01") (Some "09:01")
    (Some "stop B").
Definition jan1 (h mi : Z) : pass :=
  mkPass (mkdatetime (mkdate 2024 1 1) h mi 5) true None.

End Scenario.

(** * Properties *)

(** *** Facts about the calendar *)

Lemma is_leap_period (y k : Z) : is_leap (y + 400 * k) = is_leap y.
Proof.
  unfold is_leap.
  replace (y + 400 * k) with (y + (100 * k) * 4) at 1 by ring.
  replace (y + 400 * k) with (y + (4 * k) * 100) at 1 by ring.
  replace (y + 400 * k) with (y + k * 400) by ring.
  now rewrite !Z.mod_add by discriminate.
Qed.

Lemma days_before_year_period (y k : Z) :
  days_before_year (y + 400 * k) = days_before_year y + DI400Y * k.
Proof.
  unfold days_before_year, DI400Y; cbv zeta.
  replace (y + 400 * k - 1) with (y - 1 + (100 * k) * 4) at 2 by ring.
  replace (y + 400 * k - 1) with (y - 1 + (4 * k) * 100) at 2 by ring.
  replace (y + 400 * k - 1) with (y - 1 + k * 400) at 2 by ring.
  rewrite !Z.div_add by discriminate. ring.
Qed.

Lemma toordinal_period (d : date) (k : Z) :
  toordinal (shift_year (400 * k) d) = toordinal d + DI400Y * k.
Proof.
  unfold toordinal, ymd2ord, days_before_month, shift_year.
  cbn [year month day].
  rewrite days_before_year_period, is_leap_period. ring.
Qed.

Lemma ord2ymd_period (n k : Z) :
  ord2ymd (n + DI400Y * k) = shift_year (400 * k) (ord2ymd n).
Proof.
  unfold ord2ymd; cbv zeta.
  replace (n + DI400Y * k - 1) with (n - 1 + k * DI400Y) by ring.
  rewrite Z.div_add, Z.mod_add by discriminate.
  set (r := (n - 1) mod DI400Y).
  destruct ((r mod DI100Y mod DI4Y / 365 =? 4) || (r / DI100Y =? 4)).
  - unfold shift_year; cbn [year month day]. f_equal. lia.
  - match goal with |- (if ?c then _ else _) = _ => destruct c end;
      unfold shift_year; cbn [year month day]; f_equal; lia.
Qed.

Lemma valid_date_period (d : date) (k : Z) :
  valid_date d = true -> 1 <= year d + 400 * k <= MAXYEAR ->
  valid_date (shift_year (400 * k) d) = true.
Proof.
  unfold valid_date, shift_year, days_in_month; cbn [year month day].
  rewrite is_leap_period. intros H Hy.
  rewrite !andb_true_iff in *. unfold MINYEAR. rewrite !Z.leb_le in *. tauto.
Qed.

(* one whole 400-year cycle of the calendar, checked by evaluation *)
Lemma cycle_roundtrip_ok :
  forallb (fun y => year_roundtrip (Z.of_nat y)) (seq 1 400) = true.
Proof. vm_cast_no_check (eq_refl true). Qed.

Lemma date_eqb_eq (a b : date) : date_eqb a b = true -> a = b.
Proof.
  destruct a, b; unfold date_eqb; simpl.
  rewrite !andb_true_iff, !Z.eqb_eq. intros [[-> ->] ->]. reflexivity.
Qed.

Lemma valid_date_bounds (d : date) :
  valid_date d = true ->
  1 <= year d <= 9999 /\ 1 <= month d <= 12 /\
  1 <= day d <= days_in_month (year d) (month d).
Proof.
  unfold valid_date, MINYEAR, MAXYEAR.
  rewrite !andb_true_iff, !Z.leb_le. tauto.
Qed.

Lemma days_in_month_le_31 (y m : Z) : days_in_month y m <= 31.
Proof.
  unfold days_in_month. destruct ((m =? 2) && is_leap y); [lia|].
  unfold DAYS_IN_MONTH.
  repeat match goal with |- context [match ?x with _ => _ end] =>
    destruct x; try lia end.
Qed.

(* the round trip inside the first 400-year cycle, from the exhaustive check *)
Lemma roundtrip_first_cycle (d : date) :
  valid_date d = true -> year d <= 400 -> ord2ymd (toordinal d) = d.
Proof.
  intros Hv Hy.
  destruct (valid_date_bounds d Hv) as (Hyr & Hm & Hd).
  pose proof (days_in_month_le_31 (year d) (month d)) as H31.
  assert (Hin : In (Z.to_nat (year d)) (seq 1 400)) by (apply in_seq; lia).
  assert (Hinm : In (Z.to_nat (month d)) (seq 1 12)) by (apply in_seq; lia).
  assert (Hind : In (Z.to_nat (day d)) (seq 1 31)) by (apply in_seq; lia).
  pose proof (proj1 (forallb_forall _ _) cycle_roundtrip_ok _ Hin) as C.
  cbv beta in C. unfold year_roundtrip in C.
  pose proof (proj1 (forallb_forall _ _) C _ Hinm) as C1.
  cbv beta in C1.
  pose proof (proj1 (forallb_forall _ _) C1 _ Hind) as C2.
  cbv beta zeta in C2. clear C C1.
  rewrite !Z2Nat.id in C2 by lia.
  replace (mkdate (year d) (month d) (day d)) with d in C2 by now destruct d.
  apply orb_true_iff in C2. destruct C2 as [C2|C2].
  - rewrite Hv in C2. discriminate C2.
  - apply date_eqb_eq. exact C2.
Qed.

(** [fromordinal] undoes [toordinal] on every date of the type. *)
Lemma ord2ymd_toordinal (d : date) :
  valid_date d = true -> ord2ymd (toordinal d) = d.
Proof.
  intros Hv.
  destruct (valid_date_bounds d Hv) as (Hyr & Hm & Hd).
  set (k := (year d - 1) / 400).
  set (d0 := shift_year (400 * - k) d).
  assert (Hk : 1 <= year d + 400 * - k <= 400).
  { unfold k. pose proof (Z.div_mod (year d - 1) 400 ltac:(discriminate)).
    pose proof (Z.mod_pos_bound (year d - 1) 400 ltac:(lia)). lia. }
  assert (Hv0 : valid_date d0 = true).
  { apply valid_date_period; [exact Hv|unfold MAXYEAR; lia]. }
  assert (Hsh : d = shift_year (400 * k) d0).
  { unfold d0, shift_year; destruct d; cbn [year month day]. f_equal. lia. }
  rewrite Hsh at 1. rewrite toordinal_period, ord2ymd_period.
  rewrite roundtrip_first_cycle; [now rewrite <- Hsh|exact Hv0|].
  unfold d0, shift_year; cbn [year month day]. lia.
Qed.

Lemma is_leap_cases (y : Z) :
  (is_leap y = true /\ (y mod 4 = 0 /\ (y mod 100 <> 0 \/ y mod 400 = 0))) \/
  (is_leap y = false /\ (y mod 4 <> 0 \/ (y mod 100 = 0 /\ y mod 400 <> 0))).
Proof.
  unfold is_leap.
  destruct (Z.eqb_spec (y mod 4) 0), (Z.eqb_spec (y mod 100) 0),
    (Z.eqb_spec (y mod 400) 0); simpl; tauto.
Qed.

Lemma days_before_year_succ (y : Z) :
  days_before_year (y + 1) = days_before_year y + 365 + b2z (is_leap y).
Proof.
  unfold days_before_year; cbv zeta.
  replace (y + 1 - 1) with y by ring.
  destruct (is_leap_cases y) as [[-> H]|[-> H]]; unfold b2z;
    Z.div_mod_to_equations; lia.
Qed.

Lemma days_before_year_nonneg (y : Z) : 1 <= y -> 0 <= days_before_year y.
Proof.
  intros Hy. unfold days_before_year; cbv zeta.
  Z.div_mod_to_equations; lia.
Qed.

Lemma month_cases (m : Z) :
  1 <= m <= 12 ->
  m = 1 \/ m = 2 \/ m = 3 \/ m = 4 \/ m = 5 \/ m = 6 \/
  m = 7 \/ m = 8 \/ m = 9 \/ m = 10 \/ m = 11 \/ m = 12.
Proof. lia. Qed.

Ltac each_month H :=
  destruct (month_cases _ H) as
    [?|[?|[?|[?|[?|[?|[?|[?|[?|[?|[?|?]]]]]]]]]]]; subst.

Lemma days_before_month_succ (y m : Z) :
  1 <= m <= 11 ->
  days_before_month y (m + 1) = days_before_month y m + days_in_month y m.
Proof.
  intros Hm. assert (Hm' : 1 <= m <= 12) by lia.
  unfold days_before_month, days_in_month.
  each_month Hm'; try lia; destruct (is_leap y); reflexivity.
Qed.

Lemma days_in_month_pos (y m : Z) : 1 <= m <= 12 -> 28 <= days_in_month y m.
Proof.
  intros Hm. unfold days_in_month.
  each_month Hm; destruct (is_leap y); simpl; lia.
Qed.

Lemma toordinal_pos (d : date) : valid_date d = true -> 0 < toordinal d.
Proof.
  intros Hv. destruct (valid_date_bounds d Hv) as (Hy & Hm & Hd).
  pose proof (days_before_year_nonneg (year d) ltac:(lia)) as Hb.
  unfold toordinal, ymd2ord, days_before_month.
  destruct d as [y m dd]; cbn [year month day] in *.
  set (b := days_before_year y) in *. clearbody b.
  each_month Hm; destruct (is_leap y); simpl; lia.
Qed.

(** The ordinal of the following day is the following ordinal. *)
Lemma toordinal_next_day (d : date) :
  valid_date d = true -> toordinal (next_day d) = toordinal d + 1.
Proof.
  intros Hv. destruct (valid_date_bounds d Hv) as (Hy & Hm & Hd).
  unfold next_day.
  destruct (Z.ltb_spec (day d) (days_in_month (year d) (month d))) as [Hlt|Hge].
  - unfold toordinal, ymd2ord; cbn [year month day]. ring.
  - assert (Hday : day d = days_in_month (year d) (month d)) by lia.
    destruct (Z.ltb_spec (month d) 12) as [Hm12|Hm12].
    + unfold toordinal, ymd2ord; cbn [year month day].
      rewrite days_before_month_succ by lia. lia.
    + assert (Hmo : month d = 12) by lia.
      unfold toordinal, ymd2ord; cbn [year month day].
      rewrite days_before_year_succ, Hday, Hmo.
      unfold days_before_month, days_in_month.
      destruct (is_leap (year d)); simpl; lia.
Qed.

Lemma toordinal_max : toordinal (mkdate 9999 12 31) = MAXORDINAL.
Proof. reflexivity. Qed.

Lemma valid_next_day (d : date) :
  valid_date d = true -> toordinal d < MAXORDINAL ->
  valid_date (next_day d) = true.
Proof.
  intros Hv Hmax. destruct (valid_date_bounds d Hv) as (Hy & Hm & Hd).
  unfold next_day.
  destruct (Z.ltb_spec (day d) (days_in_month (year d) (month d))) as [Hlt|Hge].
  - unfold valid_date, MINYEAR, MAXYEAR; cbn [year month day].
    rewrite !andb_true_iff, !Z.leb_le. lia.
  - destruct (Z.ltb_spec (month d) 12) as [Hm12|Hm12].
    + pose proof (days_in_month_pos (year d) (month d + 1) ltac:(lia)).
      unfold valid_date, MINYEAR, MAXYEAR; cbn [year month day].
      rewrite !andb_true_iff, !Z.leb_le. lia.
    + assert (Hyr : year d <> 9999).
      { intros E. destruct d as [y m dd]; cbn [year month day] in *.
        assert (m = 12) by lia. subst y m.
        assert (dd = 31) by (unfold days_in_month in *; simpl in *; lia).
        subst dd. rewrite toordinal_max in Hmax. lia. }
      pose proof (days_in_month_pos (year d + 1) 1 ltac:(lia)).
      unfold valid_date, MINYEAR, MAXYEAR; cbn [year month day].
      rewrite !andb_true_iff, !Z.leb_le. lia.
Qed.

Lemma days_later_ok (n : nat) (d : date) :
  valid_date d = true -> toordinal d + Z.of_nat n <= MAXORDINAL ->
  valid_date (days_later n d) = true /\
  toordinal (days_later n d) = toordinal d + Z.of_nat n.
Proof.
  intros Hv. induction n as [|n IH]; intros Hmax.
  - simpl. split; [exact Hv|lia].
  - destruct IH as [IHv IHo]; [lia|].
    cbn [days_later]. split.
    + apply valid_next_day; [exact IHv|lia].
    + rewrite toordinal_next_day by exact IHv. lia.
Qed.

(** Adding [n] days through ordinals is walking [n] days on the calendar,
    as long as the result stays within the years of the type. *)
Lemma add_days_calendar (n : nat) (d : date) :
  valid_date d = true -> toordinal d + Z.of_nat n <= MAXORDINAL ->
  add_days d (Z.of_nat n) = Some (days_later n d).
Proof.
  intros Hv Hmax.
  destruct (days_later_ok n d Hv Hmax) as [Hv' Ho].
  pose proof (toordinal_pos d Hv) as Hpos.
  unfold add_days; cbv zeta.
  replace ((0 <? toordinal d + Z.of_nat n) &&
           (toordinal d + Z.of_nat n <=? MAXORDINAL)) with true.
  - rewrite <- Ho. now rewrite ord2ymd_toordinal.
  - symmetry. rewrite andb_true_iff, Z.ltb_lt, Z.leb_le. lia.
Qed.

Lemma add_days_overflow (d : date) (k : Z) :
  MAXORDINAL < toordinal d + k -> add_days d k = None.
Proof.
  intros H. unfold add_days; cbv zeta.
  replace (toordinal d + k <=? MAXORDINAL) with false.
  - now rewrite andb_false_r.
  - symmetry. apply Z.leb_gt. exact H.
Qed.

(** *** The round trip of a date through its text *)

Lemma digit_val_char (n : Z) :
  0 <= n <= 9 -> digit_val (digit_char n) = Some n.
Proof.
  intros H. destruct n as [|q|q]; [reflexivity| |lia].
  do 4 (try (destruct q as [q|q|]; try reflexivity; try lia)).
Qed.

Lemma parse_year_pad4 (y : Z) (r : string) :
  0 <= y <= 9999 -> parse_year (pad4 y ++ r) = Some (y, r).
Proof.
  intros H. unfold pad4. cbn [append]. unfold parse_year.
  rewrite !digit_val_char by (Z.div_mod_to_equations; lia).
  cbn [opt_bind]. f_equal. f_equal. Z.div_mod_to_equations; lia.
Qed.

Lemma parse_month_pad2 (m : Z) (r : string) :
  1 <= m <= 12 -> parse_month (pad2 m ++ r) = Some (m, r).
Proof. intros H. each_month H; reflexivity. Qed.

Lemma day_cases (d : Z) :
  1 <= d <= 31 ->
  d = 1 \/ d = 2 \/ d = 3 \/ d = 4 \/ d = 5 \/ d = 6 \/ d = 7 \/ d = 8 \/ d = 9 \/ d = 10 \/ d = 11 \/ d = 12 \/ d = 13 \/ d = 14 \/ d = 15 \/ d = 16 \/ d = 17 \/ d = 18 \/ d = 19 \/ d = 20 \/ d = 21 \/ d = 22 \/ d = 23 \/ d = 24 \/ d = 25 \/ d = 26 \/ d = 27 \/ d = 28 \/ d = 29 \/ d = 30 \/ d = 31.
Proof. lia. Qed.

Lemma parse_day_pad2 (d : Z) :
  1 <= d <= 31 -> parse_day (pad2 d) = Some (d, EmptyString).
Proof.
  intros H.
  destruct (day_cases d H) as
    [?|[?|[?|[?|[?|[?|[?|[?|[?|[?|[?|[?|[?|[?|[?|[?|[?|[?|[?|[?|[?|[?|[?|[?|[?|[?|[?|[?|[?|[?|?]]]]]]]]]]]]]]]]]]]]]]]]]]]]]];
    subst; reflexivity.
Qed.

(** Parsing the printed form of a date gives the date back. *)
Lemma strptime_format_date (d : date) :
  valid_date d = true -> strptime_date (format_date d) = Some d.
Proof.
  intros Hv. destruct (valid_date_bounds d Hv) as (Hy & Hm & Hd).
  pose proof (days_in_month_le_31 (year d) (month d)) as H31.
  unfold strptime_date, format_date.
  rewrite parse_year_pad4 by lia. cbn [opt_bind append expect].
  rewrite Ascii.eqb_refl. cbn [opt_bind].
  rewrite parse_month_pad2 by lia. cbn [opt_bind append expect].
  rewrite Ascii.eqb_refl. cbn [opt_bind].
  rewrite parse_day_pad2 by lia. cbn [opt_bind].
  replace (mkdate (year d) (month d) (day d)) with d by now destruct d.
  now rewrite Hv.
Qed.

(** Whatever [strptime] returns is a date of the type. *)
Lemma strptime_date_valid (s : string) (d : date) :
  strptime_date s = Some d -> valid_date d = true.
Proof.
  unfold strptime_date, opt_bind.
  destruct (parse_year s) as [[y r1]|]; [|discriminate].
  destruct (expect "-" r1) as [r2|]; [|discriminate].
  destruct (parse_month r2) as [[m r3]|]; [|discriminate].
  destruct (expect "-" r3) as [r4|]; [|discriminate].
  destruct (parse_day r4) as [[dd r5]|]; [|discriminate].
  destruct r5; [|discriminate].
  destruct (valid_date (mkdate y m dd)) eqn:E; [|discriminate].
  intros H. injection H as <-. exact E.
Qed.

(** ** The recurrence engine *)

Lemma add_one_day (d : date) :
  valid_date d = true -> 1 <= days_left d ->
  add_days d 1 = Some (next_day d).
Proof.
  intros Hv Hl. apply (add_days_calendar 1 d Hv).
  unfold days_left in Hl. lia.
Qed.

Lemma add_seven_days (d : date) :
  valid_date d = true -> 7 <= days_left d ->
  add_days d 7 = Some (days_later 7 d).
Proof.
  intros Hv Hl. apply (add_days_calendar 7 d Hv).
  unfold days_left in Hl. lia.
Qed.

(* a later day is in no earlier year *)
Lemma year_next_day (d : date) : year d <= year (next_day d).
Proof.
  unfold next_day. destruct (day d <? days_in_month (year d) (month d));
    [cbn [year]; lia|].
  destruct (month d <? 12); cbn [year]; lia.
Qed.

Lemma year_days_later (n : nat) (d : date) : year d <= year (days_later n d).
Proof.
  induction n as [|n IH]; cbn [days_later]; [lia|].
  pose proof (year_next_day (days_later n d)). lia.
Qed.

(** C5 (as amended). For every valid date [daily] gives the following
    calendar day and [weekly] the day seven calendar days later, provided
    that day is still a date of the type (at most 9999-12-31); [none] gives
    no result. The MySQL port does so on date values. The SQLite planner
    does so on the texts of the dates, for the dates from year 1000 on,
    where [%Y] prints the four digits that it reads: the text it returns is
    that of a date of year 1000 or later again. *)
Theorem compute_next_date_calendar (d : date) :
  valid_date d = true ->
  (1 <= days_left d ->
     Hyper5.compute_next_date d "daily" = Return (Some (next_day d)) /\
     (1000 <= year d ->
      Planner.compute_next_date (format_date d) "daily"
        = Return (Some (format_date (next_day d))) /\
      1000 <= year (next_day d))) /\
  (7 <= days_left d ->
     Hyper5.compute_next_date d "weekly" = Return (Some (days_later 7 d)) /\
     (1000 <= year d ->
      Planner.compute_next_date (format_date d) "weekly"
        = Return (Some (format_date (days_later 7 d))) /\
      1000 <= year (days_later 7 d))) /\
  Hyper5.compute_next_date d "none" = Return None /\
  (1000 <= year d ->
   Planner.compute_next_date (format_date d) "none" = Return None).
Proof.
  intros Hv.
  unfold Planner.compute_next_date, Hyper5.compute_next_date.
  rewrite (strptime_format_date d Hv). cbn [String.eqb Ascii.eqb Bool.eqb].
  repeat split.
  - now rewrite add_one_day.
  - now rewrite add_one_day.
  - pose proof (year_next_day d). lia.
  - now rewrite add_seven_days.
  - now rewrite add_seven_days.
  - pose proof (year_days_later 7 d). lia.
Qed.

Lemma compute_next_date_calendar_witness :
  Planner.compute_next_date "2024-02-28" "daily" = Return (Some "2024-02-29") /\
  Planner.compute_next_date "2024-02-28" "weekly" = Return (Some "2024-03-06") /\
  Planner.compute_next_date "2024-02-28" "none" = Return None.
Proof.
  assert (Hv : valid_date (mkdate 2024 2 28) = true) by reflexivity.
  assert (Hy : 1000 <= year (mkdate 2024 2 28)) by (cbn [year]; lia).
  destruct (compute_next_date_calendar (mkdate 2024 2 28) Hv)
    as (Hd & Hw & _ & Hn).
  destruct Hd as [_ Hd]; [vm_compute; discriminate|].
  destruct Hw as [_ Hw]; [vm_compute; discriminate|].
  split; [exact (proj1 (Hd Hy))|split; [exact (proj1 (Hw Hy))|exact (Hn Hy)]].
Defined.

(** C5 as stated fails on the last day of the calendar: there is no
    following day to return, and the addition raises. *)
Lemma compute_next_date_last_day :
  valid_date (mkdate 9999 12 31) = true /\
  format_date (mkdate 9999 12 31) = "9999-12-31" /\
  Planner.compute_next_date "9999-12-31" "daily" = Raise OverflowError /\
  Hyper5.compute_next_date (mkdate 9999 12 31) "daily" = Raise OverflowError /\
  Planner.compute_next_date "9999-12-25" "weekly" = Raise OverflowError.
Proof. repeat split; reflexivity. Qed.

(** ** One matched row *)

Import Planner.

Ltac unfold_store :=
  cbv beta iota delta
    [bind ret raise gets modify store_call count_occurrences insert_task
     is_handled mark_handled select_due].

Lemma count_zero_iff {A : Type} (f : A -> bool) (l : list A) :
  (Z.of_nat (List.length (filter f l)) =? 0) = negb (existsb f l).
Proof.
  induction l as [|a l IH]; [reflexivity|].
  simpl. destruct (f a); simpl; [reflexivity|exact IH].
Qed.

Lemma process_seen (key : string) (alive : bool) (m : Row) (s : state) :
  existsb (pair_eqb (id m, key)) (handled s) = true ->
  process key alive m s = (Return tt, s).
Proof.
  intros H. unfold process, bind, is_handled, gets. now rewrite H.
Qed.

Lemma process_fresh (key : string) (alive : bool) (m : Row) (s : state) :
  existsb (pair_eqb (id m, key)) (handled s) = false ->
  process key alive m s = advance m (rung key alive m s).
Proof.
  intros H. unfold process, bind, is_handled, gets, mark_handled, modify.
  now rewrite H.
Qed.

Lemma advance_not_recurring (m : Row) (s : state) :
  match recurrence m with
  | None => True
  | Some rc => truthy rc && daily_or_weekly (lower rc) = false
  end ->
  advance m s = (Return tt, s).
Proof.
  unfold advance. destruct (recurrence m) as [rc|]; [|reflexivity].
  intros ->. reflexivity.
Qed.

(* a recurring row whose next date is [nd], the store working *)
Lemma advance_recurring (m : Row) (s : state) (rc nd : string) :
  recurrence m = Some rc ->
  truthy rc && daily_or_weekly (lower rc) = true ->
  compute_next_date (date m) (lower rc) = Return (Some nd) ->
  truthy nd = true ->
  fuse s = None ->
  advance m s =
    if has_occurrence (tasks s) (title m) nd (time m) rc
    then (Return tt, s)
    else (Return tt,
          emit (Inserted (successor (tasks s) m nd rc))
            (with_tasks (tasks s ++ [successor (tasks s) m nd rc]) s)).
Proof.
  intros Hrc Hdw Hnd Ht Hf.
  unfold advance. rewrite Hrc, Hdw, Hnd, Ht.
  unfold_store. rewrite Hf. unfold_store.
  rewrite count_zero_iff. unfold has_occurrence.
  destruct (existsb _ (tasks s)); cbn [negb]; [reflexivity|].
  rewrite Hf. reflexivity.
Qed.

Lemma truthy_format_date (d : PyDate.date) : truthy (format_date d) = true.
Proof. reflexivity. Qed.

Lemma rung_tasks (key : string) (alive : bool) (m : Row) (s : state) :
  tasks (rung key alive m s) = tasks s.
Proof. reflexivity. Qed.

Lemma rung_fuse (key : string) (alive : bool) (m : Row) (s : state) :
  fuse (rung key alive m s) = fuse s.
Proof. reflexivity. Qed.

Lemma daily_is_recurring : truthy "daily" && daily_or_weekly (lower "daily") = true.
Proof. reflexivity. Qed.

Lemma compute_next_date_daily (s : string) (d : PyDate.date) :
  s = format_date d -> valid_date d = true -> 1 <= days_left d ->
  compute_next_date s "daily" = Return (Some (format_date (next_day d))).
Proof.
  intros -> Hv Hl. unfold compute_next_date.
  rewrite (strptime_format_date d Hv). cbn [String.eqb Ascii.eqb Bool.eqb].
  now rewrite add_one_day.
Qed.

(** C1 (as amended). A task with recurrence [daily] that fires on its due
    date, the store working and the following day being a date: when no row
    has its title, the following day, its time and [daily], exactly one row
    is appended, with the same title, description, time and recurrence, the
    following day as date and [completed = 0]; when such a row exists,
    nothing is appended. Either way every row there was, the firing one
    included, stays as it is. A task with recurrence [none] appends nothing. *)
Theorem daily_task_fires (key : string) (alive : bool) (m : Row) (s : state)
    (d : PyDate.date) :
  existsb (pair_eqb (id m, key)) (handled s) = false ->
  fuse s = None ->
  date m = format_date d -> valid_date d = true -> 1 <= days_left d ->
  let next := format_date (next_day d) in
  let s' := snd (process key alive m s) in
  (recurrence m = Some "daily" ->
     fst (process key alive m s) = Return tt /\
     tasks s' =
       if has_occurrence (tasks s) (title m) next (time m) "daily"
       then tasks s
       else (tasks s ++
              [mkRow (next_rowid (tasks s)) (title m) next (time m)
                 (description m) (Some 0) (Some "daily")])%list) /\
  (recurrence m = Some "none" ->
     fst (process key alive m s) = Return tt /\ tasks s' = tasks s).
Proof.
  intros Hfresh Hfuse Hdate Hv Hl next s'. subst s'.
  rewrite (process_fresh key alive m s Hfresh). split; intros Hrc.
  - rewrite (advance_recurring m _ "daily" next Hrc daily_is_recurring);
      [ | exact (compute_next_date_daily _ d Hdate Hv Hl)
        | apply truthy_format_date
        | rewrite rung_fuse; exact Hfuse ].
    rewrite rung_tasks.
    destruct (has_occurrence (tasks s) (title m) next (time m) "daily");
      split; reflexivity.
  - rewrite advance_not_recurring; [split; reflexivity|].
    now rewrite Hrc.
Qed.

Lemma daily_task_fires_witness :
  tasks (snd (process "2024-01-01 09:00" true Scenario.math_hw
                (start [Scenario.math_hw])))
  = [Scenario.math_hw; Scenario.math_hw_next].
Proof.
  pose proof (daily_task_fires "2024-01-01 09:00" true Scenario.math_hw
                (start [Scenario.math_hw]) (mkdate 2024 1 1)
                eq_refl eq_refl eq_refl eq_refl) as H.
  assert (Hl : 1 <= days_left (mkdate 2024 1 1)) by (vm_compute; discriminate).
  destruct (H Hl) as [Hdaily _].
  destruct (Hdaily eq_refl) as [_ Ht]. exact Ht.
Defined.

(** C1 as stated fails when the next occurrence is already in the table: the
    daily task fires and no row is inserted. *)
Lemma daily_task_successor_present :
  let s := start [Scenario.math_hw; Scenario.math_hw_next] in
  let s' := check_once (Scenario.jan1 9 0) s in
  recurrence Scenario.math_hw = Some "daily" /\
  alarms (log s') = [id Scenario.math_hw] /\
  inserted (log s') = [] /\
  tasks s' = tasks s.
Proof. repeat split; reflexivity. Qed.

(** ** Recurrence values *)

Lemma process_none_like (key : string) (alive : bool) (m : Row) (s : state) :
  match recurrence m with
  | None => True
  | Some rc => daily_or_weekly (lower rc) = false
  end ->
  process key alive m s =
    if existsb (pair_eqb (id m, key)) (handled s)
    then (Return tt, s)
    else (Return tt, rung key alive m s).
Proof.
  intros H.
  destruct (existsb (pair_eqb (id m, key)) (handled s)) eqn:E.
  - now apply process_seen.
  - rewrite (process_fresh _ _ _ _ E). apply advance_not_recurring.
    destruct (recurrence m); [|exact I]. rewrite H. apply andb_false_r.
Qed.

(* a recurrence that reads [daily] or [weekly] in lower case is not empty *)
Lemma recurring_truthy (rc : string) :
  daily_or_weekly (lower rc) = true ->
  truthy rc && daily_or_weekly (lower rc) = true.
Proof. intros H. rewrite H. now destruct rc. Qed.

Lemma compute_next_date_weekly (s : string) (d : PyDate.date) :
  s = format_date d -> valid_date d = true -> 7 <= days_left d ->
  compute_next_date s "weekly" = Return (Some (format_date (days_later 7 d))).
Proof.
  intros -> Hv Hl. unfold compute_next_date.
  rewrite (strptime_format_date d Hv). cbn [String.eqb Ascii.eqb Bool.eqb].
  now rewrite add_seven_days.
Qed.

(** C6 (as amended). The recurrence value is a text of ASCII characters, or
    [NULL]. A value that is [NULL], or whose lower-case form is neither
    [daily] nor [weekly], is handled exactly as [none] is: the pass does the
    same, nothing is raised and the table is untouched. A value whose
    lower-case form is [daily] or [weekly], however its letters are cased,
    is advanced as [daily] or [weekly] is (the store working, the next day
    being a date): unless a row has the title, the next date, the time and
    this very value, one row is appended with the next date and the value
    as it is written. *)
Theorem unknown_recurrence_is_none (key : string) (alive : bool) (m : Row)
    (s : state) :
  match recurrence m with
  | None => True
  | Some rc => is_ascii rc = true
  end ->
  (match recurrence m with
   | None => True
   | Some rc => daily_or_weekly (lower rc) = false
   end ->
   process key alive m s =
     process key alive (with_recurrence (Some "none") m) s /\
   fst (process key alive m s) = Return tt /\
   tasks (snd (process key alive m s)) = tasks s) /\
  (forall (rc : string) (d : PyDate.date),
     recurrence m = Some rc ->
     daily_or_weekly (lower rc) = true ->
     existsb (pair_eqb (id m, key)) (handled s) = false ->
     fuse s = None ->
     date m = format_date d -> valid_date d = true -> 1000 <= year d ->
     (if (lower rc =? "daily")%string then 1 else 7) <= days_left d ->
     let next :=
       format_date (if (lower rc =? "daily")%string then next_day d
                    else days_later 7 d) in
     fst (process key alive m s) = Return tt /\
     tasks (snd (process key alive m s)) =
       if has_occurrence (tasks s) (title m) next (time m) rc
       then tasks s
       else (tasks s ++
              [mkRow (next_rowid (tasks s)) (title m) next (time m)
                 (description m) (Some 0) (Some rc)])%list).
Proof.
  intros _. split.
  - intros H. rewrite (process_none_like key alive m s H).
    rewrite (process_none_like key alive (with_recurrence (Some "none") m) s)
      by reflexivity.
    cbn [with_recurrence id].
    destruct (existsb (pair_eqb (id m, key)) (handled s));
      repeat split; reflexivity.
  - intros rc d Hrc Hdw Hfresh Hfuse Hdate Hv _ Hl next.
    rewrite (process_fresh key alive m s Hfresh).
    assert (Hnd : compute_next_date (date m) (lower rc) = Return (Some next)).
    { unfold next. unfold daily_or_weekly in Hdw.
      destruct (lower rc =? "daily")%string eqn:E.
      - apply String.eqb_eq in E. rewrite E.
        exact (compute_next_date_daily _ d Hdate Hv Hl).
      - cbn [orb] in Hdw. apply String.eqb_eq in Hdw. rewrite Hdw.
        exact (compute_next_date_weekly _ d Hdate Hv Hl). }
    rewrite (advance_recurring m _ rc next Hrc (recurring_truthy rc Hdw) Hnd
               (truthy_format_date _))
      by (rewrite rung_fuse; exact Hfuse).
    rewrite rung_tasks.
    destruct (has_occurrence (tasks s) (title m) next (time m) rc);
      split; reflexivity.
Qed.

Lemma unknown_recurrence_is_none_witness :
  tasks (snd (process "2024-01-01 09:00" true
                (with_recurrence (Some "monthly") Scenario.math_hw)
                (start [Scenario.math_hw])))
  = [Scenario.math_hw] /\
  tasks (snd (process "2024-01-01 09:00" true
                (with_recurrence (Some "WEEKLY") Scenario.math_hw)
                (start [Scenario.math_hw])))
  = [Scenario.math_hw;
     mkRow 2 "Math HW" "2024-01-08" "09:00" (Some "chapter 3") (Some 0)
       (Some "WEEKLY")].
Proof.
  split.
  - destruct (unknown_recurrence_is_none "2024-01-01 09:00" true
                (with_recurrence (Some "monthly") Scenario.math_hw)
                (start [Scenario.math_hw]) eq_refl) as [H _].
    exact (proj2 (proj2 (H eq_refl))).
  - destruct (unknown_recurrence_is_none "2024-01-01 09:00" true
                (with_recurrence (Some "WEEKLY") Scenario.math_hw)
                (start [Scenario.math_hw]) eq_refl) as [_ H].
    refine (proj2 (H "WEEKLY" (mkdate 2024 1 1) eq_refl eq_refl eq_refl
                     eq_refl eq_refl eq_refl _ _)).
    + cbn [year]. lia.
    + vm_compute. discriminate.
Defined.

(** C6 as stated fails on [Daily]: it is none of the three exact strings, and
    the task gets its next occurrence all the same. *)
Lemma capitalised_recurrence_advances :
  let s' := check_once (Scenario.jan1 9 0) (start [Scenario.shouted]) in
  recurrence Scenario.shouted = Some "Daily" /\
  inserted (log s') =
    [mkRow 2 "Piano" "2024-01-02" "09:00" None (Some 0) (Some "Daily")].
Proof. split; reflexivity. Qed.

(** ** The duplicate check *)

Lemma same_occurrence_fields (r : Row) (t d tm rc : string) :
  title r = t -> date r = d -> time r = tm -> recurrence r = Some rc ->
  same_occurrence t d tm rc r = true.
Proof.
  intros <- <- <- H. unfold same_occurrence. rewrite H.
  now rewrite !String.eqb_refl.
Qed.

Lemma has_occurrence_app (rows more : list Row) (t d tm rc : string) :
  has_occurrence (rows ++ more) t d tm rc =
  has_occurrence rows t d tm rc || has_occurrence more t d tm rc.
Proof. apply existsb_app. Qed.

Lemma compute_next_date_truthy (ds rc nd : string) :
  compute_next_date ds rc = Return (Some nd) -> truthy nd = true.
Proof.
  unfold compute_next_date.
  destruct (strptime_date ds) as [d|]; [|discriminate].
  destruct (rc =? "daily")%string.
  - destruct (add_days d 1); [|discriminate].
    intros H. injection H as <-. apply truthy_format_date.
  - destruct (rc =? "weekly")%string; [|discriminate].
    destruct (add_days d 7); [|discriminate].
    intros H. injection H as <-. apply truthy_format_date.
Qed.

Lemma same_occurrence_true (r : Row) (t d tm rc : string) :
  same_occurrence t d tm rc r = true ->
  title r = t /\ date r = d /\ time r = tm /\ recurrence r = Some rc.
Proof.
  unfold same_occurrence. rewrite !andb_true_iff, !String.eqb_eq.
  intros [[[-> ->] ->] H]. destruct (recurrence r) as [x|]; [|discriminate].
  apply String.eqb_eq in H. now subst.
Qed.

(* the count of the duplicate check is zero when no row has the four fields *)
Lemma has_occurrence_none (rows : list Row) (t d tm rc : string) :
  (forall r, In r rows ->
     ~ (title r = t /\ date r = d /\ time r = tm /\ recurrence r = Some rc)) ->
  has_occurrence rows t d tm rc = false.
Proof.
  intros H. unfold has_occurrence.
  destruct (existsb (same_occurrence t d tm rc) rows) eqn:E; [|reflexivity].
  apply existsb_exists in E. destruct E as (r & Hr & E).
  exfalso. exact (H r Hr (same_occurrence_true _ _ _ _ _ E)).
Qed.

(** C10. The duplicate check looks at title, date, time and recurrence, at
    all four and at nothing else. A recurring task fires, the store working
    and its next date being [nd]. When a row of the table carries its title,
    [nd], its time and its recurrence, whatever that row's id, description
    and [completed], the task raises its alarm and nothing is inserted. When
    no row agrees with it on all four, the next occurrence is appended, with
    the description of the task. So of two tasks that share the four fields
    and fire in the same pass on a table without their next occurrence, the
    first gets it and the second gets none: the table ends with the one
    successor, which carries the description of the first. *)
Theorem duplicate_check_four_fields (key : string) (alive : bool) (m : Row)
    (s : state) (rc nd : string) :
  existsb (pair_eqb (id m, key)) (handled s) = false ->
  fuse s = None ->
  recurrence m = Some rc ->
  truthy rc && daily_or_weekly (lower rc) = true ->
  compute_next_date (date m) (lower rc) = Return (Some nd) ->
  let taken (r : Row) :=
    title r = title m /\ date r = nd /\ time r = time m /\
    recurrence r = Some rc in
  let next :=
    mkRow (next_rowid (tasks s)) (title m) nd (time m) (description m)
      (Some 0) (Some rc) in
  ((exists other : Row, In other (tasks s) /\ taken other) ->
   process key alive m s = (Return tt, rung key alive m s)) /\
  ((forall other : Row, In other (tasks s) -> ~ taken other) ->
   process key alive m s =
     (Return tt,
      emit (Inserted next)
        (with_tasks (tasks s ++ [next]) (rung key alive m s)))) /\
  (forall m2 : Row,
     id m2 <> id m ->
     existsb (pair_eqb (id m2, key)) (handled s) = false ->
     title m2 = title m -> date m2 = date m -> time m2 = time m ->
     recurrence m2 = Some rc ->
     (forall other : Row, In other (tasks s) -> ~ taken other) ->
     let s1 := snd (process key alive m s) in
     tasks s1 = (tasks s ++ [next])%list /\
     process key alive m2 s1 = (Return tt, rung key alive m2 s1)).
Proof.
  intros Hfresh Hf Hrc Hdw Hnd taken next.
  pose proof (compute_next_date_truthy _ _ _ Hnd) as Htr.
  assert (Step : process key alive m s =
            if has_occurrence (tasks s) (title m) nd (time m) rc
            then (Return tt, rung key alive m s)
            else (Return tt,
                  emit (Inserted next)
                    (with_tasks (tasks s ++ [next]) (rung key alive m s)))).
  { rewrite (process_fresh key alive m s Hfresh).
    rewrite (advance_recurring m _ rc nd Hrc Hdw Hnd Htr)
      by (rewrite rung_fuse; exact Hf).
    rewrite rung_tasks. reflexivity. }
  assert (Free : (forall other : Row, In other (tasks s) -> ~ taken other) ->
            has_occurrence (tasks s) (title m) nd (time m) rc = false).
  { intros H. now apply has_occurrence_none. }
  split; [|split].
  - intros (other & Hin & Ht & Hd & Htm & Hr). rewrite Step.
    replace (has_occurrence (tasks s) (title m) nd (time m) rc) with true;
      [reflexivity|].
    symmetry. apply existsb_exists. exists other. split; [exact Hin|].
    now apply same_occurrence_fields.
  - intros H. now rewrite Step, (Free H).
  - intros m2 Hid Hfresh2 Ht Hd Htm Hr2 H s1.
    assert (E1 : s1 = emit (Inserted next)
                        (with_tasks (tasks s ++ [next])
                           (rung key alive m s))).
    { unfold s1. now rewrite Step, (Free H). }
    split; [now rewrite E1|].
    assert (Hfresh21 : existsb (pair_eqb (id m2, key)) (handled s1) = false).
    { rewrite E1. cbn [rung handled emit with_tasks with_handled existsb].
      rewrite Hfresh2, orb_false_r.
      unfold pair_eqb. cbn [fst snd].
      apply andb_false_iff. left. now apply Z.eqb_neq. }
    rewrite (process_fresh key alive m2 s1 Hfresh21).
    assert (Hnd2 : compute_next_date (date m2) (lower rc) = Return (Some nd))
      by (rewrite Hd; exact Hnd).
    rewrite (advance_recurring m2 _ rc nd Hr2 Hdw Hnd2 Htr)
      by (rewrite rung_fuse, E1; exact Hf).
    rewrite rung_tasks, Ht, Htm.
    replace (has_occurrence (tasks s1) (title m) nd (time m) rc) with true;
      [reflexivity|].
    symmetry. rewrite E1. cbn [tasks emit with_tasks].
    rewrite has_occurrence_app. apply orb_true_iff. right.
    unfold has_occurrence. cbn [existsb].
    now rewrite same_occurrence_fields.
Qed.

Lemma duplicate_check_four_fields_witness :
  let s := start [Scenario.math_hw; Scenario.math_hw_twin] in
  let s1 := snd (process "2024-01-01 09:00" true Scenario.math_hw s) in
  let s2 := snd (process "2024-01-01 09:00" true Scenario.math_hw_twin s1) in
  tasks s2 =
    [Scenario.math_hw; Scenario.math_hw_twin;
     mkRow 6 "Math HW" "2024-01-02" "09:00" (Some "chapter 3") (Some 0)
       (Some "daily")] /\
  alarms (log s2) = [1; 5].
Proof.
  intros s s1 s2.
  destruct (duplicate_check_four_fields "2024-01-01 09:00" true
              Scenario.math_hw s "daily" "2024-01-02"
              eq_refl eq_refl eq_refl eq_refl eq_refl) as (_ & _ & H).
  destruct (H Scenario.math_hw_twin) as [H1 H2]; try reflexivity.
  - discriminate.
  - intros other [<-|[<-|[]]] (_ & E & _); discriminate E.
  - unfold s2. fold s1 in H1, H2. rewrite H2. cbn [snd].
    split; [rewrite rung_tasks; exact H1|reflexivity].
Defined.

(** ** The next occurrence is never due in the minute that made it *)

Lemma length_append (a b : string) :
  String.length (a ++ b) = (String.length a + String.length b)%nat.
Proof. induction a as [|c a IH]; simpl; [reflexivity|now rewrite IH]. Qed.

Lemma append_inv_tail (a b c : string) : a ++ c = b ++ c -> a = b.
Proof.
  revert b. induction a as [|x a IH]; intros [|y b] H.
  - reflexivity.
  - apply (f_equal String.length) in H. simpl in H.
    rewrite length_append in H. lia.
  - apply (f_equal String.length) in H. simpl in H.
    rewrite length_append in H. lia.
  - simpl in H. injection H as -> H. f_equal. now apply IH.
Qed.

Lemma add_days_later (n : nat) (d d' : PyDate.date) :
  valid_date d = true -> add_days d (Z.of_nat n) = Some d' ->
  valid_date d' = true /\ toordinal d' = toordinal d + Z.of_nat n.
Proof.
  intros Hv H.
  assert (Hmax : toordinal d + Z.of_nat n <= MAXORDINAL).
  { unfold add_days in H. cbv zeta in H.
    destruct ((0 <? toordinal d + Z.of_nat n) &&
              (toordinal d + Z.of_nat n <=? MAXORDINAL)) eqn:E;
      [|discriminate].
    apply andb_true_iff in E. destruct E as [_ E]. now apply Z.leb_le. }
  rewrite (add_days_calendar n d Hv Hmax) in H. injection H as <-.
  now apply days_later_ok.
Qed.

(** What [compute_next_date] returns is the text of a later date, and so
    another text than the one it was given. *)
Lemma compute_next_date_differs (ds rc nd : string) :
  compute_next_date ds rc = Return (Some nd) -> nd <> ds.
Proof.
  unfold compute_next_date.
  destruct (strptime_date ds) as [d|] eqn:Hp; [|discriminate].
  pose proof (strptime_date_valid _ _ Hp) as Hv.
  assert (K : forall n : nat, (0 < n)%nat -> forall d',
            add_days d (Z.of_nat n) = Some d' -> format_date d' <> ds).
  { intros n Hn d' Ha E.
    destruct (add_days_later n d d' Hv Ha) as [Hv' Ho].
    pose proof (strptime_format_date d' Hv') as Hp'.
    rewrite E, Hp in Hp'. injection Hp' as ->. lia. }
  destruct (rc =? "daily")%string.
  - destruct (add_days d 1) as [d'|] eqn:Ha; [|discriminate].
    intros H. injection H as <-. apply (K 1%nat); [lia|exact Ha].
  - destruct (rc =? "weekly")%string; [|discriminate].
    destruct (add_days d 7) as [d'|] eqn:Ha; [|discriminate].
    intros H. injection H as <-. apply (K 7%nat); [lia|exact Ha].
Qed.

Lemma successor_not_due (key : string) (rows : list Row) (m : Row)
    (rc0 rc nd : string) :
  due_at key m = true ->
  compute_next_date (date m) rc0 = Return (Some nd) ->
  due_at key (successor rows m nd rc) = false.
Proof.
  unfold due_at. intros Hm Hnd.
  apply String.eqb_eq in Hm. apply String.eqb_neq.
  cbn [successor date time]. intros E. rewrite <- Hm in E.
  apply append_inv_tail in E.
  exact (compute_next_date_differs _ _ _ Hnd E).
Qed.

(** ** What one pass does to the table and to the log *)

Lemma settled_app (rows more : list Row) (m : Row) :
  settled rows m -> settled (rows ++ more) m.
Proof.
  intros H rc nd H1 H2 H3. rewrite has_occurrence_app.
  now rewrite (H rc nd H1 H2 H3).
Qed.

(* what [advance] may do, whichever store call fails *)
Lemma advance_effect (m : Row) (s : state) :
  exists new : list Row,
    tasks (snd (advance m s)) = (tasks s ++ new)%list /\
    log (snd (advance m s)) = (log s ++ map Inserted new)%list /\
    handled (snd (advance m s)) = handled s /\
    polls (snd (advance m s)) = polls s /\
    (fuse s = None -> fuse (snd (advance m s)) = None) /\
    (forall x, In x new ->
       exists rc nd, compute_next_date (date m) (lower rc) = Return (Some nd) /\
                     x = successor (tasks s) m nd rc) /\
    (settled (tasks s) m -> new = []) /\
    (fuse s = None -> settled (tasks s ++ new) m).
Proof.
  set (P := fun r : outcome unit * state =>
    exists new : list Row,
      tasks (snd r) = (tasks s ++ new)%list /\
      log (snd r) = (log s ++ map Inserted new)%list /\
      handled (snd r) = handled s /\
      polls (snd r) = polls s /\
      (fuse s = None -> fuse (snd r) = None) /\
      (forall x, In x new ->
         exists rc nd,
           compute_next_date (date m) (lower rc) = Return (Some nd) /\
           x = successor (tasks s) m nd rc) /\
      (settled (tasks s) m -> new = []) /\
      (fuse s = None -> settled (tasks s ++ new) m)).
  change (P (advance m s)).
  (* nothing inserted, the store untouched or only its fuse burnt *)
  assert (Idle : forall o s',
            s' = s \/ (fuse s <> None /\ exists f, s' = with_fuse f s) ->
            (fuse s = None -> settled (tasks s) m) -> P (o, s')).
  { intros o s' Hs' Hset. exists []. rewrite !app_nil_r.
    destruct Hs' as [->|(Hne & f & ->)];
      cbn [snd with_fuse tasks log handled polls fuse map];
      rewrite ?app_nil_r; repeat split; try tauto; try contradiction. }
  (* one row inserted *)
  assert (Ins : forall rc nd f,
            recurrence m = Some rc ->
            truthy rc && daily_or_weekly (lower rc) = true ->
            compute_next_date (date m) (lower rc) = Return (Some nd) ->
            has_occurrence (tasks s) (title m) nd (time m) rc = false ->
            (fuse s = None -> f = None) ->
            P (Return tt,
               emit (Inserted (successor (tasks s) m nd rc))
                 (with_tasks (tasks s ++ [successor (tasks s) m nd rc])
                    (with_fuse f s)))).
  { intros rc nd f Hrc Hdw Hnd Ho Hf.
    exists [successor (tasks s) m nd rc].
    cbn [snd tasks log handled polls fuse emit with_tasks with_fuse map].
    repeat split; try trivial.
    - intros x [<-|[]]. now exists rc, nd.
    - intros Hs. rewrite (Hs rc nd Hrc Hdw Hnd) in Ho. discriminate.
    - intros _ rc' nd' H1 H2 H3.
      assert (rc' = rc) by congruence. subst rc'.
      assert (nd' = nd) by congruence. subst nd'.
      rewrite has_occurrence_app. apply orb_true_iff. right.
      unfold has_occurrence. cbn [existsb].
      now rewrite same_occurrence_fields. }
  unfold advance.
  destruct (recurrence m) as [rc|] eqn:Hrc;
    [|apply Idle; [now left|intros _ ? ? ? ? ?; congruence]].
  destruct (truthy rc && daily_or_weekly (lower rc)) eqn:Hdw;
    [|apply Idle; [now left|intros _ ? ? ? ?; congruence]].
  destruct (compute_next_date (date m) (lower rc)) as [[nd|]|e] eqn:Hnd;
    [ |apply Idle; [now left|intros _ ? ? ? ? ?; congruence]
      |apply Idle; [now left|intros _ ? ? ? ? ?; congruence]].
  rewrite (compute_next_date_truthy _ _ _ Hnd).
  assert (Hsame : has_occurrence (tasks s) (title m) nd (time m) rc = true ->
                  fuse s = None -> settled (tasks s) m).
  { intros Ho _ rc' nd' H1 H2 H3.
    assert (rc' = rc) by congruence. subst rc'.
    assert (nd' = nd) by congruence. subst nd'. exact Ho. }
  destruct (fuse s) as [[|n]|] eqn:Hf.
  - unfold_store. rewrite Hf. apply Idle; [now left|congruence].
  - unfold_store. rewrite Hf. unfold_store. rewrite count_zero_iff.
    cbn [tasks with_fuse fuse].
    fold (has_occurrence (tasks s) (title m) nd (time m) rc).
    destruct (has_occurrence (tasks s) (title m) nd (time m) rc) eqn:Ho;
      cbn [negb].
    + apply Idle; [right; split; [congruence|now exists (Some n)]
                  |congruence].
    + destruct n as [|n].
      * apply Idle; [right; split; [congruence|now exists (Some 0%nat)]
                    |congruence].
      * apply (Ins rc nd (Some n) eq_refl Hdw Hnd Ho). congruence.
  - unfold_store. rewrite Hf. unfold_store. rewrite count_zero_iff.
    fold (has_occurrence (tasks s) (title m) nd (time m) rc).
    destruct (has_occurrence (tasks s) (title m) nd (time m) rc) eqn:Ho;
      cbn [negb].
    + apply Idle; [now left|now apply Hsame].
    + rewrite Hf.
      replace s with (with_fuse None s) at 3 4
        by (destruct s; cbn in Hf; now subst).
      apply (Ins rc nd None eq_refl Hdw Hnd Ho). reflexivity.
Qed.

Lemma inserted_map (l : list Row) : inserted (map Inserted l) = l.
Proof. induction l as [|a l IH]; cbn; [reflexivity|now f_equal]. Qed.

Lemma alarms_map (l : list Row) : alarms (map Inserted l) = [].
Proof. induction l as [|a l IH]; cbn; [reflexivity|exact IH]. Qed.

Lemma quiet_map (l : list Row) : Forall quiet (map Inserted l).
Proof. induction l as [|a l IH]; cbn; constructor; [exact I|exact IH]. Qed.

Lemma alarms_app (a b : list event) : alarms (a ++ b) = (alarms a ++ alarms b)%list.
Proof. apply flat_map_app. Qed.

Lemma inserted_app (a b : list event) :
  inserted (a ++ b) = (inserted a ++ inserted b)%list.
Proof. apply flat_map_app. Qed.

Lemma process_effect (key : string) (alive : bool) (m : Row) (s : state) :
  let seen := existsb (pair_eqb (id m, key)) (handled s) in
  let r := process key alive m s in
  exists (new : list Row) (evs : list event),
    tasks (snd r) = (tasks s ++ new)%list /\
    log (snd r) = (log s ++ evs)%list /\
    inserted evs = new /\
    alarms evs = (if seen then [] else [id m]) /\
    Forall quiet evs /\
    handled (snd r) = (if seen then handled s else (id m, key) :: handled s) /\
    polls (snd r) = polls s /\
    (fuse s = None -> fuse (snd r) = None) /\
    (forall x, In x new ->
       exists rc nd, compute_next_date (date m) (lower rc) = Return (Some nd) /\
                     x = successor (tasks s) m nd rc) /\
    (seen = true \/ settled (tasks s) m -> new = []) /\
    (fuse s = None -> seen = false -> settled (tasks s ++ new) m).
Proof.
  cbv zeta.
  destruct (existsb (pair_eqb (id m, key)) (handled s)) eqn:E.
  - rewrite (process_seen _ _ _ _ E). exists [], []. cbn [snd map].
    rewrite !app_nil_r.
    repeat split; try tauto; try discriminate; try constructor.
    intros x [].
  - rewrite (process_fresh _ _ _ _ E).
    destruct (advance_effect m (rung key alive m s))
      as (new & Ht & Hl & Hh & Hp & Hf & Hnew & Hset & Hafter).
    exists new, (Alarm (id m) (title m) (description m) alive
                   :: map Inserted new).
    rewrite Ht, Hl, Hh, Hp.
    cbn [rung tasks log handled polls fuse emit with_handled] in *.
    rewrite <- app_assoc. cbn [app].
    repeat split; try assumption.
    + cbn. apply inserted_map.
    + cbn. now rewrite alarms_map.
    + constructor; [exact I|apply quiet_map].
    + intros [H|H]; [discriminate|now apply Hset].
    + intros H _. now apply Hafter.
Qed.

Lemma for_each_cons {A : Type} (f : A -> M state unit) (a : A) (l : list A)
    (s : state) :
  for_each f (a :: l) s =
    match f a s with
    | (Return _, s1) => for_each f l s1
    | (Raise e, s1) => (Raise e, s1)
    end.
Proof. reflexivity. Qed.

(* the table and the log only grow, by rows that are not due now *)
Lemma for_each_grows (key : string) (alive : bool) (ms : list Row) (s : state) :
  (forall m, In m ms -> due_at key m = true) ->
  let r := for_each (process key alive) ms s in
  exists (new : list Row) (evs : list event),
    tasks (snd r) = (tasks s ++ new)%list /\
    log (snd r) = (log s ++ evs)%list /\
    polls (snd r) = polls s /\
    inserted evs = new /\
    Forall quiet evs /\
    (forall x, In x new -> due_at key x = false).
Proof.
  revert s. induction ms as [|m ms IH]; intros s Hdue; cbv zeta.
  - exists [], []. cbn. rewrite !app_nil_r. repeat split; auto.
    intros x [].
  - rewrite for_each_cons.
    destruct (process_effect key alive m s)
      as (new1 & evs1 & Ht & Hl & Hi & _ & Hq & _ & Hp & _ & Hnew & _).
    cbv zeta in Ht, Hl, Hp.
    assert (Hnd : forall x, In x new1 -> due_at key x = false).
    { intros x Hx. destruct (Hnew x Hx) as (rc & nd & Hc & ->).
      apply (successor_not_due key _ m (lower rc)); [|exact Hc].
      apply Hdue. now left. }
    destruct (process key alive m s) as [[[]|e] s1]; cbn [snd] in *.
    + destruct (IH s1) as (new2 & evs2 & Ht2 & Hl2 & Hp2 & Hi2 & Hq2 & Hnd2).
      { intros m' Hm'. apply Hdue. now right. }
      cbv zeta in Ht2, Hl2, Hp2.
      exists (new1 ++ new2)%list, (evs1 ++ evs2)%list.
      rewrite Ht2, Hl2, Hp2, Ht, Hl, Hp, !app_assoc, inserted_app, Hi, Hi2.
      repeat split.
      * now apply Forall_app.
      * intros x Hx. apply in_app_or in Hx. destruct Hx; auto.
    + exists new1, evs1. repeat split; assumption.
Qed.

(* the alarms of the body are those of the rows not skipped, in order, up to
   the row at which the body raised *)
Lemma for_each_alarms (key : string) (alive : bool) (ms : list Row) (s : state) :
  let r := for_each (process key alive) ms s in
  exists (evs : list event) (done rest : list Row),
    log (snd r) = (log s ++ evs)%list /\
    alarms evs = map id done /\
    to_process key (handled s) ms = (done ++ rest)%list /\
    (fst r = Return tt -> rest = []).
Proof.
  revert s. induction ms as [|m ms IH]; intros s; cbv zeta.
  - exists [], [], []. cbn. rewrite app_nil_r. auto.
  - rewrite for_each_cons. cbn [to_process].
    destruct (process_effect key alive m s)
      as (new1 & evs1 & _ & Hl & _ & Ha & _ & Hh & _).
    cbv zeta in Hl, Ha, Hh.
    destruct (process key alive m s) as [[[]|e] s1]; cbn [snd fst] in *.
    + destruct (IH s1) as (evs2 & done2 & rest2 & Hl2 & Ha2 & Hp2 & Hr2).
      cbv zeta in Hl2, Hr2. rewrite Hh in Hp2.
      destruct (existsb (pair_eqb (id m, key)) (handled s)).
      * exists (evs1 ++ evs2)%list, done2, rest2.
        rewrite Hl2, Hl, app_assoc, alarms_app, Ha, Ha2. auto.
      * exists (evs1 ++ evs2)%list, (m :: done2), rest2.
        rewrite Hl2, Hl, app_assoc, alarms_app, Ha, Ha2, Hp2. auto.
    + destruct (existsb (pair_eqb (id m, key)) (handled s)).
      * exists evs1, [], (to_process key (handled s) ms).
        repeat split; [exact Hl|exact Ha|discriminate].
      * exists evs1, [m], (to_process key ((id m, key) :: handled s) ms).
        repeat split; [exact Hl|exact Ha|discriminate].
Qed.

(* once the body has run to its end with a working store, every row it did
   not skip has its next occurrence in the table *)
Lemma for_each_settles (key : string) (alive : bool) (ms : list Row)
    (s : state) :
  (forall m, In m ms -> due_at key m = true) ->
  fuse s = None ->
  fst (for_each (process key alive) ms s) = Return tt ->
  forall m, In m (to_process key (handled s) ms) ->
            settled (tasks (snd (for_each (process key alive) ms s))) m.
Proof.
  revert s. induction ms as [|m ms IH]; intros s Hdue Hf Hret x Hx.
  - destruct Hx.
  - rewrite for_each_cons in Hret |- *. cbn [to_process] in Hx.
    destruct (process_effect key alive m s)
      as (new1 & evs1 & Ht & _ & _ & _ & _ & Hh & _ & Hf1 & _ & _ & Hafter).
    cbv zeta in Ht, Hh, Hf1, Hafter.
    destruct (process key alive m s) as [[[]|e] s1]; cbn [snd fst] in *;
      [|discriminate].
    assert (Hdue' : forall m', In m' ms -> due_at key m' = true)
      by (intros m' Hm'; apply Hdue; now right).
    destruct (for_each_grows key alive ms s1 Hdue')
      as (new2 & evs2 & Ht2 & _).
    cbv zeta in Ht2.
    destruct (existsb (pair_eqb (id m, key)) (handled s)).
    + rewrite <- Hh in Hx. now apply IH; auto.
    + destruct Hx as [<-|Hx].
      * rewrite Ht2, Ht. apply settled_app. now apply Hafter.
      * rewrite <- Hh in Hx. now apply IH; auto.
Qed.

(* rows that have their next occurrence make the body insert nothing,
   whichever store call fails *)
Lemma for_each_settled_idle (key : string) (alive : bool) (ms : list Row)
    (s : state) :
  (forall m, In m (to_process key (handled s) ms) -> settled (tasks s) m) ->
  tasks (snd (for_each (process key alive) ms s)) = tasks s.
Proof.
  revert s. induction ms as [|m ms IH]; intros s Hset; [reflexivity|].
  rewrite for_each_cons. cbn [to_process] in Hset.
  destruct (process_effect key alive m s)
    as (new1 & evs1 & Ht & _ & _ & _ & _ & Hh & _ & _ & _ & Hidle & _).
  cbv zeta in Ht, Hh, Hidle.
  assert (Hnew : new1 = []).
  { apply Hidle.
    destruct (existsb (pair_eqb (id m, key)) (handled s));
      [now left|right; apply Hset; now left]. }
  subst new1. rewrite app_nil_r in Ht.
  destruct (process key alive m s) as [[[]|e] s1]; cbn [snd fst] in *;
    [|exact Ht].
  rewrite IH; [exact Ht|].
  intros x Hx. rewrite Ht. apply Hset.
  rewrite Hh in Hx.
  destruct (existsb (pair_eqb (id m, key)) (handled s));
    [exact Hx|now right].
Qed.

(** ** A whole pass *)

Lemma check_body_working (key : string) (alive : bool) (s : state) :
  fuse s = None ->
  check_body key alive s =
    for_each (process key alive) (filter (due_at key) (tasks s)) s.
Proof.
  intros Hf. unfold check_body. unfold_store. now rewrite Hf.
Qed.

(* whatever the store does: either the query fails and nothing happens, or
   the body runs on the rows due *)
Lemma check_body_cases (key : string) (alive : bool) (s : state) :
  check_body key alive s = (Raise StoreError, s) \/
  exists f, check_body key alive s =
    for_each (process key alive) (filter (due_at key) (tasks s))
      (with_fuse f s).
Proof.
  unfold check_body. unfold_store.
  destruct (fuse s) as [[|n]|] eqn:Hf.
  - now left.
  - right. now exists (Some n).
  - right. exists None. destruct s; cbn in Hf; now subst.
Qed.

Lemma filter_none {A : Type} (f : A -> bool) (l : list A) :
  (forall x, In x l -> f x = false) -> filter f l = [].
Proof.
  induction l as [|a l IH]; intros H; [reflexivity|].
  cbn. rewrite (H a) by now left. apply IH. intros x Hx. apply H. now right.
Qed.

Lemma due_rows_due (key : string) (rows : list Row) :
  forall m, In m (filter (due_at key) rows) -> due_at key m = true.
Proof. intros m H. now apply filter_In in H. Qed.

(** C2. Advancement is idempotent. Let a pass run to its end with a working
    store, and let a second pass run in the same minute on what the first
    left, whatever the store does this time: the second pass leaves the table
    exactly as the first left it, so no recurring task gets a second
    successor. *)
Theorem advancement_idempotent (p q : pass) (s : state) :
  handled s = [] ->
  fault p = None ->
  abandoned p s = false ->
  format_key (now q) = format_key (now p) ->
  tasks (check_once q (with_handled [] (check_once p s)))
  = tasks (check_once p s).
Proof.
  intros Hh Hfp Hab Hkey.
  set (key := format_key (now p)) in *.
  set (ms := filter (due_at key) (tasks s)).
  assert (Hdue : forall m, In m ms -> due_at key m = true)
    by apply due_rows_due.
  (* the first pass *)
  unfold abandoned in Hab. fold key in Hab.
  assert (Hfr : fuse (ready p s) = None) by exact Hfp.
  assert (E1 : check_once p s =
               snd (for_each (process key (root_alive p)) ms (ready p s))).
  { unfold check_once. fold key. fold (ready p s).
    rewrite (check_body_working key _ _ Hfr) in Hab |- *.
    change (tasks (ready p s)) with (tasks s) in Hab |- *. fold ms in Hab |- *.
    destruct (for_each (process key (root_alive p)) ms (ready p s))
      as [[u|e] s1]; [reflexivity|discriminate]. }
  rewrite (check_body_working key _ _ Hfr) in Hab.
  change (tasks (ready p s)) with (tasks s) in Hab. fold ms in Hab.
  assert (Hret : fst (for_each (process key (root_alive p)) ms (ready p s))
                 = Return tt).
  { destruct (fst (for_each (process key (root_alive p)) ms (ready p s)))
      as [[]|]; [reflexivity|discriminate]. }
  pose proof (for_each_settles key (root_alive p) ms (ready p s) Hdue Hfr Hret)
    as Hset.
  change (handled (ready p s)) with (handled s) in Hset. rewrite Hh in Hset.
  destruct (for_each_grows key (root_alive p) ms (ready p s) Hdue)
    as (new & evs & Ht & _ & _ & _ & _ & Hnd).
  cbv zeta in Ht. change (tasks (ready p s)) with (tasks s) in Ht.
  rewrite <- E1 in Hset, Ht.
  set (s1 := check_once p s) in *.
  (* the second pass *)
  assert (Hms : filter (due_at key) (tasks s1) = ms).
  { rewrite Ht, filter_app, (filter_none _ new Hnd). apply app_nil_r. }
  unfold check_once at 1. unfold ready. rewrite Hkey. fold key.
  set (s2 := with_fuse (fault q) (emit (ClockRead key) (with_handled [] s1))).
  assert (Idle : forall f, tasks (snd (for_each (process key (root_alive q)) ms
                                         (with_fuse f s2))) = tasks s1).
  { intros f. rewrite for_each_settled_idle; [reflexivity|].
    exact Hset. }
  destruct (check_body_cases key (root_alive q) s2) as [->|[f ->]].
  - reflexivity.
  - change (tasks s2) with (tasks s1). rewrite Hms.
    specialize (Idle f).
    destruct (for_each (process key (root_alive q)) ms (with_fuse f s2))
      as [[u|e] s3]; exact Idle.
Qed.

Lemma advancement_idempotent_witness :
  tasks (check_once (Scenario.jan1 9 0)
           (with_handled [] (check_once (Scenario.jan1 9 0)
                               (start [Scenario.math_hw]))))
  = [Scenario.math_hw; Scenario.math_hw_next].
Proof.
  rewrite (advancement_idempotent (Scenario.jan1 9 0) (Scenario.jan1 9 0)
             (start [Scenario.math_hw]) eq_refl eq_refl eq_refl eq_refl).
  reflexivity.
Defined.

(** ** Which rows fire *)

Lemma to_process_incl (key : string) (ms : list Row) :
  forall h m, In m (to_process key h ms) -> In m ms.
Proof.
  induction ms as [|a ms IH]; intros h m H; [exact H|].
  cbn [to_process] in H.
  destruct (existsb (pair_eqb (id a, key)) h).
  - right. exact (IH _ _ H).
  - destruct H as [<-|H]; [now left|right; exact (IH _ _ H)].
Qed.

Lemma to_process_all (key : string) (ms : list Row) :
  forall h,
    NoDup (map id ms) ->
    (forall m, In m ms -> existsb (pair_eqb (id m, key)) h = false) ->
    to_process key h ms = ms.
Proof.
  induction ms as [|a ms IH]; intros h Hnd Hh; [reflexivity|].
  cbn [to_process]. rewrite (Hh a) by now left.
  cbn [map] in Hnd. apply NoDup_cons_iff in Hnd. destruct Hnd as [Hna Hnd].
  f_equal. apply IH; [exact Hnd|].
  intros m Hm. cbn [existsb]. rewrite (Hh m) by now right.
  rewrite orb_false_r. unfold pair_eqb. cbn [fst snd].
  apply andb_false_iff. left. apply Z.eqb_neq. intros E.
  apply Hna. rewrite <- E. now apply in_map.
Qed.

Lemma NoDup_map_filter {A B : Type} (g : A -> B) (f : A -> bool) (l : list A) :
  NoDup (map g l) -> NoDup (map g (filter f l)).
Proof.
  induction l as [|a l IH]; intros H; [exact H|].
  cbn [map] in H. apply NoDup_cons_iff in H. destruct H as [Ha H].
  cbn [filter]. destruct (f a); [|now apply IH].
  cbn [map]. constructor; [|now apply IH].
  intros Hin. apply Ha. apply in_map_iff in Hin.
  destruct Hin as (x & <- & Hx). apply in_map.
  now apply filter_In in Hx.
Qed.

Lemma same_id_same_row (rows : list Row) (a b : Row) :
  NoDup (map id rows) -> In a rows -> In b rows -> id a = id b -> a = b.
Proof.
  induction rows as [|r rows IH]; intros Hnd Ha Hb E; [destruct Ha|].
  cbn [map] in Hnd. apply NoDup_cons_iff in Hnd. destruct Hnd as [Hr Hnd].
  destruct Ha as [->|Ha], Hb as [->|Hb].
  - reflexivity.
  - exfalso. apply Hr. rewrite E. now apply in_map.
  - exfalso. apply Hr. rewrite <- E. now apply in_map.
  - now apply IH.
Qed.

(** The SQLite planner fires the rows of the current minute and no other.
    In a pass started with an empty set, on a table whose ids are distinct:
    every alarm of the pass is for a row whose date and time, joined by a
    blank, are the minute key of the clock reading; a row for which they are
    not (an earlier minute included) raises no alarm; and when the pass is
    not abandoned, the alarms are exactly those of the rows due, one each, in
    the order of the table. *)
Theorem pass_fires_due_rows (p : pass) (s : state) :
  handled s = [] ->
  NoDup (map id (tasks s)) ->
  let key := format_key (now p) in
  exists evs : list event,
    log (check_once p s) = (log s ++ ClockRead key :: evs)%list /\
    (forall i, In i (alarms evs) ->
       exists r, In r (tasks s) /\ id r = i /\
                 (date r ++ " " ++ time r)%string = key) /\
    (forall r, In r (tasks s) ->
       (date r ++ " " ++ time r)%string <> key -> ~ In (id r) (alarms evs)) /\
    (abandoned p s = false ->
       alarms evs = map id (filter (due_at key) (tasks s))).
Proof.
  intros Hh Hnd key.
  set (ms := filter (due_at key) (tasks s)).
  assert (Sound : forall evs : list event,
            (forall i, In i (alarms evs) -> exists r, In r ms /\ id r = i) ->
            (forall i, In i (alarms evs) ->
               exists r, In r (tasks s) /\ id r = i /\
                         (date r ++ " " ++ time r)%string = key) /\
            (forall r, In r (tasks s) ->
               (date r ++ " " ++ time r)%string <> key ->
               ~ In (id r) (alarms evs))).
  { intros evs H.
    assert (H' : forall i, In i (alarms evs) ->
               exists r, In r (tasks s) /\ id r = i /\
                         (date r ++ " " ++ time r)%string = key).
    { intros i Hi. destruct (H i Hi) as (r & Hr & E).
      apply filter_In in Hr. destruct Hr as [Hr Hd].
      exists r. repeat split; [exact Hr|exact E|].
      now apply String.eqb_eq in Hd. }
    split; [exact H'|].
    intros r Hr Hne Hin. destruct (H' _ Hin) as (r' & Hr' & E & Hd).
    rewrite (same_id_same_row (tasks s) r r' Hnd Hr Hr' (eq_sym E)) in Hne.
    contradiction. }
  unfold abandoned, check_once. cbv zeta. fold (ready p s). fold key.
  destruct (check_body_cases key (root_alive p) (ready p s)) as [->|[f ->]].
  - exists [Printed StoreError]. cbn [fst snd emit log ready with_fuse].
    rewrite <- app_assoc. cbn [app]. split; [reflexivity|].
    split; [|split; [|discriminate]]; apply (Sound [Printed StoreError]);
      intros i [].
  - change (tasks (ready p s)) with (tasks s). fold ms.
    destruct (for_each_alarms key (root_alive p) ms (with_fuse f (ready p s)))
      as (evs & done & rest & Hl & Ha & Hp & Hr).
    cbv zeta in Hl, Hr.
    change (handled (with_fuse f (ready p s))) with (handled s) in Hp.
    rewrite Hh in Hp.
    rewrite to_process_all in Hp;
      [|now apply NoDup_map_filter|reflexivity].
    change (log (with_fuse f (ready p s)))
      with (log s ++ [ClockRead key])%list in Hl.
    rewrite <- app_assoc in Hl. cbn [app] in Hl.
    assert (Hin : forall i, In i (map id done) -> exists r, In r ms /\ id r = i).
    { intros i Hi. apply in_map_iff in Hi. destruct Hi as (r & E & Hr').
      exists r. split; [|exact E]. rewrite Hp. apply in_or_app. now left. }
    destruct (for_each (process key (root_alive p)) ms
                (with_fuse f (ready p s))) as [[[]|e] s1];
      cbn [fst snd] in *.
    + exists evs. split; [exact Hl|].
      split; [|split];
        [apply (Sound evs); rewrite Ha; exact Hin
        |apply (Sound evs); rewrite Ha; exact Hin|].
      intros _. rewrite Ha, Hp, (Hr eq_refl), app_nil_r. reflexivity.
    + exists (evs ++ [Printed e])%list.
      cbn [emit log]. rewrite Hl, <- app_assoc. cbn [app].
      split; [reflexivity|].
      assert (Ha' : alarms (evs ++ [Printed e]) = map id done)
        by (rewrite alarms_app, Ha; apply app_nil_r).
      split; [|split; [|discriminate]];
        apply (Sound (evs ++ [Printed e])%list); rewrite Ha'; exact Hin.
Qed.

Lemma pass_fires_due_rows_witness :
  exists evs : list event,
    log (check_once (Scenario.jan1 9 0)
           (start [Scenario.math_hw; Scenario.one_off]))
    = ClockRead "2024-01-01 09:00" :: evs /\
    alarms evs = [1; 2].
Proof.
  assert (Hnd : NoDup (map id [Scenario.math_hw; Scenario.one_off])).
  { repeat constructor; cbn; intuition discriminate. }
  destruct (pass_fires_due_rows (Scenario.jan1 9 0)
              (start [Scenario.math_hw; Scenario.one_off]) eq_refl Hnd)
    as (evs & Hl & _ & _ & Ha).
  exists evs. split; [exact Hl|exact (Ha eq_refl)].
Defined.

(** ** The MySQL port never finds a row due *)

Lemma colons_append (a b : string) :
  colons (a ++ b) = (colons a + colons b)%nat.
Proof.
  induction a as [|c a IH]; [reflexivity|].
  cbn [append colons]. rewrite IH. lia.
Qed.

Lemma digit_char_not_colon (n : Z) : (digit_char n =? ":")%char = false.
Proof.
  destruct n as [|q|q]; [reflexivity| |reflexivity].
  do 4 (try (destruct q as [q|q|]; try reflexivity)).
Qed.

Lemma colons_pad2 (n : Z) : colons (pad2 n) = O.
Proof. unfold pad2. cbn [colons]. now rewrite !digit_char_not_colon. Qed.

Lemma colons_format_date (d : PyDate.date) : colons (format_date d) = O.
Proof.
  unfold format_date, pad4. rewrite !colons_append, !colons_pad2.
  cbn [colons]. now rewrite !digit_char_not_colon.
Qed.

Lemma colons_format_key (t : datetime) : colons (format_key t) = 1%nat.
Proof.
  unfold format_key, format_time.
  rewrite !colons_append, colons_format_date, !colons_pad2. reflexivity.
Qed.

Lemma colons_render_time (secs : Z) : colons (Hyper5.render_time secs) = 2%nat.
Proof.
  unfold Hyper5.render_time. cbv zeta.
  rewrite !colons_append, !colons_pad2.
  assert (H : colons (Hyper5.render_hours (Z.abs secs / 3600)) = O).
  { unfold Hyper5.render_hours.
    destruct (Z.abs secs / 3600 <? 100); [apply colons_pad2|].
    cbn [colons]. now rewrite digit_char_not_colon, colons_pad2. }
  rewrite H. destruct (secs <? 0); reflexivity.
Qed.

(** The text MySQL makes of a [DATE] and a [TIME] has the seconds in it, and
    the minute key has none: no row is due at any clock reading, and a pass
    of the port does nothing. *)
Lemma hyper5_never_due (t : datetime) (r : Hyper5.Row) :
  Hyper5.due_at (format_key t) r = false.
Proof.
  unfold Hyper5.due_at. apply String.eqb_neq. intros E.
  apply (f_equal colons) in E.
  rewrite colons_format_key, !colons_append, colons_format_date,
    colons_render_time in E.
  discriminate E.
Qed.

Lemma hyper5_pass_idle (t : datetime) (conn_fails : bool)
    (s : Hyper5.state) :
  Hyper5.check_once t conn_fails s =
    Hyper5.mkState (Hyper5.tasks s) []
      (Hyper5.log s ++
       if conn_fails then [Hyper5.Printed StoreError] else [])%list.
Proof.
  unfold Hyper5.check_once, Hyper5.check_body. cbv zeta.
  destruct conn_fails; [reflexivity|].
  cbv beta iota delta [bind ret gets].
  rewrite (filter_none _ (Hyper5.tasks s));
    [|intros r _; apply hyper5_never_due].
  cbn [for_each ret Hyper5.tasks Hyper5.log]. now rewrite app_nil_r.
Qed.

(** C3 at the failing input of the MySQL port: the task that [add_task]
    stores for 2024-01-01 at 09:00 raises no alarm in the pass of 09:00, nor
    in the passes before and after it, the connection working in all
    three. *)
Lemma hyper5_due_task_not_fired :
  Hyper5.render_time (Hyper5.time Scenario.math_hw_mysql) = "09:00:00" /\
  format_key (Scenario.jan1_at 9 0) = "2024-01-01 09:00" /\
  Hyper5.log
    (Hyper5.alarm_checker
       [(Scenario.jan1_at 8 59, false); (Scenario.jan1_at 9 0, false);
        (Scenario.jan1_at 9 1, false)]
       (Hyper5.start [Scenario.math_hw_mysql])) = [].
Proof. repeat split; reflexivity. Qed.

(** ** Texts with one blank *)

Lemma no_blank_append (a b : string) :
  no_blank (a ++ b) = no_blank a && no_blank b.
Proof.
  induction a as [|c a IH]; [reflexivity|].
  cbn [append no_blank]. rewrite IH. apply andb_assoc.
Qed.

Lemma digit_char_not_blank (n : Z) : (digit_char n =? " ")%char = false.
Proof.
  destruct n as [|q|q]; [reflexivity| |reflexivity].
  do 4 (try (destruct q as [q|q|]; try reflexivity)).
Qed.

Lemma no_blank_pad2 (n : Z) : no_blank (pad2 n) = true.
Proof. unfold pad2. cbn [no_blank]. now rewrite !digit_char_not_blank. Qed.

Lemma no_blank_format_date (d : PyDate.date) : no_blank (format_date d) = true.
Proof.
  unfold format_date, pad4. rewrite !no_blank_append, !no_blank_pad2.
  cbn [no_blank]. now rewrite !digit_char_not_blank.
Qed.

Lemma no_blank_format_time (t : datetime) : no_blank (format_time t) = true.
Proof.
  unfold format_time. now rewrite !no_blank_append, !no_blank_pad2.
Qed.

(* a text is cut in one way only at a blank between two texts without one *)
Lemma split_at_blank (a b front back : string) :
  no_blank front = true -> no_blank back = true ->
  a ++ " " ++ b = front ++ " " ++ back -> a = front /\ b = back.
Proof.
  revert a. induction front as [|y front IH]; intros a Hf Hb E.
  - destruct a as [|x a].
    + cbn in E. injection E as E. now split.
    + cbn in E. injection E as -> E.
      apply (f_equal no_blank) in E.
      rewrite no_blank_append, Hb in E. cbn in E.
      rewrite andb_false_r in E. discriminate E.
  - cbn [no_blank] in Hf. apply andb_true_iff in Hf. destruct Hf as [Hy Hf].
    destruct a as [|x a].
    + cbn in E. injection E as <- _. discriminate Hy.
    + cbn in E. injection E as -> E.
      destruct (IH a Hf Hb E) as [-> ->]. now split.
Qed.

(** ** The loop and the stop event *)

Lemma calm_app (a b : list event) : calm a -> calm b -> calm (a ++ b).
Proof.
  unfold calm. intros Ha Hb H. apply in_app_or in H. tauto.
Qed.

Lemma quiet_calm (evs : list event) : Forall quiet evs -> calm evs.
Proof.
  unfold calm. intros H Hin. rewrite Forall_forall in H.
  exact (H _ Hin).
Qed.

Lemma quiet_clock_reads (evs : list event) :
  Forall quiet evs -> clock_reads evs = [].
Proof.
  induction 1 as [|e evs He _ IH]; [reflexivity|].
  destruct e; cbn in He; try contradiction; exact IH.
Qed.

(* a pass adds the clock reading, then alarms and insertions, then at most
   the printed error; it polls nothing *)
Lemma check_once_trace (p : pass) (s : state) :
  exists evs : list event,
    log (check_once p s) = (log s ++ ClockRead (format_key (now p)) :: evs)%list /\
    calm evs /\ clock_reads evs = [] /\
    polls (check_once p s) = polls s /\
    (abandoned p s = true -> exists evs' e, evs = (evs' ++ [Printed e])%list).
Proof.
  unfold abandoned, check_once. cbv zeta. fold (ready p s).
  set (key := format_key (now p)).
  assert (Hlast : calm [Printed StoreError])
    by (intros [H|[]]; discriminate H).
  destruct (check_body_cases key (root_alive p) (ready p s)) as [->|[f ->]].
  - exists [Printed StoreError]. cbn [fst snd emit log polls ready with_fuse].
    rewrite <- app_assoc. repeat split; try assumption.
    intros _. now exists [], StoreError.
  - destruct (for_each_grows key (root_alive p)
                (filter (due_at key) (tasks (ready p s)))
                (with_fuse f (ready p s)) (due_rows_due key _))
      as (new & evs & _ & Hl & Hp & _ & Hq & _).
    cbv zeta in Hl, Hp.
    change (log (with_fuse f (ready p s)))
      with (log s ++ [ClockRead key])%list in Hl.
    change (polls (with_fuse f (ready p s))) with (polls s) in Hp.
    rewrite <- app_assoc in Hl. cbn [app] in Hl.
    destruct (for_each (process key (root_alive p))
                (filter (due_at key) (tasks (ready p s)))
                (with_fuse f (ready p s))) as [[[]|e] s1];
      cbn [fst snd] in *.
    + exists evs. repeat split; try assumption.
      * now apply quiet_calm.
      * now apply quiet_clock_reads.
      * discriminate.
    + exists (evs ++ [Printed e])%list. cbn [emit log polls].
      rewrite Hl, <- app_assoc. repeat split; try assumption.
      * apply calm_app; [now apply quiet_calm|].
        intros [H|[]]; discriminate H.
      * unfold clock_reads. rewrite flat_map_app.
        fold (clock_reads evs). now rewrite quiet_clock_reads.
      * intros _. now exists evs, e.
Qed.

Lemma is_set_true (stop_after : option nat) (s : state) :
  seen_set stop_after s ->
  is_set stop_after s = (true, emit (Polled true) (with_polls (S (polls s)) s)).
Proof.
  intros (n & -> & Hn). unfold is_set.
  now rewrite (proj2 (Nat.leb_le n (polls s)) Hn).
Qed.

Lemma is_set_cases (stop_after : option nat) (s : state) :
  (fst (is_set stop_after s) = true /\ seen_set stop_after s) \/
  fst (is_set stop_after s) = false.
Proof.
  unfold is_set. destruct stop_after as [n|]; [|now right].
  destruct (Nat.leb_spec n (polls s)) as [H|H]; [left|now right].
  split; [reflexivity|]. now exists n.
Qed.

Lemma is_set_state (stop_after : option nat) (s : state) :
  snd (is_set stop_after s) =
    emit (Polled (fst (is_set stop_after s))) (with_polls (S (polls s)) s).
Proof. reflexivity. Qed.

(* the sleeps: polls that find the event clear, until the seven are over or
   one finds it set *)
Lemma sleep_loop_trace (stop_after : option nat) (i : nat) (s : state) :
  exists evs : list event,
    log (sleep_loop stop_after i s) = (log s ++ evs)%list /\
    clock_reads evs = [] /\ alarms evs = [] /\ inserted evs = [] /\
    tasks (sleep_loop stop_after i s) = tasks s /\
    (calm evs \/
     (exists evs', evs = (evs' ++ [Polled true])%list /\ calm evs' /\
                   seen_set stop_after (sleep_loop stop_after i s))).
Proof.
  revert s. induction i as [|i IH]; intros s.
  - exists []. cbn. rewrite app_nil_r. repeat split; auto.
    left. intros [].
  - cbn [sleep_loop].
    pose proof (is_set_state stop_after s) as Hst.
    destruct (is_set_cases stop_after s) as [[Hb Hseen]|Hb];
      destruct (is_set stop_after s) as [b s1]; cbn [fst snd] in *; subst b.
    + exists [Polled true]. subst s1. cbn [emit log tasks with_polls].
      repeat split; auto. right. exists []. repeat split; auto.
      * intros [].
      * destruct Hseen as (n & E & Hn). exists n. split; [exact E|].
        cbn. lia.
    + destruct (IH (emit Slept s1)) as (evs & Hl & Hc & Ha & Hi & Ht & Hsh).
      exists (Polled false :: Slept :: evs). subst s1.
      cbn [emit log tasks with_polls] in *.
      rewrite Hl, <- !app_assoc. cbn [app]. repeat split; auto.
      destruct Hsh as [Hcalm|(evs' & -> & Hcalm & Hseen)].
      * left. intros [H|[H|H]]; try discriminate H. now apply Hcalm.
      * right. exists (Polled false :: Slept :: evs'). repeat split; auto.
        intros [H|[H|H]]; try discriminate H. now apply Hcalm.
Qed.

Lemma alarm_checker_seen (stop_after : option nat) (passes : list pass)
    (s : state) :
  seen_set stop_after s ->
  alarm_checker stop_after passes s =
    (Exited, emit (Polled true) (with_polls (S (polls s)) s)).
Proof.
  intros H. destruct passes; cbn [alarm_checker];
    now rewrite (is_set_true _ _ H).
Qed.

(* the log of the thread: nothing but polls follows the first poll that
   finds the event set, and the thread has then left its loop *)
Lemma alarm_checker_trace (stop_after : option nat) (passes : list pass) :
  forall s : state,
  exists evs : list event,
    log (snd (alarm_checker stop_after passes s)) = (log s ++ evs)%list /\
    ((calm evs /\ fst (alarm_checker stop_after passes s) = Running) \/
     (exists evs' tail,
        evs = (evs' ++ Polled true :: tail)%list /\ calm evs' /\
        (tail = [] \/ tail = [Polled true]) /\
        fst (alarm_checker stop_after passes s) = Exited)).
Proof.
  induction passes as [|p rest IH]; intros s.
  - cbn [alarm_checker].
    pose proof (is_set_state stop_after s) as Hst.
    destruct (is_set stop_after s) as [[|] s1]; cbn [fst snd] in *; subst s1.
    + exists [Polled true]. split; [reflexivity|]. right.
      exists [], []. repeat split; auto. intros [].
    + exists [Polled false]. split; [reflexivity|]. left.
      split; [|reflexivity]. intros [H|[]]; discriminate H.
  - cbn [alarm_checker].
    pose proof (is_set_state stop_after s) as Hst.
    destruct (is_set stop_after s) as [[|] s1]; cbn [fst snd] in *; subst s1.
    + exists [Polled true]. split; [reflexivity|]. right.
      exists [], []. repeat split; auto. intros [].
    + set (s1 := emit (Polled false) (with_polls (S (polls s)) s)).
      destruct (check_once_trace p s1) as (evs1 & Hl1 & Hc1 & _).
      destruct (sleep_loop_trace stop_after 7 (check_once p s1))
        as (evs2 & Hl2 & _ & _ & _ & _ & Hsh).
      set (s3 := sleep_loop stop_after 7 (check_once p s1)) in *.
      assert (Hl3 : log (with_handled [] s3) =
                (log s ++ (Polled false :: ClockRead (format_key (now p))
                             :: evs1) ++ evs2)%list).
      { cbn [with_handled log]. rewrite Hl2, Hl1. unfold s1.
        cbn [emit log with_polls]. rewrite <- !app_assoc. reflexivity. }
      assert (Hpre : calm (Polled false :: ClockRead (format_key (now p))
                             :: evs1)).
      { intros [H|[H|H]]; try discriminate H. now apply Hc1. }
      destruct Hsh as [Hcalm|(evs' & -> & Hcalm & Hseen)].
      * destruct (IH (with_handled [] s3)) as (evs & Hl & Hsh).
        exists ((Polled false :: ClockRead (format_key (now p)) :: evs1)
                  ++ evs2 ++ evs)%list.
        split; [rewrite Hl, Hl3, <- !app_assoc; reflexivity|].
        destruct Hsh as [[Hc Hr]|(evs' & tail & -> & Hc & Htail & Hr)].
        -- left. split; [|exact Hr].
           apply calm_app; [exact Hpre|now apply calm_app].
        -- right.
           exists ((Polled false :: ClockRead (format_key (now p)) :: evs1)
                     ++ evs2 ++ evs')%list, tail.
           rewrite <- !app_assoc. repeat split; auto.
           apply calm_app; [exact Hpre|now apply calm_app].
      * rewrite (alarm_checker_seen stop_after rest (with_handled [] s3))
          by exact Hseen.
        cbn [fst snd emit log with_polls]. rewrite Hl3.
        exists ((Polled false :: ClockRead (format_key (now p)) :: evs1)
                  ++ (evs' ++ [Polled true]) ++ [Polled true])%list.
        split; [now rewrite <- !app_assoc|]. right.
        exists ((Polled false :: ClockRead (format_key (now p)) :: evs1)
                  ++ evs')%list, [Polled true].
        rewrite <- !app_assoc. repeat split; auto.
        apply calm_app; [exact Hpre|exact Hcalm].
Qed.

(* where the first [Polled true] of a text stands *)
Lemma first_set_poll (evs' tail before after : list event) :
  calm evs' ->
  (evs' ++ Polled true :: tail)%list = (before ++ Polled true :: after)%list ->
  exists mid, tail = (mid ++ after)%list /\
              (mid = [] \/ exists mid', mid = (mid' ++ [Polled true])%list).
Proof.
  revert before. induction evs' as [|e evs' IH]; intros before Hc E.
  - destruct before as [|b before].
    + cbn in E. injection E as ->. exists []. split; [reflexivity|now left].
    + cbn in E. injection E as <- ->.
      exists (before ++ [Polled true])%list.
      rewrite <- app_assoc. split; [reflexivity|]. right. now exists before.
  - destruct before as [|b before].
    + cbn in E. injection E as -> _. exfalso. apply Hc. now left.
    + cbn in E. injection E as <- E. apply (IH before); [|exact E].
      intros H. apply Hc. now right.
Qed.

(** C9. Once the thread has seen the stop event set, it writes nothing more
    to the store and raises no further alarm: after the first poll that
    answers "set", the log holds at most one more poll, and the thread has
    left its loop, so that a join on it returns. The creator asks for the
    stop by setting the event ([stop_after]), which is never cleared. *)
Theorem no_write_after_stop_seen (stop_after : option nat)
    (passes : list pass) (rows : list Row) (before after : list event) :
  log (snd (alarm_checker stop_after passes (start rows)))
  = (before ++ Polled true :: after)%list ->
  fst (alarm_checker stop_after passes (start rows)) = Exited /\
  inserted after = [] /\ alarms after = [] /\
  (after = [] \/ after = [Polled true]).
Proof.
  intros E.
  destruct (alarm_checker_trace stop_after passes (start rows))
    as (evs & Hl & Hsh).
  cbn [start log app] in Hl. rewrite Hl in E. subst evs.
  destruct Hsh as [[Hc _]|(evs' & tail & E' & Hc & Htail & Hr)].
  - exfalso. apply Hc. apply in_or_app. right. now left.
  - destruct (first_set_poll evs' tail before after Hc (eq_sym E'))
      as (mid & Hmid & Hm).
    assert (Hafter : after = [] \/ after = [Polled true]).
    { destruct Htail as [->| ->].
      - left. symmetry in Hmid. apply app_eq_nil in Hmid. tauto.
      - destruct Hm as [->|(mid' & ->)].
        + right. now rewrite Hmid.
        + left. rewrite <- app_assoc in Hmid. cbn [app] in Hmid.
          destruct mid' as [|x [|y mid']]; cbn in Hmid.
          * now injection Hmid.
          * discriminate Hmid.
          * discriminate Hmid. }
    split; [exact Hr|].
    destruct Hafter as [-> | ->]; repeat split; auto.
Qed.

Lemma no_write_after_stop_seen_witness :
  fst (alarm_checker (Some 3%nat) [Scenario.jan1 9 0; Scenario.jan1 9 1]
         (start [Scenario.math_hw])) = Exited /\
  inserted [Polled true] = [].
Proof.
  destruct (no_write_after_stop_seen (Some 3%nat)
              [Scenario.jan1 9 0; Scenario.jan1 9 1] [Scenario.math_hw]
              [Polled false; ClockRead "2024-01-01 09:00";
               Alarm 1 "Math HW" (Some "chapter 3") true;
               Inserted Scenario.math_hw_next;
               Polled false; Slept; Polled false; Slept]
              [Polled true] eq_refl) as (Hx & Hi & _).
  split; [exact Hx|exact Hi].
Defined.

(** ** Passes that fail *)

Lemma clock_reads_app (a b : list event) :
  clock_reads (a ++ b) = (clock_reads a ++ clock_reads b)%list.
Proof. apply flat_map_app. Qed.

Lemma clock_reads_polled (b : bool) (evs : list event) :
  clock_reads (Polled b :: evs) = clock_reads evs.
Proof. reflexivity. Qed.

Lemma clock_reads_clock (k : string) (evs : list event) :
  clock_reads (ClockRead k :: evs) = k :: clock_reads evs.
Proof. reflexivity. Qed.

Lemma log_with_handled (h : list (Z * string)) (s : state) :
  log (with_handled h s) = log s.
Proof. reflexivity. Qed.

Lemma log_with_polls (n : nat) (s : state) : log (with_polls n s) = log s.
Proof. reflexivity. Qed.

Lemma log_emit (e : event) (s : state) : log (emit e s) = (log s ++ [e])%list.
Proof. reflexivity. Qed.

Lemma alarm_checker_nil (stop_after : option nat) (s : state) :
  alarm_checker stop_after [] s =
    (if fst (is_set stop_after s) then Exited else Running,
     snd (is_set stop_after s)).
Proof.
  cbn [alarm_checker]. destruct (is_set stop_after s) as [[|] s1]; reflexivity.
Qed.

Lemma alarm_checker_cons (stop_after : option nat) (p : pass)
    (rest : list pass) (s : state) :
  alarm_checker stop_after (p :: rest) s =
    if fst (is_set stop_after s) then (Exited, snd (is_set stop_after s))
    else alarm_checker stop_after rest
           (with_handled []
              (sleep_loop stop_after 7
                 (check_once p (snd (is_set stop_after s))))).
Proof.
  cbn [alarm_checker]. destruct (is_set stop_after s) as [[|] s1]; reflexivity.
Qed.

Lemma is_set_never (s : state) :
  is_set None s = (false, emit (Polled false) (with_polls (S (polls s)) s)).
Proof. reflexivity. Qed.

(** In the SQLite planner a failing store never stops the schedule: while the
    stop event is not set, every pass the clock allows for takes place,
    whatever failed in the passes before it, and a pass that was abandoned
    has printed its error as the last thing it did. *)
Lemma failed_pass_goes_on (passes : list pass) :
  forall s : state,
    fst (alarm_checker None passes s) = Running /\
    clock_reads (log (snd (alarm_checker None passes s))) =
      (clock_reads (log s) ++ map (fun p => format_key (now p)) passes)%list.
Proof.
  induction passes as [|p rest IH]; intros s.
  - rewrite alarm_checker_nil, is_set_never. cbn [fst snd].
    split; [reflexivity|].
    rewrite log_emit, log_with_polls, clock_reads_app. reflexivity.
  - rewrite alarm_checker_cons, is_set_never. cbn [fst snd].
    set (s1 := emit (Polled false) (with_polls (S (polls s)) s)).
    destruct (check_once_trace p s1) as (evs1 & Hl1 & _ & Hc1 & _).
    destruct (sleep_loop_trace None 7 (check_once p s1))
      as (evs2 & Hl2 & Hc2 & _).
    destruct (IH (with_handled [] (sleep_loop None 7 (check_once p s1))))
      as [Hr Hc].
    split; [exact Hr|].
    rewrite Hc, log_with_handled, Hl2, Hl1. unfold s1.
    rewrite log_emit, log_with_polls. cbn [map].
    rewrite !clock_reads_app.
    rewrite clock_reads_polled, clock_reads_clock, Hc1, Hc2.
    cbn [clock_reads flat_map]. rewrite !app_nil_r, <- app_assoc.
    reflexivity.
Qed.

Lemma abandoned_pass_printed (p : pass) (s : state) :
  abandoned p s = true ->
  exists evs e,
    log (check_once p s) =
      (log s ++ ClockRead (format_key (now p)) :: evs ++ [Printed e])%list.
Proof.
  intros H.
  destruct (check_once_trace p s) as (evs & Hl & _ & _ & _ & Hab).
  destruct (Hab H) as (evs' & e & ->). now exists evs', e.
Qed.

(* the older check has no handler: a failing query ends the chain of
   checks, whatever is due later *)
Lemma autumn_failure_ends_checks (t : datetime)
    (rest : list (datetime * bool)) (s : Autumn.state) :
  Autumn.run ((t, true) :: rest) s = Autumn.emit (Autumn.Traceback StoreError) s.
Proof. reflexivity. Qed.

(** C7 at the failing input of [autumn.py]'s [check_alarms]: the query of
    the 09:00 check raises; the check is not scheduled again, and the task
    due at 09:01 never raises its alarm, which it does when the 09:00 check
    goes through. *)
Lemma autumn_failed_check_not_rescheduled :
  Autumn.log
    (Autumn.run [(Scenario.jan1_at 9 0, true); (Scenario.jan1_at 9 1, false)]
       (Autumn.start [Scenario.note_0901]))
  = [Autumn.Traceback StoreError] /\
  Autumn.log
    (Autumn.run [(Scenario.jan1_at 9 0, false); (Scenario.jan1_at 9 1, false)]
       (Autumn.start [Scenario.note_0901]))
  = [Autumn.Rescheduled; Autumn.Alarm (Some "Bus"); Autumn.Rescheduled].
Proof. split; vm_compute; reflexivity. Qed.

(** ** Row ids stay distinct *)

Lemma fold_max_bounds (l : list Z) :
  forall a, a <= fold_left Z.max l a /\
            (forall x, In x l -> x <= fold_left Z.max l a).
Proof.
  induction l as [|y l IH]; intros a; cbn [fold_left].
  - split; [lia|intros x []].
  - destruct (IH (Z.max a y)) as [H1 H2]. split; [lia|].
    intros x [<-|Hx]; [lia|now apply H2].
Qed.

Lemma next_rowid_above (rows : list Row) (r : Row) :
  In r rows -> id r < next_rowid rows.
Proof.
  destruct rows as [|r0 rest]; [intros []|].
  intros H. cbn [next_rowid].
  destruct (fold_max_bounds (map id rest) (id r0)) as [H1 H2].
  destruct H as [<-|H]; [lia|].
  specialize (H2 (id r) (in_map id _ _ H)). lia.
Qed.

Lemma ids_with_successor (rows : list Row) (m : Row) (nd rc : string) :
  NoDup (map id rows) ->
  NoDup (map id (rows ++ [successor rows m nd rc])).
Proof.
  intros H. rewrite map_app. cbn [map successor id].
  apply NoDup_app; [exact H|repeat constructor; intros []|].
  intros a Ha [<-|[]]. apply in_map_iff in Ha.
  destruct Ha as (r & E & Hr). pose proof (next_rowid_above rows r Hr). lia.
Qed.

(* [advance] leaves the table alone or appends one successor *)
Lemma advance_table (m : Row) (s : state) :
  tasks (snd (advance m s)) = tasks s \/
  exists nd rc,
    tasks (snd (advance m s)) = (tasks s ++ [successor (tasks s) m nd rc])%list.
Proof.
  unfold advance.
  destruct (recurrence m) as [rc|]; [|now left].
  destruct (truthy rc && daily_or_weekly (lower rc)); [|now left].
  destruct (compute_next_date (date m) (lower rc)) as [[nd|]|e];
    [|now left|now left].
  destruct (truthy nd); [|now left].
  destruct (fuse s) as [[|n]|] eqn:Hf.
  - unfold_store. rewrite Hf. now left.
  - unfold_store. rewrite Hf. unfold_store. cbn [tasks with_fuse fuse].
    destruct (Z.of_nat _ =? 0); [|now left].
    destruct n; [now left|]. right. now exists nd, rc.
  - unfold_store. rewrite Hf. unfold_store.
    destruct (Z.of_nat _ =? 0); [|now left].
    rewrite Hf. right. now exists nd, rc.
Qed.

Lemma process_keeps_ids (key : string) (alive : bool) (m : Row) (s : state) :
  NoDup (map id (tasks s)) ->
  NoDup (map id (tasks (snd (process key alive m s)))).
Proof.
  intros H.
  destruct (existsb (pair_eqb (id m, key)) (handled s)) eqn:E.
  - now rewrite (process_seen _ _ _ _ E).
  - rewrite (process_fresh _ _ _ _ E).
    destruct (advance_table m (rung key alive m s)) as [->|(nd & rc & ->)];
      rewrite rung_tasks; [exact H|now apply ids_with_successor].
Qed.

Lemma for_each_keeps_ids (key : string) (alive : bool) (ms : list Row) :
  forall s : state,
    NoDup (map id (tasks s)) ->
    NoDup (map id (tasks (snd (for_each (process key alive) ms s)))).
Proof.
  induction ms as [|m ms IH]; intros s H; [exact H|].
  rewrite for_each_cons.
  pose proof (process_keeps_ids key alive m s H) as H1.
  destruct (process key alive m s) as [[[]|e] s1]; cbn [snd] in *;
    [now apply IH|exact H1].
Qed.

Lemma tasks_emit (e : event) (s : state) : tasks (emit e s) = tasks s.
Proof. reflexivity. Qed.

Lemma tasks_with_fuse (f : option nat) (s : state) :
  tasks (with_fuse f s) = tasks s.
Proof. reflexivity. Qed.

Lemma tasks_with_handled (h : list (Z * string)) (s : state) :
  tasks (with_handled h s) = tasks s.
Proof. reflexivity. Qed.

Lemma tasks_ready (p : pass) (s : state) : tasks (ready p s) = tasks s.
Proof. reflexivity. Qed.

(* the table after a pass: the table before it, then rows that are not due
   in this minute; the ids stay distinct *)
Lemma check_once_table (p : pass) (s : state) :
  exists new : list Row,
    tasks (check_once p s) = (tasks s ++ new)%list /\
    (forall x, In x new -> due_at (format_key (now p)) x = false) /\
    (NoDup (map id (tasks s)) -> NoDup (map id (tasks (check_once p s)))).
Proof.
  unfold check_once. cbv zeta. fold (ready p s).
  set (key := format_key (now p)).
  destruct (check_body_cases key (root_alive p) (ready p s)) as [->|[f ->]].
  - exists []. rewrite tasks_emit, tasks_ready, app_nil_r.
    repeat split; [intros x []|trivial].
  - rewrite tasks_ready.
    destruct (for_each_grows key (root_alive p)
                (filter (due_at key) (tasks s))
                (with_fuse f (ready p s)) (due_rows_due key _))
      as (new & evs & Ht & _ & _ & _ & _ & Hnd).
    cbv zeta in Ht. rewrite tasks_with_fuse, tasks_ready in Ht.
    pose proof (for_each_keeps_ids key (root_alive p)
                  (filter (due_at key) (tasks s))
                  (with_fuse f (ready p s))) as Hids.
    rewrite tasks_with_fuse, tasks_ready in Hids.
    destruct (for_each (process key (root_alive p))
                (filter (due_at key) (tasks s)) (with_fuse f (ready p s)))
      as [[[]|e] s1]; cbn [snd] in *.
    + exists new. repeat split; assumption.
    + exists new. rewrite tasks_emit. repeat split; assumption.
Qed.


(** ** Texts of fixed width *)

Lemma length_pad2 (n : Z) : String.length (pad2 n) = 2%nat.
Proof. reflexivity. Qed.

Lemma length_format_date (d : PyDate.date) :
  String.length (format_date d) = 10%nat.
Proof. reflexivity. Qed.

Lemma length_format_key (t : datetime) : String.length (format_key t) = 16%nat.
Proof. reflexivity. Qed.

Lemma is_space_digit_char (n : Z) : is_space (digit_char n) = false.
Proof.
  destruct n as [|q|q]; [reflexivity| |reflexivity].
  do 4 (try (destruct q as [q|q|]; try reflexivity)).
Qed.

Lemma spaces_blank_pad2 (n : Z) (r : string) :
  spaces (String " " (pad2 n ++ r)) = Some (pad2 n ++ r).
Proof.
  unfold pad2. cbn [append spaces].
  change (is_space " ") with true. cbn [lstrip].
  now rewrite is_space_digit_char.
Qed.

Lemma parse_hour_pad2 (h : Z) (r : string) :
  0 <= h <= 23 -> parse_hour (pad2 h ++ r) = Some (h, r).
Proof.
  intros H.
  assert (F : Forall (fun n => parse_hour (pad2 (Z.of_nat n) ++ r)
                               = Some (Z.of_nat n, r)) (seq 0 24))
    by (repeat constructor).
  rewrite Forall_forall in F. specialize (F (Z.to_nat h)).
  rewrite Z2Nat.id in F by lia. apply F, in_seq. lia.
Qed.

Lemma parse_minute_pad2 (m : Z) (r : string) :
  0 <= m <= 59 -> parse_minute (pad2 m ++ r) = Some (m, r).
Proof.
  intros H.
  assert (F : Forall (fun n => parse_minute (pad2 (Z.of_nat n) ++ r)
                               = Some (Z.of_nat n, r)) (seq 0 60))
    by (repeat constructor).
  rewrite Forall_forall in F. specialize (F (Z.to_nat m)).
  rewrite Z2Nat.id in F by lia. apply F, in_seq. lia.
Qed.

Lemma two_chars_more (tens : ascii) (lo hi : Z) (c1 c2 : ascii) (r x : string) :
  two_chars tens lo hi (String c1 (String c2 (r ++ x)))
  = more x (two_chars tens lo hi (String c1 (String c2 r))).
Proof.
  unfold two_chars, more.
  destruct (c1 =? tens)%char; [|reflexivity].
  destruct (digit_val c2), (digit_val c1); try reflexivity;
    destruct (in_range lo hi z); reflexivity.
Qed.

Lemma one_char_more (lo hi : Z) (c : ascii) (r x : string) :
  one_char lo hi (String c (r ++ x)) = more x (one_char lo hi (String c r)).
Proof.
  unfold one_char, more. destruct (digit_val c); [|reflexivity].
  destruct (in_range lo hi z); reflexivity.
Qed.

Lemma or_else_more (x : string) (a b : option (Z * string)) :
  or_else (more x a) (more x b) = more x (or_else a b).
Proof. destruct a as [[? ?]|]; reflexivity. Qed.

Lemma parse_month_more (c1 c2 : ascii) (r x : string) :
  parse_month (String c1 (String c2 (r ++ x)))
  = more x (parse_month (String c1 (String c2 r))).
Proof.
  unfold parse_month.
  rewrite !two_chars_more.
  change (String c2 (r ++ x)) with (String c2 r ++ x).
  rewrite one_char_more, !or_else_more. reflexivity.
Qed.

Lemma parse_day_more (c1 c2 : ascii) (r x : string) :
  parse_day (String c1 (String c2 (r ++ x)))
  = more x (parse_day (String c1 (String c2 r))).
Proof.
  unfold parse_day.
  rewrite !two_chars_more.
  change (String c2 (r ++ x)) with (String c2 r ++ x).
  rewrite one_char_more, !or_else_more. reflexivity.
Qed.

Lemma parse_day_end (s : string) (dd : Z) (x : string) :
  parse_day s = Some (dd, EmptyString) ->
  parse_day (s ++ String " " x) = Some (dd, String " " x).
Proof.
  destruct s as [|c1 [|c2 r]]; intros H.
  - discriminate H.
  - cbn [append]. unfold parse_day, two_chars in *.
    change (digit_val " ") with (@None Z).
    destruct (c1 =? "3")%char, (c1 =? "1")%char, (c1 =? "2")%char,
      (c1 =? "0")%char, (c1 =? " ")%char; cbn [or_else] in *;
      unfold one_char in *; destruct (digit_val c1);
      try discriminate H;
      destruct (in_range 1 9 z); try discriminate H;
      cbn [or_else] in *; congruence.
  - cbn [append]. rewrite parse_day_more, H. reflexivity.
Qed.

Lemma parse_year_more (s x : string) (y : Z) (r : string) :
  parse_year s = Some (y, r) -> parse_year (s ++ x) = Some (y, r ++ x).
Proof.
  destruct s as [|c1 [|c2 [|c3 [|c4 s]]]]; try discriminate.
  cbn [append]. unfold parse_year, opt_bind.
  destruct (digit_val c1), (digit_val c2), (digit_val c3), (digit_val c4);
    try discriminate.
  intros H. injection H as <- <-. reflexivity.
Qed.

Lemma expect_more (c : ascii) (s x r : string) :
  expect c s = Some r -> expect c (s ++ x) = Some (r ++ x).
Proof.
  destruct s as [|c' s]; [discriminate|]. cbn [append expect].
  destruct (c' =? c)%char; [|discriminate]. intros H. now injection H as <-.
Qed.

Lemma parse_month_before_dash (s x : string) (m : Z) (r r' : string) :
  parse_month s = Some (m, r) -> expect "-" r = Some r' ->
  parse_month (s ++ x) = Some (m, r ++ x).
Proof.
  destruct s as [|c1 [|c2 s]]; intros H He.
  - discriminate H.
  - exfalso. revert H He. unfold parse_month, two_chars, one_char.
    destruct (digit_val c1) as [v|]; [|discriminate].
    destruct (in_range 1 9 v); [|discriminate].
    cbn [or_else]. intros H. injection H as <- <-. discriminate.
  - cbn [append]. rewrite parse_month_more, H. reflexivity.
Qed.

(** A date text that [strptime] takes for a date, followed by a blank and by
    an hour and a minute on two digits each, is taken for that date at that
    time. *)
Lemma strptime_date_then_time (ds : string) (d : PyDate.date) (h mi : Z) :
  strptime_date ds = Some d -> 0 <= h <= 23 -> 0 <= mi <= 59 ->
  strptime_datetime (ds ++ " " ++ pad2 h ++ ":" ++ pad2 mi)
  = Some (mkdatetime d h mi 0).
Proof.
  intros H Hh Hm. revert H. unfold strptime_date, strptime_datetime.
  set (x := " " ++ pad2 h ++ ":" ++ pad2 mi).
  destruct (parse_year ds) as [[y r1]|] eqn:E1; [|discriminate].
  rewrite (parse_year_more ds x y r1 E1). cbn [opt_bind].
  destruct (expect "-" r1) as [r2|] eqn:E2; [|discriminate].
  rewrite (expect_more _ r1 x r2 E2). cbn [opt_bind].
  destruct (parse_month r2) as [[m r3]|] eqn:E3; [|discriminate].
  cbn [opt_bind].
  destruct (expect "-" r3) as [r4|] eqn:E4; [|discriminate].
  rewrite (parse_month_before_dash r2 x m r3 r4 E3 E4). cbn [opt_bind].
  rewrite (expect_more _ r3 x r4 E4). cbn [opt_bind].
  destruct (parse_day r4) as [[dd r5]|] eqn:E5; [|discriminate].
  cbn [opt_bind]. destruct r5; [|discriminate].
  unfold x at 1. cbn [append].
  rewrite (parse_day_end r4 dd _ E5). cbn [opt_bind].
  rewrite (spaces_blank_pad2 h). cbn [opt_bind].
  rewrite parse_hour_pad2 by lia. cbn [opt_bind append expect].
  rewrite Ascii.eqb_refl. cbn [opt_bind].
  replace (pad2 mi) with (pad2 mi ++ EmptyString) by reflexivity.
  rewrite parse_minute_pad2 by lia. cbn [opt_bind].
  destruct (valid_date (mkdate y m dd)); [|discriminate].
  intros H. now injection H as <-.
Qed.

Lemma strptime_datetime_format (d : PyDate.date) (h mi : Z) :
  valid_date d = true -> 0 <= h <= 23 -> 0 <= mi <= 59 ->
  strptime_datetime (format_date d ++ " " ++ pad2 h ++ ":" ++ pad2 mi)
  = Some (mkdatetime d h mi 0).
Proof.
  intros Hv Hh Hm.
  apply strptime_date_then_time; [now apply strptime_format_date|lia|lia].
Qed.

(** Two clock readings have the same minute key only if they are readings of
    the same minute of the same day. *)
Lemma format_key_inj (a b : datetime) :
  valid_datetime a = true -> valid_datetime b = true ->
  format_key a = format_key b ->
  dt_date a = dt_date b /\ hour a = hour b /\ minute a = minute b.
Proof.
  unfold valid_datetime. rewrite !andb_true_iff, !Z.leb_le.
  intros [[[[[[Va ?] ?] ?] ?] ?] ?] [[[[[[Vb ?] ?] ?] ?] ?] ?] E.
  pose proof (strptime_datetime_format (dt_date a) (hour a) (minute a) Va
                ltac:(lia) ltac:(lia)) as Pa.
  pose proof (strptime_datetime_format (dt_date b) (hour b) (minute b) Vb
                ltac:(lia) ltac:(lia)) as Pb.
  change (format_date (dt_date a) ++ " " ++ pad2 (hour a) ++ ":" ++
          pad2 (minute a)) with (format_key a) in Pa.
  change (format_date (dt_date b) ++ " " ++ pad2 (hour b) ++ ":" ++
          pad2 (minute b)) with (format_key b) in Pb.
  rewrite E, Pb in Pa. injection Pa as -> -> ->. auto.
Qed.

(** ** The window's methods *)

Ltac unfold_app :=
  cbv beta iota delta
    [bind ret raise gets modify App.store_call App.after App.insert_task].

(* what the panel shows for a table at a clock reading *)
Lemma refresh_working (order_by : list Row -> list Row) (now : datetime)
    (s : App.state) :
  App.fuse s = None ->
  App.refresh_upcoming_panel order_by now s =
    (Return tt,
     let rows := firstn 6 (order_by (filter (App.upcoming_at (format_key now))
                                       (App.tasks s))) in
     let s1 := App.with_panel
                 match rows with
                 | [] => [App.NoUpcoming]
                 | _ :: _ => map App.entry rows
                 end s in
     if App.stop_event s then s1
     else App.with_timers
            (App.timers s ++ [(60000, App.RefreshUpcomingPanel)])%list s1).
Proof.
  intros Hf. unfold App.refresh_upcoming_panel. unfold_app.
  cbn [App.fuse App.with_panel]. rewrite Hf.
  cbn [App.stop_event App.tasks App.with_panel].
  destruct (App.stop_event s); reflexivity.
Qed.

Lemma refresh_frame (order_by : list Row -> list Row) (now : datetime)
    (s : App.state) :
  let s' := snd (App.refresh_upcoming_panel order_by now s) in
  App.tasks s' = App.tasks s /\ App.log s' = App.log s /\
  App.title_entry s' = App.title_entry s /\
  App.desc_entry s' = App.desc_entry s /\
  App.stop_event s' = App.stop_event s.
Proof.
  unfold App.refresh_upcoming_panel. unfold_app.
  destruct s as [tk [[|n]|] te de da hv mv rv up tm [|] lg]; repeat split.
Qed.

(* the row that [add_task] stores for what the fields hold *)
Lemma add_task_accepted (order_by : list Row -> list Row) (now : datetime)
    (s : App.state) (t0 : datetime) :
  truthy (strip (App.title_entry s)) = true ->
  strptime_datetime
    (strip (App.date_entry s) ++ " " ++ App.hour_var s ++ ":" ++ App.min_var s)
  = Some t0 ->
  App.fuse s = None ->
  let r := mkRow (next_rowid (App.tasks s)) (strip (App.title_entry s))
             (strip (App.date_entry s)) (App.hour_var s ++ ":" ++ App.min_var s)
             (Some (strip (App.desc_entry s))) (Some 0)
             (Some (App.recur_var s)) in
  App.add_task order_by now s =
    App.refresh_upcoming_panel order_by now
      (App.clear_entries
         (App.emit (App.Added (title r) (date r) (time r))
            (App.with_tasks (App.tasks s ++ [r]) s))).
Proof.
  intros Ht Hp Hf r. unfold App.add_task. unfold_app.
  rewrite Ht, Hp. cbn [negb]. cbv beta. rewrite Hf. reflexivity.
Qed.

Lemma ids_with_new_row (rows : list Row) (r : Row) :
  id r = next_rowid rows ->
  NoDup (map id rows) -> NoDup (map id (rows ++ [r])).
Proof.
  intros E Hnd. rewrite map_app. cbn [map].
  apply NoDup_app; [exact Hnd|repeat constructor; intros []|].
  intros x Hx [<-|[]]. apply in_map_iff in Hx.
  destruct Hx as (r' & E' & Hr'). pose proof (next_rowid_above rows r' Hr').
  lia.
Qed.

Lemma alarms_of_pass (p : pass) (rows : list Row) :
  NoDup (map id rows) ->
  abandoned p (start rows) = false ->
  alarms (log (check_once p (start rows)))
  = map id (filter (due_at (format_key (now p))) rows).
Proof.
  intros Hnd Hab.
  destruct (pass_fires_due_rows p (start rows) eq_refl Hnd)
    as (evs & Hl & _ & _ & Ha).
  cbv zeta in Hl, Ha. rewrite Hl. cbn [start log app].
  change (alarms (ClockRead (format_key (now p)) :: evs)) with (alarms evs).
  apply Ha, Hab.
Qed.

(** X1. A task added through the window fires in its minute and in no other.
    With a title that is not blank, the date field holding the date of [t]
    as [YYYY-MM-DD], the two menus holding its hour and minute on two digits,
    and the store working: [add_task] appends one row, with a new id, the
    fields as entered and [completed = 0]; and a pass of the alarm thread
    over the new table that runs to its end raises the alarm of that row
    exactly when its clock reads the day, hour and minute of [t]. *)
Theorem added_task_fires_in_its_minute (order_by : list Row -> list Row)
    (clock : datetime) (s : App.state) (t : datetime) :
  truthy (strip (App.title_entry s)) = true ->
  strip (App.date_entry s) = format_date (dt_date t) ->
  App.hour_var s = pad2 (hour t) -> App.min_var s = pad2 (minute t) ->
  valid_datetime t = true ->
  App.fuse s = None ->
  NoDup (map id (App.tasks s)) ->
  let s' := snd (App.add_task order_by clock s) in
  let r := mkRow (next_rowid (App.tasks s)) (strip (App.title_entry s))
             (format_date (dt_date t)) (format_time t)
             (Some (strip (App.desc_entry s))) (Some 0)
             (Some (App.recur_var s)) in
  App.tasks s' = (App.tasks s ++ [r])%list /\
  forall p : pass,
    valid_datetime (now p) = true ->
    abandoned p (App.table s') = false ->
    (In (id r) (alarms (log (check_once p (App.table s')))) <->
     dt_date (now p) = dt_date t /\ hour (now p) = hour t /\
     minute (now p) = minute t).
Proof.
  intros Ht Hd Hh Hm Hv Hf Hnd s' r.
  assert (Hv' := Hv). unfold valid_datetime in Hv'.
  rewrite !andb_true_iff, !Z.leb_le in Hv'.
  destruct Hv' as [[[[[[Vd ?] ?] ?] ?] ?] ?].
  assert (Hp : strptime_datetime
                 (strip (App.date_entry s) ++ " " ++ App.hour_var s ++ ":" ++
                  App.min_var s)
               = Some (mkdatetime (dt_date t) (hour t) (minute t) 0)).
  { rewrite Hd, Hh, Hm. apply strptime_datetime_format; [exact Vd|lia|lia]. }
  assert (Htk : App.tasks s' = (App.tasks s ++ [r])%list).
  { unfold s'. rewrite (add_task_accepted order_by clock s _ Ht Hp Hf).
    destruct (refresh_frame order_by clock
                (App.clear_entries
                   (App.emit
                      (App.Added (strip (App.title_entry s))
                         (strip (App.date_entry s))
                         (App.hour_var s ++ ":" ++ App.min_var s))
                      (App.with_tasks
                         (App.tasks s ++
                          [mkRow (next_rowid (App.tasks s))
                             (strip (App.title_entry s))
                             (strip (App.date_entry s))
                             (App.hour_var s ++ ":" ++ App.min_var s)
                             (Some (strip (App.desc_entry s))) (Some 0)
                             (Some (App.recur_var s))]) s))))
      as (E & _).
    cbv zeta in E. cbn [title date time] in *. rewrite E.
    cbn [App.clear_entries App.emit App.with_tasks App.tasks].
    unfold r, format_time. now rewrite Hd, Hh, Hm. }
  split; [exact Htk|].
  intros p Hvp Hab. unfold App.table in *. rewrite Htk in *.
  assert (Hnd' : NoDup (map id (App.tasks s ++ [r])))
    by (apply ids_with_new_row; [reflexivity|exact Hnd]).
  rewrite (alarms_of_pass p _ Hnd' Hab).
  assert (Hdue : due_at (format_key (now p)) r = true <->
                 format_key (now p) = format_key t).
  { unfold due_at. rewrite String.eqb_eq. cbn [date time r].
    change (format_date (dt_date t) ++ " " ++ format_time t)
      with (format_key t). split; intros E; now rewrite E. }
  split.
  - intros Hin. apply in_map_iff in Hin. destruct Hin as (r' & E & Hr').
    apply filter_In in Hr'. destruct Hr' as [Hr' Hd'].
    assert (r' = r).
    { apply (same_id_same_row (App.tasks s ++ [r]) r' r Hnd' Hr');
        [apply in_or_app; right; now left|exact E]. }
    subst r'. apply Hdue in Hd'.
    now apply format_key_inj.
  - intros (E1 & E2 & E3). apply in_map, filter_In.
    split; [apply in_or_app; right; now left|].
    apply Hdue. unfold format_key, format_time. now rewrite E1, E2, E3.
Qed.

Lemma added_task_fires_in_its_minute_witness :
  let s := App.mkState [Scenario.math_hw] None " Essay " "draft" "2024-01-02"
             "09" "30" "none" [] [] false [] in
  let s' := snd (App.add_task App.sort_rows (Scenario.jan1_at 8 0) s) in
  App.tasks s' =
    [Scenario.math_hw;
     mkRow 2 "Essay" "2024-01-02" "09:30" (Some "draft") (Some 0)
       (Some "none")] /\
  (In 2 (alarms (log (check_once
                        (mkPass (mkdatetime (mkdate 2024 1 2) 9 30 41) true None)
                        (App.table s'))))
   <-> mkdate 2024 1 2 = mkdate 2024 1 2 /\ 9 = 9 /\ 30 = 30).
Proof.
  intros s s'.
  assert (Hnd : NoDup (map id (App.tasks s)))
    by (repeat constructor; intros []).
  destruct (added_task_fires_in_its_minute App.sort_rows
              (Scenario.jan1_at 8 0) s
              (mkdatetime (mkdate 2024 1 2) 9 30 0)
              eq_refl eq_refl eq_refl eq_refl eq_refl eq_refl Hnd)
    as [Htk Hp].
  split; [exact Htk|].
  exact (Hp (mkPass (mkdatetime (mkdate 2024 1 2) 9 30 41) true None)
           eq_refl eq_refl).
Defined.

(** X2. [add_task] keeps the date as it was typed, and [strptime] takes more
    than [YYYY-MM-DD]: a month or a day on one digit, or a day written with a
    blank. With such a text in the date field (it parses to a date and is
    not the printed form of that date), a title, the menus' hour and minute
    and a working store, the task is stored like any other; the row is due
    at no reading of the clock, and no pass of the alarm thread over the new
    table ever raises its alarm. *)
Theorem unpadded_date_stored_never_due (order_by : list Row -> list Row)
    (clock : datetime) (s : App.state) (d : PyDate.date) (h mi : Z) :
  truthy (strip (App.title_entry s)) = true ->
  strptime_date (strip (App.date_entry s)) = Some d ->
  strip (App.date_entry s) <> format_date d ->
  App.hour_var s = pad2 h -> App.min_var s = pad2 mi ->
  0 <= h <= 23 -> 0 <= mi <= 59 ->
  App.fuse s = None ->
  NoDup (map id (App.tasks s)) ->
  let s' := snd (App.add_task order_by clock s) in
  let r := mkRow (next_rowid (App.tasks s)) (strip (App.title_entry s))
             (strip (App.date_entry s)) (pad2 h ++ ":" ++ pad2 mi)
             (Some (strip (App.desc_entry s))) (Some 0)
             (Some (App.recur_var s)) in
  App.tasks s' = (App.tasks s ++ [r])%list /\
  forall p : pass,
    valid_datetime (now p) = true ->
    due_at (format_key (now p)) r = false /\
    ~ In (id r) (alarms (log (check_once p (App.table s')))).
Proof.
  intros Ht Hd Hne Hh Hm Hhr Hmr Hf Hnd s' r.
  assert (Hp : strptime_datetime
                 (strip (App.date_entry s) ++ " " ++ App.hour_var s ++ ":" ++
                  App.min_var s)
               = Some (mkdatetime d h mi 0)).
  { rewrite Hh, Hm. now apply strptime_date_then_time. }
  assert (Htk : App.tasks s' = (App.tasks s ++ [r])%list).
  { unfold s'. rewrite (add_task_accepted order_by clock s _ Ht Hp Hf).
    cbv zeta.
    match goal with |- App.tasks (snd (App.refresh_upcoming_panel _ _ ?s0)) = _ =>
      destruct (refresh_frame order_by clock s0) as (E & _) end.
    cbv zeta in E. rewrite E.
    cbn [App.clear_entries App.emit App.with_tasks App.tasks].
    unfold r. now rewrite Hh, Hm. }
  split; [exact Htk|].
  intros p Hvp.
  assert (Hdue : (date r ++ " " ++ time r)%string <> format_key (now p)).
  { intros E. cbn [date time r] in E.
    apply (split_at_blank _ _ (format_date (dt_date (now p)))
             (format_time (now p))) in E;
      [|apply no_blank_format_date|apply no_blank_format_time].
    destruct E as [E _].
    assert (Vd : valid_date (dt_date (now p)) = true).
    { unfold valid_datetime in Hvp. rewrite !andb_true_iff in Hvp. tauto. }
    rewrite E, (strptime_format_date _ Vd) in Hd. injection Hd as <-.
    contradiction. }
  split.
  - unfold due_at. apply String.eqb_neq. exact Hdue.
  - unfold App.table. rewrite Htk.
    assert (Hnd' : NoDup (map id (App.tasks s ++ [r])))
      by (apply ids_with_new_row; [reflexivity|exact Hnd]).
    destruct (pass_fires_due_rows p (start (App.tasks s ++ [r])) eq_refl Hnd')
      as (evs & Hl & _ & Hno & _).
    cbv zeta in Hl. rewrite Hl. cbn [start log app].
    change (alarms (ClockRead (format_key (now p)) :: evs)) with (alarms evs).
    apply (Hno r); [apply in_or_app; right; now left|exact Hdue].
Qed.

Lemma unpadded_date_stored_never_due_witness :
  let s := App.mkState [] None "Essay" "draft" "2024-1-5"
             "09" "30" "daily" [] [] false [] in
  let s' := snd (App.add_task App.sort_rows (Scenario.jan1_at 8 0) s) in
  App.tasks s' =
    [mkRow 1 "Essay" "2024-1-5" "09:30" (Some "draft") (Some 0)
       (Some "daily")] /\
  ~ In 1 (alarms (log (check_once
                         (mkPass (mkdatetime (mkdate 2024 1 5) 9 30 0) true None)
                         (App.table s')))).
Proof.
  intros s s'.
  destruct (unpadded_date_stored_never_due App.sort_rows
              (Scenario.jan1_at 8 0) s (mkdate 2024 1 5) 9 30
              eq_refl eq_refl ltac:(discriminate) eq_refl eq_refl
              ltac:(lia) ltac:(lia) eq_refl (NoDup_nil _))
    as [Htk Hp].
  split; [exact Htk|].
  exact (proj2 (Hp (mkPass (mkdatetime (mkdate 2024 1 5) 9 30 0) true None)
                  eq_refl)).
Defined.

Lemma add_task_blank_title (order_by : list Row -> list Row) (clock : datetime)
    (s : App.state) :
  truthy (strip (App.title_entry s)) = false ->
  App.add_task order_by clock s = (Return tt, App.emit (App.Warned "Missing") s).
Proof.
  intros Ht. unfold App.add_task. unfold_app. now rewrite Ht.
Qed.

Lemma add_task_invalid (order_by : list Row -> list Row) (clock : datetime)
    (s : App.state) :
  strptime_datetime
    (strip (App.date_entry s) ++ " " ++ App.hour_var s ++ ":" ++ App.min_var s)
  = None ->
  truthy (strip (App.title_entry s)) = true ->
  App.add_task order_by clock s = (Return tt, App.emit (App.Warned "Invalid") s).
Proof.
  intros Hp Ht. unfold App.add_task. unfold_app. now rewrite Ht, Hp.
Qed.

(* a store call that fails leaves the table as it was *)
Lemma add_task_table (order_by : list Row -> list Row) (clock : datetime)
    (s : App.state) :
  App.tasks (snd (App.add_task order_by clock s)) = App.tasks s \/
  (App.title_entry (snd (App.add_task order_by clock s)) = EmptyString /\
   truthy (strip (App.title_entry s)) = true /\
   (exists t0, strptime_datetime
                 (strip (App.date_entry s) ++ " " ++ App.hour_var s ++ ":" ++
                  App.min_var s) = Some t0) /\
   App.tasks (snd (App.add_task order_by clock s)) =
     (App.tasks s ++
      [mkRow (next_rowid (App.tasks s)) (strip (App.title_entry s))
         (strip (App.date_entry s)) (App.hour_var s ++ ":" ++ App.min_var s)
         (Some (strip (App.desc_entry s))) (Some 0)
         (Some (App.recur_var s))])%list).
Proof.
  destruct (truthy (strip (App.title_entry s))) eqn:Ht;
    [|left; now rewrite add_task_blank_title].
  destruct (strptime_datetime
              (strip (App.date_entry s) ++ " " ++ App.hour_var s ++ ":" ++
               App.min_var s)) as [t0|] eqn:Hp;
    [|left; now rewrite add_task_invalid].
  destruct (App.fuse s) as [[|n]|] eqn:Hf.
  - left. unfold App.add_task. unfold_app. rewrite Ht, Hp. cbn [negb].
    cbv beta. now rewrite Hf.
  - right. unfold App.add_task. unfold_app. rewrite Ht, Hp. cbn [negb].
    cbv beta. rewrite Hf.
    match goal with |- context [App.refresh_upcoming_panel _ _ ?s0] =>
      destruct (refresh_frame order_by clock s0) as (E1 & _ & E2 & _) end.
    cbv zeta in E1, E2. rewrite E1, E2.
    repeat split. now exists t0.
  - right. rewrite (add_task_accepted order_by clock s t0 Ht Hp Hf). cbv zeta.
    match goal with |- context [App.refresh_upcoming_panel _ _ ?s0] =>
      destruct (refresh_frame order_by clock s0) as (E1 & _ & E2 & _) end.
    cbv zeta in E1, E2. rewrite E1, E2.
    repeat split. now exists t0.
Qed.

(** X3. Pressing [Add Task] twice stores the task once. After an [add_task]
    that stored a row the title field is empty, so the next [add_task] (at
    any later reading of the clock, whatever the store does then) ends at the
    warning for a missing title and leaves the table as it is. *)
Theorem add_task_again_adds_nothing (order_by : list Row -> list Row)
    (c1 c2 : datetime) (s : App.state) (f : option nat) :
  App.tasks (snd (App.add_task order_by c1 s)) <> App.tasks s ->
  let s1 := App.with_fuse f (snd (App.add_task order_by c1 s)) in
  App.add_task order_by c2 s1 = (Return tt, App.emit (App.Warned "Missing") s1).
Proof.
  intros Hch s1.
  destruct (add_task_table order_by c1 s) as [E|(E & _)]; [contradiction|].
  apply add_task_blank_title. unfold s1. cbn [App.with_fuse App.title_entry].
  now rewrite E.
Qed.

Lemma add_task_again_adds_nothing_witness :
  let s := App.mkState [] None "Essay" "draft" "2024-01-05"
             "09" "30" "daily" [] [] false [] in
  let s1 := App.with_fuse None
              (snd (App.add_task App.sort_rows (Scenario.jan1_at 8 0) s)) in
  App.tasks (snd (App.add_task App.sort_rows (Scenario.jan1_at 8 1) s1))
  = [mkRow 1 "Essay" "2024-01-05" "09:30" (Some "draft") (Some 0)
       (Some "daily")].
Proof.
  intros s s1.
  pose proof (add_task_again_adds_nothing App.sort_rows (Scenario.jan1_at 8 0)
                (Scenario.jan1_at 8 1) s None ltac:(discriminate)) as H.
  cbv zeta in H. unfold s1. rewrite H. reflexivity.
Defined.

Lemma filter_other_ids (rows : list Row) (tid : Z) :
  (forall r, In r rows -> id r <> tid) ->
  filter (fun r => negb (id r =? tid)) rows = rows.
Proof.
  induction rows as [|x rows IH]; intros H; [reflexivity|].
  cbn [filter]. destruct (Z.eqb_spec (id x) tid) as [E|_].
  - exfalso. apply (H x); [now left|exact E].
  - cbn [negb]. f_equal. apply IH. intros r Hr. apply H. now right.
Qed.

Lemma delete_task_working (order_by : list Row -> list Row) (clock : datetime)
    (tid : Z) (s : App.state) :
  App.fuse s = None ->
  App.tasks (snd (App.delete_task order_by clock true tid s))
  = filter (fun r => negb (id r =? tid)) (App.tasks s).
Proof.
  intros Hf. unfold App.delete_task. unfold_app. rewrite Hf.
  match goal with |- context [App.refresh_upcoming_panel _ _ ?s0] =>
    destruct (refresh_frame order_by clock s0) as (E & _) end.
  cbv zeta in E. rewrite E. reflexivity.
Qed.

(** X4. [delete_task] removes the task and nothing else. In a table whose
    ids are distinct, with the store working and the question answered yes,
    the row with the given id is taken out and the rows before and after it
    stay as they are, in their order; an id that no row has removes nothing;
    and when the question is answered no, nothing at all changes. *)
Theorem delete_task_removes_the_row (order_by : list Row -> list Row)
    (clock : datetime) (s : App.state) (before after : list Row) (r : Row) :
  App.fuse s = None ->
  NoDup (map id (App.tasks s)) ->
  App.tasks s = (before ++ r :: after)%list ->
  App.tasks (snd (App.delete_task order_by clock true (id r) s))
  = (before ++ after)%list /\
  (forall tid, ~ In tid (map id (App.tasks s)) ->
     App.tasks (snd (App.delete_task order_by clock true tid s))
     = App.tasks s) /\
  (forall tid, App.delete_task order_by clock false tid s = (Return tt, s)).
Proof.
  intros Hf Hnd Ht. split; [|split].
  - rewrite delete_task_working by exact Hf. rewrite Ht in *.
    rewrite map_app in Hnd. cbn [map] in Hnd.
    apply NoDup_remove in Hnd. destruct Hnd as [_ Hr].
    rewrite filter_app. cbn [filter]. rewrite Z.eqb_refl. cbn [negb].
    rewrite !filter_other_ids; [reflexivity| |].
    + intros x Hx E. apply Hr, in_or_app. right. rewrite <- E.
      now apply in_map.
    + intros x Hx E. apply Hr, in_or_app. left. rewrite <- E.
      now apply in_map.
  - intros tid Hno. rewrite delete_task_working by exact Hf.
    apply filter_other_ids. intros x Hx E. apply Hno. rewrite <- E.
    now apply in_map.
  - reflexivity.
Qed.

Lemma delete_task_removes_the_row_witness :
  let s := App.mkState [Scenario.math_hw; Scenario.one_off] None
             EmptyString EmptyString "2024-01-05" "09" "30" "none" [] []
             false [] in
  App.tasks (snd (App.delete_task App.sort_rows (Scenario.jan1_at 8 0) true 1 s))
  = [Scenario.one_off].
Proof.
  intros s.
  assert (Hnd : NoDup (map id (App.tasks s))).
  { repeat constructor; cbn; intuition discriminate. }
  exact (proj1 (delete_task_removes_the_row App.sort_rows
                  (Scenario.jan1_at 8 0) s [] [Scenario.one_off]
                  Scenario.math_hw eq_refl Hnd eq_refl)).
Defined.

(** X5. Deleting the task that was just added gives back the table as it
    was. With the store working, [add_task] followed by a confirmed
    [delete_task] of the row id that a new row gets leaves the table as it
    was before the two, whether [add_task] stored a row or turned the input
    down: ids in use are never the id of a new row. *)
Theorem delete_undoes_add (order_by : list Row -> list Row)
    (c1 c2 : datetime) (s : App.state) :
  App.fuse s = None ->
  let s1 := snd (App.add_task order_by c1 s) in
  App.tasks (snd (App.delete_task order_by c2 true (next_rowid (App.tasks s))
                    (App.with_fuse None s1)))
  = App.tasks s.
Proof.
  intros Hf s1. rewrite delete_task_working by reflexivity.
  cbn [App.with_fuse App.tasks].
  assert (Hold : filter (fun r => negb (id r =? next_rowid (App.tasks s)))
                   (App.tasks s) = App.tasks s).
  { apply filter_other_ids. intros r Hr.
    pose proof (next_rowid_above _ _ Hr). lia. }
  destruct (add_task_table order_by c1 s) as [E|(_ & _ & _ & E)];
    unfold s1; rewrite E; [exact Hold|].
  rewrite filter_app, Hold. cbn [filter id]. rewrite Z.eqb_refl.
  cbn [negb]. apply app_nil_r.
Qed.

Lemma delete_undoes_add_witness :
  let s := App.mkState [Scenario.math_hw] None "Essay" "draft" "2024-01-05"
             "09" "30" "daily" [] [] false [] in
  let s1 := snd (App.add_task App.sort_rows (Scenario.jan1_at 8 0) s) in
  List.length (App.tasks s1) = 2%nat /\
  App.tasks (snd (App.delete_task App.sort_rows (Scenario.jan1_at 8 1) true 2
                    (App.with_fuse None s1)))
  = [Scenario.math_hw].
Proof.
  intros s s1. split; [reflexivity|].
  exact (delete_undoes_add App.sort_rows (Scenario.jan1_at 8 0)
           (Scenario.jan1_at 8 1) s eq_refl).
Defined.

Lemma map_other_ids (rows : list Row) (tid : Z) (f : Row -> Row) :
  (forall r, In r rows -> id r <> tid) ->
  map (fun r => if id r =? tid then f r else r) rows = rows.
Proof.
  induction rows as [|x rows IH]; intros H; [reflexivity|].
  cbn [map]. destruct (Z.eqb_spec (id x) tid) as [E|_].
  - exfalso. apply (H x); [now left|exact E].
  - f_equal. apply IH. intros r Hr. apply H. now right.
Qed.

Lemma update_task_working (order_by : list Row -> list Row) (clock : datetime)
    (tid : Z) (nt nd ntm ndesc nrc : string) (t0 : datetime) (s : App.state) :
  strptime_datetime (nd ++ " " ++ ntm) = Some t0 ->
  App.fuse s = None ->
  App.tasks (snd (App.update_task order_by clock tid nt nd ntm ndesc nrc s))
  = map (App.update_row tid nt nd ntm ndesc nrc) (App.tasks s).
Proof.
  intros Hp Hf. unfold App.update_task. rewrite Hp. unfold_app. rewrite Hf.
  match goal with |- context [App.refresh_upcoming_panel _ _ ?s0] =>
    destruct (refresh_frame order_by clock s0) as (E & _) end.
  cbv zeta in E. rewrite E. reflexivity.
Qed.

Lemma update_row_ids (tid : Z) (nt nd ntm ndesc nrc : string) (rows : list Row) :
  map id (map (App.update_row tid nt nd ntm ndesc nrc) rows) = map id rows.
Proof.
  rewrite map_map. apply map_ext. intros r. unfold App.update_row.
  now destruct (id r =? tid).
Qed.

(** X6. An edited task fires at its new time. In a table whose ids are
    distinct, with the store working, [update_task] with a date printed as
    [YYYY-MM-DD] and a time as [HH:MM] replaces title, date, time,
    description and recurrence of the row with the given id, keeps its id
    and its [completed] value, and leaves every other row in its place; a
    pass of the alarm thread over the new table that runs to its end then
    raises the alarm of that row exactly when its clock reads the new day,
    hour and minute. *)
Theorem updated_task_fires_at_new_time (order_by : list Row -> list Row)
    (clock : datetime) (s : App.state) (before after : list Row) (r0 : Row)
    (t : datetime) (nt ndesc nrc : string) :
  App.fuse s = None ->
  NoDup (map id (App.tasks s)) ->
  App.tasks s = (before ++ r0 :: after)%list ->
  valid_datetime t = true ->
  let s' := snd (App.update_task order_by clock (id r0) nt
                   (format_date (dt_date t)) (format_time t) ndesc nrc s) in
  let r := mkRow (id r0) nt (format_date (dt_date t)) (format_time t)
             (Some ndesc) (completed r0) (Some nrc) in
  App.tasks s' = (before ++ r :: after)%list /\
  forall p : pass,
    valid_datetime (now p) = true ->
    abandoned p (App.table s') = false ->
    (In (id r0) (alarms (log (check_once p (App.table s')))) <->
     dt_date (now p) = dt_date t /\ hour (now p) = hour t /\
     minute (now p) = minute t).
Proof.
  intros Hf Hnd Ht Hv s' r.
  assert (Hv' := Hv). unfold valid_datetime in Hv'.
  rewrite !andb_true_iff, !Z.leb_le in Hv'.
  destruct Hv' as [[[[[[Vd ?] ?] ?] ?] ?] ?].
  assert (Hp : strptime_datetime
                 (format_date (dt_date t) ++ " " ++ format_time t)
               = Some (mkdatetime (dt_date t) (hour t) (minute t) 0)).
  { apply strptime_datetime_format; [exact Vd|lia|lia]. }
  assert (Htk : App.tasks s' = (before ++ r :: after)%list).
  { unfold s'. rewrite (update_task_working _ _ _ _ _ _ _ _ _ _ Hp Hf).
    rewrite Ht in *. rewrite map_app in Hnd. cbn [map] in Hnd.
    apply NoDup_remove in Hnd. destruct Hnd as [_ Hr].
    rewrite map_app. cbn [map]. unfold App.update_row at 2.
    rewrite Z.eqb_refl. fold r. unfold App.update_row.
    rewrite !map_other_ids; [reflexivity| |].
    - intros x Hx E. apply Hr, in_or_app. right. rewrite <- E.
      now apply in_map.
    - intros x Hx E. apply Hr, in_or_app. left. rewrite <- E.
      now apply in_map. }
  split; [exact Htk|].
  intros p Hvp Hab. unfold App.table in *.
  assert (Hnd' : NoDup (map id (App.tasks s'))).
  { unfold s'. rewrite (update_task_working _ _ _ _ _ _ _ _ _ _ Hp Hf).
    now rewrite update_row_ids. }
  rewrite (alarms_of_pass p _ Hnd' Hab).
  assert (Hin : In r (App.tasks s'))
    by (rewrite Htk; apply in_or_app; right; now left).
  assert (Hdue : due_at (format_key (now p)) r = true <->
                 format_key (now p) = format_key t).
  { unfold due_at. rewrite String.eqb_eq. cbn [date time r].
    change (format_date (dt_date t) ++ " " ++ format_time t)
      with (format_key t). split; intros E; now rewrite E. }
  change (id r0) with (id r).
  split.
  - intros Hi. apply in_map_iff in Hi. destruct Hi as (r' & E & Hr').
    apply filter_In in Hr'. destruct Hr' as [Hr' Hd'].
    assert (r' = r)
      by (apply (same_id_same_row (App.tasks s') r' r Hnd' Hr' Hin); exact E).
    subst r'. apply Hdue in Hd'. now apply format_key_inj.
  - intros (E1 & E2 & E3). apply in_map, filter_In.
    split; [exact Hin|].
    apply Hdue. unfold format_key, format_time. now rewrite E1, E2, E3.
Qed.

Lemma updated_task_fires_at_new_time_witness :
  let s := App.mkState [Scenario.math_hw; Scenario.one_off] None
             EmptyString EmptyString "2024-01-05" "09" "30" "none" [] []
             false [] in
  let s' := snd (App.update_task App.sort_rows (Scenario.jan1_at 8 0) 2
                   "One-off" "2024-01-03" "10:15" "moved" "none" s) in
  App.tasks s' =
    [Scenario.math_hw;
     mkRow 2 "One-off" "2024-01-03" "10:15" (Some "moved") (Some 0)
       (Some "none")] /\
  (In 2 (alarms (log (check_once (Scenario.jan1 9 0) (App.table s'))))
   <-> mkdate 2024 1 1 = mkdate 2024 1 3 /\ 9 = 10 /\ 0 = 15).
Proof.
  intros s s'.
  assert (Hnd : NoDup (map id (App.tasks s))).
  { repeat constructor; cbn; intuition discriminate. }
  destruct (updated_task_fires_at_new_time App.sort_rows
              (Scenario.jan1_at 8 0) s [Scenario.math_hw] [] Scenario.one_off
              (mkdatetime (mkdate 2024 1 3) 10 15 0) "One-off" "moved" "none"
              eq_refl Hnd eq_refl eq_refl)
    as [Htk Hp].
  split; [exact Htk|].
  exact (Hp (Scenario.jan1 9 0) eq_refl eq_refl).
Defined.

(** X7. The edit window says "Saved" and closes even when nothing was saved.
    [update_task] answers a date and time that [strptime] refuses with a
    warning and returns; [save_and_close] does not learn of it: it goes on
    to the refresh callback (here any callback that returns and leaves table
    and messages alone, as the two of the program do with a working store),
    shows "Task updated." and closes the window. The table is as before.
    Only a blank title keeps the window open. *)
Theorem save_and_close_reports_refused_date (order_by : list Row -> list Row)
    (clock : datetime) (tid : Z) (title_e desc_e date_e hvar mvar rvar : string)
    (refresh_cb : option (M App.state unit)) (s : App.state) :
  strptime_datetime (strip date_e ++ " " ++ hvar ++ ":" ++ mvar) = None ->
  match refresh_cb with
  | Some cb =>
      let s1 := App.emit (App.Warned "Invalid") s in
      fst (cb s1) = Return tt /\ App.tasks (snd (cb s1)) = App.tasks s1 /\
      App.log (snd (cb s1)) = App.log s1
  | None => True
  end ->
  let r := App.save_and_close order_by clock tid title_e desc_e date_e hvar
             mvar rvar refresh_cb s in
  (truthy (strip title_e) = true ->
     fst r = Return tt /\ App.tasks (snd r) = App.tasks s /\
     App.log (snd r) =
       (App.log s ++ [App.Warned "Invalid"; App.Saved; App.Closed])%list) /\
  (truthy (strip title_e) = false ->
     r = (Return tt, App.emit (App.Warned "Missing") s)).
Proof.
  intros Hp Hcb r. unfold r, App.save_and_close. cbv zeta. split; intros Ht.
  - rewrite Ht. cbn [negb]. unfold App.update_task. rewrite Hp.
    unfold_app.
    destruct refresh_cb as [cb|].
    + cbv zeta in Hcb. destruct Hcb as (H1 & H2 & H3).
      destruct (cb (App.emit (App.Warned "Invalid") s)) as [[[]|e] s2];
        cbn [fst snd] in *; [|discriminate H1].
      cbn [App.emit App.tasks App.log]. rewrite H2, H3.
      cbn [App.emit App.tasks App.log]. rewrite <- !app_assoc.
      repeat split.
    + cbn [fst snd App.emit App.tasks App.log]. rewrite <- !app_assoc.
      repeat split.
  - now rewrite Ht.
Qed.

Lemma save_and_close_reports_refused_date_witness :
  let s := App.mkState [Scenario.math_hw] None EmptyString EmptyString
             "2024-01-05" "09" "30" "none" [] [] false [] in
  let r := App.save_and_close App.sort_rows (Scenario.jan1_at 8 0) 1
             "Math HW" "chapter 4" "2024-02-30" "09" "00" "daily"
             (Some (App.refresh_upcoming_panel App.sort_rows
                      (Scenario.jan1_at 8 0))) s in
  App.tasks (snd r) = [Scenario.math_hw] /\
  App.log (snd r) = [App.Warned "Invalid"; App.Saved; App.Closed].
Proof.
  intros s r.
  destruct (save_and_close_reports_refused_date App.sort_rows
              (Scenario.jan1_at 8 0) 1 "Math HW" "chapter 4" "2024-02-30"
              "09" "00" "daily"
              (Some (App.refresh_upcoming_panel App.sort_rows
                       (Scenario.jan1_at 8 0))) s eq_refl
              (conj eq_refl (conj eq_refl eq_refl)))
    as [H _].
  destruct (H eq_refl) as (_ & H2 & H3). split; [exact H2|exact H3].
Defined.


(** ** The order of dates and the order of their texts *)

(** Every ordinal of the calendar is the ordinal of a date of the type. *)
Lemma toordinal_ord2ymd (n : Z) :
  1 <= n <= MAXORDINAL ->
  valid_date (ord2ymd n) = true /\ toordinal (ord2ymd n) = n.
Proof.
  intros Hn.
  destruct (days_later_ok (Z.to_nat (n - 1)) (mkdate 1 1 1) eq_refl)
    as [Hv Ho].
  { change (toordinal (mkdate 1 1 1)) with 1. rewrite Z2Nat.id; lia. }
  change (toordinal (mkdate 1 1 1)) with 1 in Ho.
  rewrite Z2Nat.id in Ho by lia.
  replace n with (toordinal (days_later (Z.to_nat (n - 1)) (mkdate 1 1 1)))
    at 1 2 by lia.
  rewrite (ord2ymd_toordinal _ Hv). split; [exact Hv|lia].
Qed.

Lemma days_before_year_mono (y y' : Z) :
  y <= y' -> days_before_year y <= days_before_year y'.
Proof.
  intros H. unfold days_before_year. cbv zeta.
  Z.div_mod_to_equations. lia.
Qed.

Lemma year_span (d : PyDate.date) :
  valid_date d = true ->
  days_before_year (year d) < toordinal d <= days_before_year (year d + 1).
Proof.
  intros Hv. destruct (valid_date_bounds d Hv) as (Hy & Hm & Hd).
  rewrite days_before_year_succ. clear Hv.
  destruct d as [y m dd]. cbn [year month day] in *.
  unfold toordinal, ymd2ord, days_before_month, days_in_month in *.
  cbn [year month day].
  destruct (is_leap y); each_month Hm; simpl in *; lia.
Qed.

Lemma month_span (y m m' d : Z) :
  1 <= m -> m < m' -> m' <= 12 -> d <= days_in_month y m ->
  days_before_month y m + d <= days_before_month y m'.
Proof.
  intros H1 H2 H3 Hd.
  assert (Hm : 1 <= m <= 12) by lia. assert (Hm' : 1 <= m' <= 12) by lia.
  unfold days_before_month, days_in_month in *.
  destruct (is_leap y); each_month Hm; each_month Hm'; try lia;
    cbn [DAYS_BEFORE_MONTH DAYS_IN_MONTH b2z Z.ltb Z.eqb Z.compare Pos.compare
         Pos.compare_cont Pos.eqb andb] in *; lia.
Qed.

(** The ordinals of two dates compare as year, month and day do. *)
Lemma toordinal_compare (a b : PyDate.date) :
  valid_date a = true -> valid_date b = true ->
  (toordinal a ?= toordinal b) =
    match year a ?= year b with
    | Eq => match month a ?= month b with
            | Eq => day a ?= day b
            | c => c
            end
    | c => c
    end.
Proof.
  intros Va Vb.
  pose proof (year_span a Va) as Sa. pose proof (year_span b Vb) as Sb.
  destruct (valid_date_bounds a Va) as (Hya & Hma & Hda).
  destruct (valid_date_bounds b Vb) as (Hyb & Hmb & Hdb).
  destruct (Z.compare_spec (year a) (year b)) as [Ey|Ly|Ly].
  - unfold toordinal, ymd2ord. rewrite <- Ey in *.
    destruct (Z.compare_spec (month a) (month b)) as [Em|Lm|Lm].
    + rewrite <- Em. 
      destruct (Z.compare_spec (day a) (day b));
        [apply Z.compare_eq_iff|apply Z.compare_lt_iff|apply Z.compare_gt_iff];
        lia.
    + apply Z.compare_lt_iff.
      pose proof (month_span (year a) (month a) (month b) (day a)). lia.
    + apply Z.compare_gt_iff.
      pose proof (month_span (year a) (month b) (month a) (day b)). lia.
  - apply Z.compare_lt_iff.
    pose proof (days_before_year_mono (year a + 1) (year b)). lia.
  - apply Z.compare_gt_iff.
    pose proof (days_before_year_mono (year b + 1) (year a)). lia.
Qed.

Lemma N_of_digit_char (n : Z) :
  0 <= n <= 9 -> Z.of_N (N_of_ascii (digit_char n)) = 48 + n.
Proof.
  intros H. destruct n as [|q|q]; [reflexivity| |lia].
  do 4 (try (destruct q as [q|q|]; try reflexivity; try lia)).
Qed.

Lemma compare_digit_char (a b : Z) (r r' : string) :
  0 <= a <= 9 -> 0 <= b <= 9 ->
  String.compare (String (digit_char a) r) (String (digit_char b) r') =
    match a ?= b with
    | Eq => String.compare r r'
    | c => c
    end.
Proof.
  intros Ha Hb. cbn [String.compare]. unfold Ascii.compare.
  rewrite <- N2Z.inj_compare, !N_of_digit_char by assumption.
  rewrite Z.add_compare_mono_l. reflexivity.
Qed.

Lemma compare_same_char (c : ascii) (r r' : string) :
  String.compare (String c r) (String c r') = String.compare r r'.
Proof.
  cbn [String.compare]. unfold Ascii.compare. now rewrite N.compare_refl.
Qed.

(* numbers printed on two digits compare as the numbers do *)
Lemma compare_pad2 (a b : Z) (r r' : string) :
  0 <= a <= 99 -> 0 <= b <= 99 ->
  String.compare (pad2 a ++ r) (pad2 b ++ r') =
    match a ?= b with
    | Eq => String.compare r r'
    | c => c
    end.
Proof.
  intros Ha Hb. unfold pad2. cbn [append].
  rewrite !compare_digit_char by (Z.div_mod_to_equations; lia).
  destruct (Z.compare_spec (a / 10) (b / 10)),
    (Z.compare_spec (a mod 10) (b mod 10)),
    (Z.compare_spec a b); try reflexivity;
    exfalso; Z.div_mod_to_equations; lia.
Qed.

Lemma pad4_pad2 (n : Z) :
  0 <= n -> pad4 n = pad2 (n / 100) ++ pad2 (n mod 100).
Proof.
  intros H. unfold pad4, pad2. cbn [append].
  replace (n / 100 / 10) with (n / 1000)
    by (Z.div_mod_to_equations; lia).
  replace (n mod 100 / 10) with (n / 10 mod 10)
    by (Z.div_mod_to_equations; lia).
  replace (n mod 100 mod 10) with (n mod 10)
    by (Z.div_mod_to_equations; lia).
  reflexivity.
Qed.

Lemma append_assoc (a b c : string) : (a ++ b) ++ c = a ++ (b ++ c).
Proof. induction a as [|x a IH]; cbn; [reflexivity|now rewrite IH]. Qed.

Lemma compare_pad4 (a b : Z) (r r' : string) :
  0 <= a <= 9999 -> 0 <= b <= 9999 ->
  String.compare (pad4 a ++ r) (pad4 b ++ r') =
    match a ?= b with
    | Eq => String.compare r r'
    | c => c
    end.
Proof.
  intros Ha Hb. rewrite !pad4_pad2 by lia.
  rewrite !append_assoc.
  rewrite !compare_pad2 by (Z.div_mod_to_equations; lia).
  destruct (Z.compare_spec (a / 100) (b / 100)),
    (Z.compare_spec (a mod 100) (b mod 100)),
    (Z.compare_spec a b); try reflexivity;
    exfalso; Z.div_mod_to_equations; lia.
Qed.

(** The texts of two dates compare, byte by byte, as the dates do. *)
Lemma compare_format_date (a b : PyDate.date) (r r' : string) :
  valid_date a = true -> valid_date b = true ->
  String.compare (format_date a ++ r) (format_date b ++ r') =
    match toordinal a ?= toordinal b with
    | Eq => String.compare r r'
    | c => c
    end.
Proof.
  intros Va Vb. rewrite (toordinal_compare a b Va Vb).
  destruct (valid_date_bounds a Va) as (Hya & Hma & Hda).
  destruct (valid_date_bounds b Vb) as (Hyb & Hmb & Hdb).
  pose proof (days_in_month_le_31 (year a) (month a)).
  pose proof (days_in_month_le_31 (year b) (month b)).
  unfold format_date. rewrite !append_assoc.
  rewrite compare_pad4 by lia.
  destruct (year a ?= year b); try reflexivity.
  cbn [append]. rewrite compare_same_char.
  rewrite compare_pad2 by lia.
  destruct (month a ?= month b); try reflexivity.
  cbn [append]. rewrite compare_same_char.
  rewrite compare_pad2 by lia. reflexivity.
Qed.

Lemma ltb_format_date (a b : PyDate.date) :
  valid_date a = true -> valid_date b = true ->
  (format_date a <? format_date b)%string = (toordinal a <? toordinal b).
Proof.
  intros Va Vb. unfold String.ltb, Z.ltb.
  replace (format_date a) with (format_date a ++ EmptyString)
    by (unfold format_date; now rewrite !append_assoc).
  replace (format_date b) with (format_date b ++ EmptyString)
    by (unfold format_date; now rewrite !append_assoc).
  rewrite (compare_format_date a b _ _ Va Vb).
  now destruct (toordinal a ?= toordinal b).
Qed.

Lemma cutoff_of_ok (today : PyDate.date) :
  valid_date today = true -> 30 < toordinal today ->
  exists c, App.cutoff_of today = Return (format_date c) /\
            valid_date c = true /\ toordinal c = toordinal today - 30.
Proof.
  intros Hv H30. unfold App.cutoff_of, add_days.
  assert (Hmax : toordinal today <= MAXORDINAL).
  { pose proof (year_span today Hv) as S.
    destruct (valid_date_bounds today Hv) as (Hy & _).
    pose proof (days_before_year_mono (year today + 1) 10000 ltac:(lia)) as M.
    change (days_before_year 10000) with MAXORDINAL in M. lia. }
  replace ((0 <? toordinal today + -30) && (toordinal today + -30 <=? MAXORDINAL))
    with true by (symmetry; apply andb_true_iff; split;
                  [apply Z.ltb_lt|apply Z.leb_le]; lia).
  destruct (toordinal_ord2ymd (toordinal today + -30) ltac:(lia)) as [V O].
  exists (ord2ymd (toordinal today + -30)). repeat split; [exact V|lia].
Qed.

Lemma cutoff_of_overflow (today : PyDate.date) :
  toordinal today <= 30 -> App.cutoff_of today = Raise OverflowError.
Proof.
  intros H. unfold App.cutoff_of, add_days.
  replace (0 <? toordinal today + -30) with false
    by (symmetry; apply Z.ltb_ge; lia).
  reflexivity.
Qed.

(** ** Cleaning old tasks *)

Lemma filter_none_out {A : Type} (f : A -> bool) (l : list A) :
  filter f l = [] -> filter (fun x => negb (f x)) l = l.
Proof.
  induction l as [|a l IH]; [reflexivity|]. cbn [filter].
  destruct (f a); [discriminate|]. intros H. cbn [negb]. f_equal. now apply IH.
Qed.

Lemma filter_split_length {A : Type} (f : A -> bool) (l : list A) :
  (List.length (filter f l) + List.length (filter (fun x => negb (f x)) l)
   = List.length l)%nat.
Proof.
  induction l as [|a l IH]; [reflexivity|]. cbn [filter].
  destruct (f a); cbn [negb List.length]; lia.
Qed.

(* the table and the messages after a clean that was asked for and, where
   the question came, confirmed *)
Lemma auto_clean_working (order_by : list Row -> list Row)
    (today : PyDate.date) (clock : datetime) (s : App.state) (cs : string) :
  App.cutoff_of today = Return cs ->
  App.fuse s = None ->
  let s' := snd (App.auto_clean_old_tasks order_by today true clock s) in
  let old := filter (App.older_than cs) (App.tasks s) in
  App.tasks s' = filter (fun r => negb (App.older_than cs r)) (App.tasks s) /\
  App.log s' =
    (App.log s ++
     match old with
     | [] => [App.NothingToClean]
     | _ :: _ => [App.AskedToClean (Z.of_nat (List.length old)) cs;
                  App.Cleaned (Z.of_nat (List.length old))]
     end)%list.
Proof.
  intros Hc Hf. cbv zeta. unfold App.auto_clean_old_tasks. rewrite Hc.
  unfold_app. rewrite Hf.
  destruct (filter (App.older_than cs) (App.tasks s)) as [|x old] eqn:E.
  - cbn [List.length Z.of_nat Z.eqb snd App.emit App.tasks App.log].
    split; [|reflexivity]. symmetry. now apply filter_none_out.
  - replace (Z.of_nat (List.length (x :: old)) =? 0) with false
      by (symmetry; apply Z.eqb_neq; cbn [List.length]; lia).
    cbn [App.fuse App.emit]. rewrite Hf.
    match goal with |- context [App.refresh_upcoming_panel _ _ ?s0] =>
      destruct (refresh_frame order_by clock s0) as (E1 & E2 & _) end.
    cbv zeta in E1, E2. rewrite E1, E2.
    cbn [App.emit App.with_tasks App.tasks App.log].
    rewrite <- app_assoc. split; reflexivity.
Qed.

(** X8. [auto_clean_old_tasks] removes the tasks dated more than 30 days
    before today, and no other. On a day [today] after the first 30 of the
    calendar, with the store working and the question answered yes: the rows
    that stay are rows of the table, in their order; a row whose date is
    written [YYYY-MM-DD] stays exactly when its date is at most 30 days
    before [today] (so a task of today or of a later day is never removed);
    and the number in the final message is the number of rows removed. When
    there is nothing to remove the message says so and no question is asked;
    when the question is answered no, the table stays as it is. *)
Theorem clean_removes_tasks_older_than_30_days (order_by : list Row -> list Row)
    (today : PyDate.date) (clock : datetime) (s : App.state) :
  valid_date today = true -> 30 < toordinal today ->
  App.fuse s = None ->
  let s' := snd (App.auto_clean_old_tasks order_by today true clock s) in
  (exists keep, App.tasks s' = filter keep (App.tasks s)) /\
  (forall r d, In r (App.tasks s) ->
     date r = format_date d -> valid_date d = true ->
     (In r (App.tasks s') <-> toordinal today - toordinal d <= 30)) /\
  (exists evs, App.log s' = (App.log s ++ evs)%list /\
     ((evs = [App.NothingToClean] /\ App.tasks s' = App.tasks s) \/
      exists n cs, evs = [App.AskedToClean n cs; App.Cleaned n] /\ 0 < n /\
        n = Z.of_nat (List.length (App.tasks s))
            - Z.of_nat (List.length (App.tasks s')))) /\
  App.tasks (snd (App.auto_clean_old_tasks order_by today false clock s))
  = App.tasks s.
Proof.
  intros Hv H30 Hf s'.
  destruct (cutoff_of_ok today Hv H30) as (c & Hc & Vc & Oc).
  destruct (auto_clean_working order_by today clock s _ Hc Hf) as [Htk Hlog].
  fold s' in Htk, Hlog.
  split; [eexists; exact Htk|]. split; [|split].
  - intros r d Hr Hd Vd. rewrite Htk, filter_In.
    unfold App.older_than. rewrite Hd, (ltb_format_date d c Vd Vc).
    rewrite negb_true_iff, Z.ltb_ge. intuition lia.
  - eexists. split; [exact Hlog|].
    pose proof (filter_split_length (App.older_than (format_date c))
                  (App.tasks s)) as L.
    rewrite <- Htk in L.
    destruct (filter (App.older_than (format_date c)) (App.tasks s))
      as [|x old] eqn:E.
    + left. split; [reflexivity|]. rewrite Htk. now apply filter_none_out.
    + right. do 2 eexists. split; [reflexivity|].
      cbn [List.length] in *. lia.
  - unfold App.auto_clean_old_tasks. rewrite Hc. unfold_app. rewrite Hf.
    destruct (Z.of_nat
                (List.length
                   (filter (App.older_than (format_date c)) (App.tasks s)))
              =? 0); reflexivity.
Qed.

Lemma clean_removes_tasks_older_than_30_days_witness :
  let s := App.mkState [Scenario.math_hw; Scenario.math_hw_next] None
             EmptyString EmptyString "2024-02-01" "09" "30" "none" [] []
             false [] in
  let s' := snd (App.auto_clean_old_tasks App.sort_rows (mkdate 2024 2 1) true
                   (mkdatetime (mkdate 2024 2 1) 8 0 0) s) in
  (In Scenario.math_hw (App.tasks s')
   <-> toordinal (mkdate 2024 2 1) - toordinal (mkdate 2024 1 1) <= 30) /\
  (In Scenario.math_hw_next (App.tasks s')
   <-> toordinal (mkdate 2024 2 1) - toordinal (mkdate 2024 1 2) <= 30).
Proof.
  intros s s'.
  destruct (clean_removes_tasks_older_than_30_days App.sort_rows
              (mkdate 2024 2 1) (mkdatetime (mkdate 2024 2 1) 8 0 0) s
              eq_refl ltac:(reflexivity) eq_refl)
    as (_ & H & _).
  split.
  - apply (H Scenario.math_hw (mkdate 2024 1 1));
      [now left|reflexivity|reflexivity].
  - apply (H Scenario.math_hw_next (mkdate 2024 1 2));
      [right; now left|reflexivity|reflexivity].
Defined.

Lemma refresh_timers (order_by : list Row -> list Row) (clock : datetime)
    (s : App.state) :
  let s' := snd (App.refresh_upcoming_panel order_by clock s) in
  App.timers s' = App.timers s \/
  (App.stop_event s = false /\
   App.timers s' = (App.timers s ++ [(60000, App.RefreshUpcomingPanel)])%list).
Proof.
  unfold App.refresh_upcoming_panel. unfold_app.
  destruct s as [tk [[|n]|] te de da hv mv rv up tm [|] lg]; cbn;
    auto.
Qed.

Lemma silent_clean_effect (order_by : list Row -> list Row)
    (today : PyDate.date) (clock : datetime) (s : App.state) :
  let r := App.auto_clean_old_tasks_silent order_by today clock s in
  App.stop_event (snd r) = App.stop_event s /\
  App.log (snd r) = App.log s /\
  (App.timers (snd r) = App.timers s \/
   (App.stop_event s = false /\
    App.timers (snd r)
    = (App.timers s ++ [(60000, App.RefreshUpcomingPanel)])%list)) /\
  (App.fuse s = None -> fst r = Return tt \/ fst r = Raise OverflowError).
Proof.
  unfold App.auto_clean_old_tasks_silent.
  destruct (App.cutoff_of today) as [cs|e] eqn:Hc.
  - unfold_app. destruct (App.fuse s) as [[|n]|] eqn:Hf.
    + cbn [fst snd]. repeat split; auto. discriminate.
    + match goal with |- context [App.refresh_upcoming_panel _ _ ?s0] =>
        destruct (refresh_frame order_by clock s0) as (_ & E2 & _ & _ & E5);
        pose proof (refresh_timers order_by clock s0) as E6 end.
      cbv zeta in E2, E5, E6. rewrite E2, E5.
      repeat split; [exact E6|discriminate].
    + match goal with |- context [App.refresh_upcoming_panel _ _ ?s0] =>
        destruct (refresh_frame order_by clock s0) as (_ & E2 & _ & _ & E5);
        pose proof (refresh_timers order_by clock s0) as E6;
        pose proof (refresh_working order_by clock s0 Hf) as E7 end.
      cbv zeta in E2, E5, E6. rewrite E2, E5.
      repeat split; [exact E6|]. intros _. left. now rewrite E7.
  - unfold App.cutoff_of in Hc. destruct (add_days today (-30)); [discriminate|].
    injection Hc as <-. cbn [raise fst snd]. repeat split; auto.
Qed.

(** X9. The daily clean goes on after a failure. [schedule_daily_autoclean]
    always returns: an exception of the silent clean (a failing store call,
    or a date with no day 30 days before it) is caught and printed. While
    the stop event is not set, the last thing it does is to schedule
    itself, 24 hours on; once the stop event is set it schedules nothing. *)
Theorem autoclean_scheduled_whatever_fails (order_by : list Row -> list Row)
    (today : PyDate.date) (clock : datetime) (s : App.state) :
  let r := App.schedule_daily_autoclean order_by today clock s in
  let c := App.auto_clean_old_tasks_silent order_by today clock s in
  fst r = Return tt /\
  (if App.stop_event s then App.timers (snd r) = App.timers s
   else exists pre,
          App.timers (snd r)
          = (pre ++ [(86400000, App.ScheduleDailyAutoclean)])%list) /\
  App.log (snd r) =
    (App.log s ++ match fst c with
                  | Return _ => []
                  | Raise e => [App.Printed e]
                  end)%list.
Proof.
  cbv zeta. unfold App.schedule_daily_autoclean.
  destruct (silent_clean_effect order_by today clock s) as (Hs & Hl & Ht & _).
  cbv zeta in Hs, Hl, Ht.
  destruct (App.auto_clean_old_tasks_silent order_by today clock s)
    as [[[]|e] s1]; cbn [fst snd] in *.
  - rewrite Hs. destruct (App.stop_event s).
    + cbn [fst snd]. rewrite Hl, app_nil_r.
      destruct Ht as [Ht|[Ht _]]; [auto|discriminate].
    + unfold App.after, modify. cbn [fst snd App.with_timers App.timers App.log].
      rewrite Hl, app_nil_r. repeat split. eexists. reflexivity.
  - cbn [App.emit App.stop_event]. rewrite Hs. destruct (App.stop_event s).
    + cbn [fst snd App.emit App.timers App.log]. rewrite Hl.
      destruct Ht as [Ht|[Ht _]]; [auto|discriminate].
    + unfold App.after, modify.
      cbn [fst snd App.with_timers App.emit App.timers App.log].
      rewrite Hl. repeat split. eexists. reflexivity.
Qed.

Lemma silent_clean_working (order_by : list Row -> list Row)
    (today : PyDate.date) (clock : datetime) (s : App.state) (cs : string) :
  App.cutoff_of today = Return cs ->
  App.fuse s = None ->
  App.tasks (snd (App.auto_clean_old_tasks_silent order_by today clock s))
  = filter (fun r => negb (App.older_than cs r)) (App.tasks s).
Proof.
  intros Hc Hf. unfold App.auto_clean_old_tasks_silent. rewrite Hc.
  unfold_app. rewrite Hf.
  match goal with |- context [App.refresh_upcoming_panel _ _ ?s0] =>
    destruct (refresh_frame order_by clock s0) as (E1 & _) end.
  cbv zeta in E1. now rewrite E1.
Qed.

(** X10. The silent clean removes what the confirmed clean removes. With the
    store working, [_auto_clean_old_tasks_silent] and [auto_clean_old_tasks]
    answered yes leave the same table, on every day and every table. On one
    of the first 30 days of the calendar both raise [OverflowError] before
    they touch the store, and everything is as it was. *)
Theorem silent_clean_as_confirmed_clean (order_by : list Row -> list Row)
    (today : PyDate.date) (c1 c2 : datetime) (s : App.state) :
  App.fuse s = None ->
  App.tasks (snd (App.auto_clean_old_tasks_silent order_by today c1 s))
  = App.tasks (snd (App.auto_clean_old_tasks order_by today true c2 s)) /\
  (toordinal today <= 30 ->
     App.auto_clean_old_tasks_silent order_by today c1 s
       = (Raise OverflowError, s) /\
     App.auto_clean_old_tasks order_by today true c2 s
       = (Raise OverflowError, s)).
Proof.
  intros Hf. split.
  - destruct (App.cutoff_of today) as [cs|e] eqn:Hc.
    + rewrite (silent_clean_working _ _ _ _ _ Hc Hf).
      now destruct (auto_clean_working order_by today c2 s _ Hc Hf) as [-> _].
    + unfold App.auto_clean_old_tasks_silent, App.auto_clean_old_tasks.
      now rewrite Hc.
  - intros H. unfold App.auto_clean_old_tasks_silent, App.auto_clean_old_tasks.
    rewrite (cutoff_of_overflow today H). split; reflexivity.
Qed.

Lemma silent_clean_as_confirmed_clean_witness :
  let s := App.mkState [Scenario.math_hw; Scenario.math_hw_next] None
             EmptyString EmptyString "2024-02-01" "09" "30" "none" [] []
             false [] in
  App.tasks (snd (App.auto_clean_old_tasks_silent App.sort_rows
                    (mkdate 2024 2 1) (mkdatetime (mkdate 2024 2 1) 8 0 0) s))
  = App.tasks (snd (App.auto_clean_old_tasks App.sort_rows
                      (mkdate 2024 2 1) true
                      (mkdatetime (mkdate 2024 2 1) 8 0 0) s)).
Proof.
  intros s.
  exact (proj1 (silent_clean_as_confirmed_clean App.sort_rows
                  (mkdate 2024 2 1) (mkdatetime (mkdate 2024 2 1) 8 0 0)
                  (mkdatetime (mkdate 2024 2 1) 8 0 0) s eq_refl)).
Defined.


(** ** The panel of upcoming tasks *)

Lemma compare_refl (a : string) : String.compare a a = Eq.
Proof.
  induction a as [|c a IH]; [reflexivity|]. now rewrite compare_same_char.
Qed.

Lemma compare_lt_trans (a : string) :
  forall b c, String.compare a b = Lt -> String.compare b c = Lt ->
              String.compare a c = Lt.
Proof.
  induction a as [|x a IH]; intros [|y b] [|z c]; cbn [String.compare];
    try discriminate; try reflexivity.
  unfold Ascii.compare.
  destruct (N.compare_spec (N_of_ascii x) (N_of_ascii y)) as [E1|L1|L1];
    destruct (N.compare_spec (N_of_ascii y) (N_of_ascii z)) as [E2|L2|L2];
    try discriminate; intros H1 H2.
  - rewrite E1, E2, N.compare_refl. now apply (IH b c).
  - rewrite E1. now apply N.compare_lt_iff in L2 as ->.
  - rewrite <- E2. now apply N.compare_lt_iff in L1 as ->.
  - assert (L : (N_of_ascii x < N_of_ascii z)%N) by lia.
    now apply N.compare_lt_iff in L as ->.
Qed.

Lemma leb_trans (a b c : string) :
  (a <=? b)%string = true -> (b <=? c)%string = true ->
  (a <=? c)%string = true.
Proof.
  unfold String.leb.
  destruct (String.compare a b) eqn:E1; try discriminate;
    destruct (String.compare b c) eqn:E2; try discriminate; intros _ _.
  - apply String.compare_eq_iff in E1, E2. subst. now rewrite compare_refl.
  - apply String.compare_eq_iff in E1. subst. now rewrite E2.
  - apply String.compare_eq_iff in E2. subst. now rewrite E1.
  - now rewrite (compare_lt_trans a b c E1 E2).
Qed.

Lemma row_le_trans (a b c : Row) :
  App.row_le a b = true -> App.row_le b c = true -> App.row_le a c = true.
Proof.
  unfold App.row_le.
  destruct (String.compare (date a) (date b)) eqn:E1; try discriminate;
    destruct (String.compare (date b) (date c)) eqn:E2; try discriminate;
    intros H1 H2.
  - apply String.compare_eq_iff in E1, E2. rewrite E1, E2, compare_refl.
    now apply (leb_trans _ (time b)).
  - apply String.compare_eq_iff in E1. now rewrite E1, E2.
  - apply String.compare_eq_iff in E2. now rewrite <- E2, E1.
  - now rewrite (compare_lt_trans _ _ _ E1 E2).
Qed.

Lemma row_le_total (a b : Row) :
  App.row_le a b = false -> App.row_le b a = true.
Proof.
  unfold App.row_le. rewrite (String.compare_antisym (date b) (date a)).
  destruct (String.compare (date a) (date b)); cbn [CompOpp];
    try discriminate; [|reflexivity].
  unfold String.leb. rewrite (String.compare_antisym (time b) (time a)).
  destruct (String.compare (time a) (time b)); cbn [CompOpp];
    try discriminate. reflexivity.
Qed.

(* sorting by insertion is one sorting that ORDER BY may do *)
Lemma insert_row_perm (r : Row) (l : list Row) :
  Permutation (App.insert_row r l) (r :: l).
Proof.
  induction l as [|x l IH]; cbn [App.insert_row]; [reflexivity|].
  destruct (App.row_le r x); [reflexivity|].
  rewrite IH. apply perm_swap.
Qed.

Lemma sort_rows_perm (l : list Row) : Permutation (App.sort_rows l) l.
Proof.
  induction l as [|r l IH]; cbn [App.sort_rows]; [reflexivity|].
  rewrite insert_row_perm. now constructor.
Qed.

Lemma insert_row_sorted (r : Row) (l : list Row) :
  StronglySorted (fun a b => App.row_le a b = true) l ->
  StronglySorted (fun a b => App.row_le a b = true) (App.insert_row r l).
Proof.
  induction l as [|x l IH]; cbn [App.insert_row]; intros Hs.
  - repeat constructor.
  - apply StronglySorted_inv in Hs. destruct Hs as [Hs Hx].
    destruct (App.row_le r x) eqn:E.
    + constructor; [now constructor|].
      constructor; [exact E|].
      rewrite Forall_forall in *. intros y Hy.
      apply (row_le_trans r x y E). now apply Hx.
    + constructor; [now apply IH|].
      rewrite Forall_forall in *. intros y Hy.
      apply (Permutation_in _ (insert_row_perm r l)) in Hy.
      destruct Hy as [<-|Hy]; [now apply row_le_total|now apply Hx].
Qed.

Lemma sort_rows_sorted (l : list Row) :
  StronglySorted (fun a b => App.row_le a b = true) (App.sort_rows l).
Proof.
  induction l as [|r l IH]; cbn [App.sort_rows]; [constructor|].
  now apply insert_row_sorted.
Qed.

Lemma sorted_firstn {A : Type} (R : A -> A -> Prop) (n : nat) :
  forall l, StronglySorted R l ->
    StronglySorted R (firstn n l) /\
    (forall x y, In x (firstn n l) -> In y (skipn n l) -> R x y).
Proof.
  induction n as [|n IH]; intros l Hs.
  - cbn. split; [constructor|intros x y []].
  - destruct l as [|a l]; cbn [firstn skipn].
    + split; [constructor|intros x y []].
    + apply StronglySorted_inv in Hs. destruct Hs as [Hs Ha].
      destruct (IH l Hs) as [H1 H2]. split.
      * constructor; [exact H1|].
        rewrite Forall_forall in *. intros x Hx. apply Ha.
        rewrite <- (firstn_skipn n l). apply in_or_app. now left.
      * intros x y [<-|Hx] Hy; [|now apply H2].
        rewrite Forall_forall in Ha. apply Ha.
        rewrite <- (firstn_skipn n l). apply in_or_app. now right.
Qed.

(** The minute keys of two clock readings compare, byte by byte, as the
    minutes they stand for. *)
Lemma compare_format_key (a b : datetime) :
  valid_datetime a = true -> valid_datetime b = true ->
  String.compare (format_key a) (format_key b)
  = (minute_number a ?= minute_number b).
Proof.
  unfold valid_datetime. rewrite !andb_true_iff, !Z.leb_le.
  intros [[[[[[Va ?] ?] ?] ?] ?] ?] [[[[[[Vb ?] ?] ?] ?] ?] ?].
  unfold format_key, format_time, minute_number.
  rewrite (compare_format_date _ _ _ _ Va Vb).
  cbn [append]. rewrite compare_same_char.
  rewrite compare_pad2 by lia.
  cbn [append]. rewrite compare_same_char.
  replace (pad2 (minute a)) with (pad2 (minute a) ++ EmptyString)
    by reflexivity.
  replace (pad2 (minute b)) with (pad2 (minute b) ++ EmptyString)
    by reflexivity.
  rewrite compare_pad2 by lia. cbn [String.compare].
  destruct (Z.compare_spec (toordinal (dt_date a)) (toordinal (dt_date b))),
    (Z.compare_spec (hour a) (hour b)),
    (Z.compare_spec (minute a) (minute b)); symmetry;
    (apply Z.compare_eq_iff || apply Z.compare_lt_iff
     || apply Z.compare_gt_iff); lia.
Qed.

Lemma upcoming_at_written (clock : datetime) (r : Row) (t : datetime) :
  valid_datetime clock = true -> App.written r t ->
  App.upcoming_at (format_key clock) r
  = (minute_number clock <=? minute_number t).
Proof.
  intros Hc (Hv & Hd & Ht). unfold App.upcoming_at. rewrite Hd, Ht.
  change (format_date (dt_date t) ++ " " ++ format_time t)
    with (format_key t).
  unfold String.leb, Z.leb. now rewrite (compare_format_key _ _ Hc Hv).
Qed.

Lemma row_le_written (a b : Row) (ta tb : datetime) :
  App.written a ta -> App.written b tb ->
  App.row_le a b = (minute_number ta <=? minute_number tb).
Proof.
  intros (Va & Da & Ta) (Vb & Db & Tb).
  pose proof (compare_format_key ta tb Va Vb) as K.
  unfold valid_datetime in Va, Vb. rewrite !andb_true_iff, !Z.leb_le in Va, Vb.
  destruct Va as [[[[[[Va ?] ?] ?] ?] ?] ?], Vb as [[[[[[Vb ?] ?] ?] ?] ?] ?].
  unfold App.row_le. rewrite Da, Db, Ta, Tb.
  unfold format_key in K. rewrite (compare_format_date _ _ _ _ Va Vb) in K.
  replace (format_date (dt_date ta))
    with (format_date (dt_date ta) ++ EmptyString)
    by (unfold format_date; now rewrite !append_assoc).
  replace (format_date (dt_date tb))
    with (format_date (dt_date tb) ++ EmptyString)
    by (unfold format_date; now rewrite !append_assoc).
  rewrite (compare_format_date _ _ _ _ Va Vb). cbn [String.compare].
  unfold Z.leb. rewrite <- K.
  destruct (toordinal (dt_date ta) ?= toordinal (dt_date tb));
    [|reflexivity|reflexivity].
  cbn [append]. rewrite compare_same_char. reflexivity.
Qed.

(** X11. The panel lists the next six tasks. With the store working, after
    [refresh_upcoming_panel] the panel holds one entry for each of at most
    six rows, or the label for none. The rows listed are rows of the table
    whose date and time, as text, are not before the minute key of the
    clock; they stand in the order of [ORDER BY date, time]; and a row that
    qualifies and is not listed comes after all six that are. For rows
    written [YYYY-MM-DD] and [HH:MM] the order of the texts is the order of
    time: such a row qualifies exactly when its minute is the clock's or a
    later one, and two of them are ordered as their minutes are. *)
Theorem panel_lists_the_next_six (order_by : list Row -> list Row)
    (clock : datetime) (s : App.state) :
  (forall l, Permutation (order_by l) l) ->
  (forall l, StronglySorted (fun a b => App.row_le a b = true) (order_by l)) ->
  App.fuse s = None ->
  let s' := snd (App.refresh_upcoming_panel order_by clock s) in
  let key := format_key clock in
  exists shown : list Row,
    App.up_container s' =
      match shown with
      | [] => [App.NoUpcoming]
      | _ :: _ => map App.entry shown
      end /\
    (List.length shown <= 6)%nat /\
    (forall r, In r shown ->
       In r (App.tasks s) /\ App.upcoming_at key r = true) /\
    StronglySorted (fun a b => App.row_le a b = true) shown /\
    (forall r, In r (App.tasks s) -> App.upcoming_at key r = true ->
       In r shown \/
       (List.length shown = 6%nat /\
        forall x, In x shown -> App.row_le x r = true)) /\
    (valid_datetime clock = true ->
     forall r t, App.written r t ->
       (App.upcoming_at key r = true
        <-> minute_number clock <= minute_number t)) /\
    (forall a b ta tb, App.written a ta -> App.written b tb ->
       (App.row_le a b = true <-> minute_number ta <= minute_number tb)).
Proof.
  intros Hperm Hsort Hf s' key.
  set (cand := filter (App.upcoming_at key) (App.tasks s)).
  exists (firstn 6 (order_by cand)).
  destruct (sorted_firstn _ 6 (order_by cand) (Hsort cand)) as [S1 S2].
  assert (Hin : forall r, In r (order_by cand) <->
                          In r (App.tasks s) /\ App.upcoming_at key r = true).
  { intros r. unfold cand. rewrite <- filter_In. split; intros H.
    - now apply (Permutation_in _ (Hperm _)).
    - now apply (Permutation_in _ (Permutation_sym (Hperm _))). }
  split; [|split; [|split; [|split; [|split; [|split]]]]].
  - unfold s'. rewrite (refresh_working order_by clock s Hf). cbv zeta.
    cbn [snd]. fold key. fold cand.
    destruct (App.stop_event s); reflexivity.
  - apply firstn_le_length.
  - intros r Hr. apply Hin.
    rewrite <- (firstn_skipn 6 (order_by cand)). apply in_or_app. now left.
  - exact S1.
  - intros r Hr Hu.
    assert (Hr' : In r (order_by cand)) by (apply Hin; now split).
    rewrite <- (firstn_skipn 6 (order_by cand)) in Hr'.
    apply in_app_or in Hr'. destruct Hr' as [Hr'|Hr']; [now left|right].
    split; [|intros x Hx; now apply S2].
    apply firstn_length_le.
    destruct (Nat.le_gt_cases 6 (List.length (order_by cand))) as [L|L];
      [exact L|].
    rewrite skipn_all2 in Hr' by lia. destruct Hr'.
  - intros Hc r t Hw. unfold key.
    rewrite (upcoming_at_written clock r t Hc Hw). apply Z.leb_le.
  - intros a b ta tb Ha Hb. rewrite (row_le_written a b ta tb Ha Hb).
    apply Z.leb_le.
Qed.

Lemma panel_lists_the_next_six_witness :
  let s := App.mkState
             [Scenario.math_hw_next; Scenario.math_hw;
              mkRow 3 "Late" "2024-01-01" "23:59" None (Some 0) (Some "none")]
             None EmptyString EmptyString "2024-01-05" "09" "30" "none" [] []
             false [] in
  exists shown : list Row,
    App.up_container
      (snd (App.refresh_upcoming_panel App.sort_rows (Scenario.jan1_at 9 1) s))
    = match shown with
      | [] => [App.NoUpcoming]
      | _ :: _ => map App.entry shown
      end /\
    (List.length shown <= 6)%nat /\
    (forall r, In r shown ->
       In r (App.tasks s) /\
       App.upcoming_at (format_key (Scenario.jan1_at 9 1)) r = true).
Proof.
  intros s.
  destruct (panel_lists_the_next_six App.sort_rows (Scenario.jan1_at 9 1) s
              sort_rows_perm sort_rows_sorted eq_refl)
    as (shown & H1 & H2 & H3 & _).
  exists shown. repeat split; try assumption; now apply H3.
Defined.


(** ** Pending timers *)

Lemma refreshes_with_timers (t : list (Z * App.callback)) (s : App.state) :
  App.refreshes (App.with_timers t s) =
  List.length
    (filter (fun x => match snd x with
                      | App.RefreshUpcomingPanel => true
                      | App.ScheduleDailyAutoclean => false
                      end) t).
Proof. reflexivity. Qed.

Lemma filter_without_nth {A : Type} (f : A -> bool) (l : list A) :
  forall (i : nat) (x : A),
    nth_error l i = Some x -> f x = true ->
    S (List.length (filter f (firstn i l ++ skipn (S i) l)))
    = List.length (filter f l).
Proof.
  induction l as [|a l IH]; intros [|i] x H Hx; try discriminate.
  - cbn in H. injection H as ->. cbn [firstn skipn app filter].
    now rewrite Hx.
  - cbn [nth_error] in H. specialize (IH i x H Hx).
    change (firstn (S i) (a :: l) ++ skipn (S (S i)) (a :: l))%list
      with (a :: (firstn i l ++ skipn (S i) l))%list.
    cbn [filter]. destruct (f a); cbn [List.length]; lia.
Qed.

Lemma refresh_count (order_by : list Row -> list Row) (clock : datetime)
    (s : App.state) :
  App.stop_event s = false -> App.fuse s = None ->
  App.refreshes (snd (App.refresh_upcoming_panel order_by clock s))
  = S (App.refreshes s).
Proof.
  intros Hs Hf. rewrite (refresh_working order_by clock s Hf). cbv zeta.
  rewrite Hs. cbn [snd]. rewrite refreshes_with_timers.
  unfold App.refreshes. rewrite filter_app, length_app.
  cbn [filter snd List.length]. lia.
Qed.

(** X12. Refresh timers pile up. While the stop event is not set and the
    store works, a timer that runs [refresh_upcoming_panel] is replaced by a
    new one when it runs, so the number of such timers pending never goes
    down; and every task stored by [add_task], every confirmed
    [delete_task] and every [update_task] that is not refused leaves one
    more of them pending than there were. *)
Theorem refresh_timers_pile_up (order_by : list Row -> list Row)
    (today : PyDate.date) (clock : datetime) (s : App.state) :
  App.stop_event s = false -> App.fuse s = None ->
  (forall i ms,
     nth_error (App.timers s) i = Some (ms, App.RefreshUpcomingPanel) ->
     App.refreshes (App.run_timer order_by i today clock s)
     = App.refreshes s) /\
  (App.tasks (snd (App.add_task order_by clock s)) <> App.tasks s ->
   App.refreshes (snd (App.add_task order_by clock s))
   = S (App.refreshes s)) /\
  (forall tid,
     App.refreshes (snd (App.delete_task order_by clock true tid s))
     = S (App.refreshes s)) /\
  (forall tid nt nd ntm ndesc nrc,
     strptime_datetime (nd ++ " " ++ ntm) <> None ->
     App.refreshes
       (snd (App.update_task order_by clock tid nt nd ntm ndesc nrc s))
     = S (App.refreshes s)).
Proof.
  intros Hs Hf. split; [|split; [|split]].
  - intros i ms Hi. unfold App.run_timer. rewrite Hi. cbv zeta.
    set (s0 := App.with_timers
                 (firstn i (App.timers s) ++ skipn (S i) (App.timers s)) s).
    rewrite (refresh_working order_by clock s0 Hf).
    change (App.stop_event s0) with (App.stop_event s). rewrite Hs. cbv zeta.
    unfold s0.
    rewrite refreshes_with_timers.
    cbn [App.with_panel App.with_timers App.timers].
    rewrite filter_app, length_app. cbn [filter snd List.length].
    unfold App.refreshes.
    rewrite <- (filter_without_nth _ (App.timers s) i _ Hi eq_refl). lia.
  - intros Hch.
    destruct (truthy (strip (App.title_entry s))) eqn:Ht;
      [|now rewrite add_task_blank_title in Hch].
    destruct (strptime_datetime
                (strip (App.date_entry s) ++ " " ++ App.hour_var s ++ ":" ++
                 App.min_var s)) as [t0|] eqn:Hp;
      [|now rewrite add_task_invalid in Hch].
    rewrite (add_task_accepted order_by clock s t0 Ht Hp Hf). cbv zeta.
    now rewrite refresh_count.
  - intros tid. unfold App.delete_task. unfold_app. rewrite Hf.
    now rewrite refresh_count.
  - intros tid nt nd ntm ndesc nrc Hp. unfold App.update_task.
    destruct (strptime_datetime (nd ++ " " ++ ntm)); [|contradiction].
    unfold_app. rewrite Hf. now rewrite refresh_count.
Qed.

Lemma refresh_timers_pile_up_witness :
  let s := App.mkState [Scenario.math_hw] None "Essay" "draft" "2024-01-05"
             "09" "30" "daily" []
             [(60000, App.RefreshUpcomingPanel); (2000, App.RefreshUpcomingPanel)]
             false [] in
  App.refreshes
    (App.run_timer App.sort_rows 1 (mkdate 2024 1 1) (Scenario.jan1_at 8 0) s)
  = 2%nat /\
  App.refreshes (snd (App.add_task App.sort_rows (Scenario.jan1_at 8 0) s))
  = 3%nat.
Proof.
  intros s.
  destruct (refresh_timers_pile_up App.sort_rows (mkdate 2024 1 1)
              (Scenario.jan1_at 8 0) s eq_refl eq_refl)
    as (H1 & H2 & _).
  split.
  - exact (H1 1%nat 2000 eq_refl).
  - exact (H2 ltac:(discriminate)).
Defined.


(** ** The schema *)

Lemma has_column_app (cols more : list string) (name : string) :
  Schema.has_column (cols ++ more) name
  = Schema.has_column cols name || Schema.has_column more name.
Proof. apply existsb_app. Qed.

Lemma mem_app (cols more : list string) (name : string) :
  Schema.mem name (cols ++ more)
  = Schema.mem name cols || Schema.mem name more.
Proof. apply existsb_app. Qed.

Lemma mem_has_column (cols : list string) (name : string) :
  Schema.mem name cols = true -> Schema.has_column cols name = true.
Proof.
  unfold Schema.mem, Schema.has_column. rewrite !existsb_exists.
  intros (c & Hc & E). apply String.eqb_eq in E. subst c.
  exists name. split; [exact Hc|apply String.eqb_refl].
Qed.

(** X13. [ensure_schema] adds the columns that are missing and nothing else.
    Take the table as [CREATE TABLE IF NOT EXISTS] leaves it: the seven
    columns on a new database, the old table otherwise. When none of
    [description], [completed] and [recurrence] that the table lacks is
    there under another spelling of upper and lower case, [ensure_schema]
    returns; the table then has its old columns, in their order, followed
    by those of the three that it lacked, in that order, so that all three
    are there; and running [ensure_schema] once more changes nothing. *)
Theorem ensure_schema_adds_missing_columns (db : option (list string)) :
  let cols := Schema.create_if_not_exists db in
  let missing := filter (fun n => negb (Schema.mem n cols)) Schema.WANTED in
  (forall n, In n missing -> Schema.has_column cols n = false) ->
  Schema.ensure_schema db = (Return tt, (cols ++ missing)%list) /\
  (forall n, In n Schema.WANTED ->
     Schema.mem n (cols ++ missing) = true) /\
  Schema.ensure_schema (Some (cols ++ missing)%list)
  = (Return tt, (cols ++ missing)%list).
Proof.
  intros cols missing Hno.
  assert (Hall : forall n, In n Schema.WANTED ->
                   Schema.mem n (cols ++ missing) = true).
  { intros n Hn. rewrite mem_app.
    destruct (Schema.mem n cols) eqn:E; [reflexivity|].
    cbn [orb]. unfold Schema.mem. apply existsb_exists. exists n.
    split; [|apply String.eqb_refl].
    apply filter_In. split; [exact Hn|now rewrite E]. }
  split; [|split; [exact Hall|]].
  - unfold Schema.ensure_schema. fold cols.
    unfold Schema.table_info, Schema.add_column, bind, gets, ret.
    unfold missing in *. cbn [filter Schema.WANTED] in *.
    destruct (Schema.mem "description" cols) eqn:M1;
      destruct (Schema.mem "completed" cols) eqn:M2;
      destruct (Schema.mem "recurrence" cols) eqn:M3;
      cbn [negb app] in *;
      repeat first
        [ rewrite M1 | rewrite M2 | rewrite M3
        | rewrite mem_app | rewrite has_column_app
        | rewrite Hno by (cbn [In]; auto)
        | rewrite <- app_assoc
        | rewrite app_nil_r
        | match goal with
          | |- context [Schema.has_column (?x :: ?l) ?n] =>
              let v := eval vm_compute in (Schema.has_column (x :: l) n) in
              change (Schema.has_column (x :: l) n) with v
          | |- context [Schema.mem ?n (?x :: ?l)] =>
              let v := eval vm_compute in (Schema.mem n (x :: l)) in
              change (Schema.mem n (x :: l)) with v
          end
        | progress cbn [orb app]
        | progress cbv beta iota ];
      reflexivity.
  - unfold Schema.ensure_schema. cbn [Schema.create_if_not_exists].
    unfold Schema.table_info, Schema.add_column, bind, gets, ret.
    rewrite !Hall by (cbn [Schema.WANTED In]; auto). reflexivity.
Qed.

Lemma ensure_schema_adds_missing_columns_witness :
  Schema.ensure_schema (Some ["id"; "title"; "date"; "time"; "completed"])
  = (Return tt,
     ["id"; "title"; "date"; "time"; "completed"; "description";
      "recurrence"]) /\
  Schema.ensure_schema None = (Return tt, Schema.CREATED).
Proof.
  split.
  - refine (proj1 (ensure_schema_adds_missing_columns
                     (Some ["id"; "title"; "date"; "time"; "completed"]) _)).
    cbn. intros n [<-|[<-|[]]]; reflexivity.
  - refine (proj1 (ensure_schema_adds_missing_columns None _)).
    cbn. intros n [].
Defined.

(** X14. [ensure_schema] fails on a column spelled in another case. When the
    table lacks one of [description], [completed] and [recurrence] under
    that very spelling but has it under another spelling of upper and lower
    case, the membership test of the program finds the column missing and
    SQLite refuses to add it: [ensure_schema] raises, and with it the
    construction of [PlannerApp], which calls it. *)
Theorem ensure_schema_refused_by_other_spelling (db : option (list string))
    (n : string) :
  let cols := Schema.create_if_not_exists db in
  In n Schema.WANTED ->
  Schema.mem n cols = false -> Schema.has_column cols n = true ->
  fst (Schema.ensure_schema db) = Raise StoreError.
Proof.
  intros cols Hn Hm Hc.
  unfold Schema.ensure_schema. fold cols.
  unfold Schema.table_info, Schema.add_column, bind, gets, ret.
  destruct (Schema.mem "description" cols) eqn:M1;
    destruct (Schema.mem "completed" cols) eqn:M2;
    destruct (Schema.mem "recurrence" cols) eqn:M3;
    destruct (Schema.has_column cols "description") eqn:C1;
    destruct (Schema.has_column cols "completed") eqn:C2;
    destruct (Schema.has_column cols "recurrence") eqn:C3;
    try (destruct Hn as [<-|[<-|[<-|[]]]]; congruence);
    repeat first
      [ rewrite M1 | rewrite M2 | rewrite M3
      | rewrite C1 | rewrite C2 | rewrite C3
      | rewrite mem_app | rewrite has_column_app
      | match goal with
        | |- context [Schema.has_column (?x :: ?l) ?n] =>
            let v := eval vm_compute in (Schema.has_column (x :: l) n) in
            change (Schema.has_column (x :: l) n) with v
        | |- context [Schema.mem ?n (?x :: ?l)] =>
            let v := eval vm_compute in (Schema.mem n (x :: l)) in
            change (Schema.mem n (x :: l)) with v
        end
      | progress cbn [orb app fst]
      | progress cbv beta iota ];
    reflexivity.
Qed.

Lemma ensure_schema_refused_by_other_spelling_witness :
  fst (Schema.ensure_schema
         (Some ["id"; "title"; "date"; "time"; "Description"]))
  = Raise StoreError.
Proof.
  exact (ensure_schema_refused_by_other_spelling
           (Some ["id"; "title"; "date"; "time"; "Description"])
           "description" (or_introl eq_refl) eq_refl eq_refl).
Defined.


(** ** The first planner of [autumn.py] *)

Lemma autumn_for_each_alarms (ms : list Autumn.Row) :
  forall s : Autumn.state,
    for_each (fun task => modify (Autumn.emit (Autumn.Alarm (Autumn.title task))))
      ms s
    = (Return tt,
       Autumn.mkState (Autumn.tasks s)
         (Autumn.log s ++ map (fun r => Autumn.Alarm (Autumn.title r)) ms)).
Proof.
  induction ms as [|m ms IH]; intros s.
  - cbn. rewrite app_nil_r. now destruct s.
  - cbn [for_each map]. unfold bind at 1. unfold modify at 1.
    rewrite IH. cbn [Autumn.emit Autumn.tasks Autumn.log].
    now rewrite <- app_assoc.
Qed.

Lemma autumn_alarms_map (ms : list Autumn.Row) :
  Autumn.alarms (map (fun r => Autumn.Alarm (Autumn.title r)) ms)
  = map Autumn.title ms.
Proof. induction ms as [|m ms IH]; cbn; [reflexivity|now f_equal]. Qed.

(* the alarms of one check with a working store *)
Lemma autumn_check_alarms (now : datetime) (rows : list Autumn.Row) :
  Autumn.alarms
    (Autumn.log (snd (Autumn.check_alarms now false (Autumn.start rows))))
  = map Autumn.title (filter (Autumn.due_at (format_key now)) rows).
Proof.
  unfold Autumn.check_alarms. cbv zeta. unfold bind at 1 2. cbn [ret].
  unfold gets at 1. cbn [Autumn.start Autumn.tasks].
  unfold bind. rewrite autumn_for_each_alarms. unfold modify.
  cbn [snd Autumn.emit Autumn.log app].
  unfold Autumn.alarms. rewrite flat_map_app. cbn [flat_map].
  rewrite app_nil_r. apply autumn_alarms_map.
Qed.

Lemma strptime_time_format (h mi : Z) :
  0 <= h <= 23 -> 0 <= mi <= 59 ->
  strptime_time (pad2 h ++ ":" ++ pad2 mi) = Some (h, mi).
Proof.
  intros Hh Hm. unfold strptime_time.
  rewrite parse_hour_pad2 by lia. cbn [opt_bind append expect].
  rewrite Ascii.eqb_refl. cbn [opt_bind].
  replace (pad2 mi) with (pad2 mi ++ EmptyString) by reflexivity.
  rewrite parse_minute_pad2 by lia. reflexivity.
Qed.

(* the row that [add_task] stores when it stores one *)
Lemma autumn_add_task_accepted (s : AutumnWindow.state) (d : PyDate.date)
    (hm : Z * Z) :
  truthy (strip (AutumnWindow.title_entry s)) = true ->
  truthy (strip (AutumnWindow.date_entry s)) = true ->
  truthy (strip (AutumnWindow.time_entry s)) = true ->
  truthy (strip (AutumnWindow.note_entry s)) = true ->
  strptime_date (strip (AutumnWindow.date_entry s)) = Some d ->
  strptime_time (strip (AutumnWindow.time_entry s)) = Some hm ->
  AutumnWindow.add_task false s =
    (Return tt,
     AutumnWindow.mkState
       (AutumnWindow.tasks s ++
        [Autumn.mkRow (AutumnWindow.next_rowid (AutumnWindow.tasks s))
           (Some (strip (AutumnWindow.title_entry s)))
           (Some (strip (AutumnWindow.date_entry s)))
           (Some (strip (AutumnWindow.time_entry s)))
           (Some (strip (AutumnWindow.note_entry s)))])
       EmptyString EmptyString EmptyString EmptyString
       (AutumnWindow.log s ++ [AutumnWindow.Success])).
Proof.
  intros H1 H2 H3 H4 Hd Ht. unfold AutumnWindow.add_task.
  cbv beta iota delta [bind ret raise gets modify].
  now rewrite H1, H2, H3, H4, Hd, Ht.
Qed.

Lemma truthy_format_time (t : datetime) : truthy (format_time t) = true.
Proof. reflexivity. Qed.

(** X15. In the first planner of [autumn.py] a task added through the window
    rings in its minute and in no other. With no field blank, the date of
    [t] typed as [YYYY-MM-DD] and its time as [HH:MM], [add_task] appends
    one row holding the four texts; and a run of [check_alarms] over the new
    table (the query going through) raises the alarms it raised over the old
    table and, after them, the alarm of the new task exactly when the clock
    reads the day, hour and minute of [t]. *)
Theorem autumn_added_task_rings (s : AutumnWindow.state) (t : datetime) :
  truthy (strip (AutumnWindow.title_entry s)) = true ->
  truthy (strip (AutumnWindow.note_entry s)) = true ->
  strip (AutumnWindow.date_entry s) = format_date (dt_date t) ->
  strip (AutumnWindow.time_entry s) = format_time t ->
  valid_datetime t = true ->
  let s' := snd (AutumnWindow.add_task false s) in
  let ttl := Some (strip (AutumnWindow.title_entry s)) in
  let r := Autumn.mkRow (AutumnWindow.next_rowid (AutumnWindow.tasks s)) ttl
             (Some (format_date (dt_date t))) (Some (format_time t))
             (Some (strip (AutumnWindow.note_entry s))) in
  let rung rows now :=
    Autumn.alarms
      (Autumn.log (snd (Autumn.check_alarms now false (Autumn.start rows)))) in
  AutumnWindow.tasks s' = (AutumnWindow.tasks s ++ [r])%list /\
  forall now : datetime,
    valid_datetime now = true ->
    (dt_date now = dt_date t /\ hour now = hour t /\ minute now = minute t ->
     rung (AutumnWindow.tasks s') now
     = (rung (AutumnWindow.tasks s) now ++ [ttl])%list) /\
    (~ (dt_date now = dt_date t /\ hour now = hour t /\ minute now = minute t)
     -> rung (AutumnWindow.tasks s') now = rung (AutumnWindow.tasks s) now).
Proof.
  intros H1 H4 Hd Ht Hv s' ttl r rung.
  assert (Hv' := Hv). unfold valid_datetime in Hv'.
  rewrite !andb_true_iff, !Z.leb_le in Hv'.
  destruct Hv' as [[[[[[Vd ?] ?] ?] ?] ?] ?].
  assert (Htk : AutumnWindow.tasks s' = (AutumnWindow.tasks s ++ [r])%list).
  { unfold s'.
    rewrite (autumn_add_task_accepted s (dt_date t) (hour t, minute t));
      try assumption.
    - cbn [snd AutumnWindow.tasks]. unfold r, ttl. now rewrite Hd, Ht.
    - rewrite Hd. apply truthy_format_date.
    - rewrite Ht. apply truthy_format_time.
    - rewrite Hd. now apply strptime_format_date.
    - rewrite Ht. apply strptime_time_format; lia. }
  split; [exact Htk|].
  intros now Hn. unfold rung. rewrite Htk, !autumn_check_alarms.
  rewrite filter_app, map_app. cbn [filter].
  assert (Hdue : Autumn.due_at (format_key now) r = true <->
                 format_key now = format_key t).
  { unfold Autumn.due_at. cbn [Autumn.date Autumn.time r].
    rewrite String.eqb_eq.
    change (format_date (dt_date t) ++ " " ++ format_time t)
      with (format_key t). split; intros E; now rewrite E. }
  split.
  - intros (E1 & E2 & E3).
    replace (Autumn.due_at (format_key now) r) with true; [reflexivity|].
    symmetry. apply Hdue. unfold format_key, format_time.
    now rewrite E1, E2, E3.
  - intros Hne.
    destruct (Autumn.due_at (format_key now) r) eqn:E;
      [|cbn [map]; apply app_nil_r].
    exfalso. apply Hne. apply format_key_inj; [exact Hn|exact Hv|].
    now apply Hdue.
Qed.

Lemma autumn_added_task_rings_witness :
  let s := AutumnWindow.mkState [Scenario.note_0901] "Dentist" "2024-01-01"
             "09:01" "bring card" [] in
  let s' := snd (AutumnWindow.add_task false s) in
  Autumn.alarms
    (Autumn.log
       (snd (Autumn.check_alarms (Scenario.jan1_at 9 1) false
               (Autumn.start (AutumnWindow.tasks s')))))
  = [Some "Bus"; Some "Dentist"].
Proof.
  intros s s'.
  destruct (autumn_added_task_rings s (Scenario.jan1_at 9 1)
              eq_refl eq_refl eq_refl eq_refl eq_refl) as [_ H].
  exact (proj1 (H (Scenario.jan1_at 9 1) eq_refl)
           (conj eq_refl (conj eq_refl eq_refl))).
Defined.

(** X16. In the first planner of [autumn.py] a time typed with one digit is
    stored and never rings. [strptime] takes an hour or a minute on one
    digit; [add_task] keeps the text as typed, and [check_alarms] compares
    it with the clock printed on two digits. So when the time field holds a
    text that parses to a time and is not that time printed as [HH:MM] (and
    the other fields are filled in, the date parsing), the task is stored,
    its row is due at no reading of the clock, and every run of
    [check_alarms] raises the same alarms over the new table as over the
    old. *)
Theorem autumn_short_time_never_rings (s : AutumnWindow.state)
    (d : PyDate.date) (h mi : Z) :
  truthy (strip (AutumnWindow.title_entry s)) = true ->
  truthy (strip (AutumnWindow.note_entry s)) = true ->
  strptime_date (strip (AutumnWindow.date_entry s)) = Some d ->
  strptime_time (strip (AutumnWindow.time_entry s)) = Some (h, mi) ->
  strip (AutumnWindow.time_entry s) <> pad2 h ++ ":" ++ pad2 mi ->
  let s' := snd (AutumnWindow.add_task false s) in
  let r := Autumn.mkRow (AutumnWindow.next_rowid (AutumnWindow.tasks s))
             (Some (strip (AutumnWindow.title_entry s)))
             (Some (strip (AutumnWindow.date_entry s)))
             (Some (strip (AutumnWindow.time_entry s)))
             (Some (strip (AutumnWindow.note_entry s))) in
  let rung rows now :=
    Autumn.alarms
      (Autumn.log (snd (Autumn.check_alarms now false (Autumn.start rows)))) in
  AutumnWindow.tasks s' = (AutumnWindow.tasks s ++ [r])%list /\
  forall now : datetime,
    valid_datetime now = true ->
    Autumn.due_at (format_key now) r = false /\
    rung (AutumnWindow.tasks s') now = rung (AutumnWindow.tasks s) now.
Proof.
  intros H1 H4 Hd Ht Hne s' r rung.
  assert (T2 : truthy (strip (AutumnWindow.date_entry s)) = true).
  { destruct (strip (AutumnWindow.date_entry s)); [discriminate Hd|reflexivity]. }
  assert (T3 : truthy (strip (AutumnWindow.time_entry s)) = true).
  { destruct (strip (AutumnWindow.time_entry s)); [discriminate Ht|reflexivity]. }
  assert (Htk : AutumnWindow.tasks s' = (AutumnWindow.tasks s ++ [r])%list).
  { unfold s'. now rewrite (autumn_add_task_accepted s d (h, mi)). }
  split; [exact Htk|].
  intros now Hn.
  assert (Hdue : Autumn.due_at (format_key now) r = false).
  { unfold Autumn.due_at. cbn [Autumn.date Autumn.time r].
    apply String.eqb_neq. intros E.
    apply (split_at_blank _ _ (format_date (dt_date now)) (format_time now))
      in E; [|apply no_blank_format_date|apply no_blank_format_time].
    destruct E as [_ E].
    unfold valid_datetime in Hn. rewrite !andb_true_iff, !Z.leb_le in Hn.
    destruct Hn as [[[[[[_ ?] ?] ?] ?] _] _].
    rewrite E in Ht. unfold format_time in Ht.
    rewrite strptime_time_format in Ht by lia.
    injection Ht as <- <-. apply Hne. exact E. }
  split; [exact Hdue|].
  unfold rung. rewrite Htk, !autumn_check_alarms.
  rewrite filter_app, map_app. cbn [filter]. rewrite Hdue.
  apply app_nil_r.
Qed.

Lemma autumn_short_time_never_rings_witness :
  let s := AutumnWindow.mkState [] "Dentist" "2024-01-01" "9:01"
             "bring card" [] in
  let s' := snd (AutumnWindow.add_task false s) in
  AutumnWindow.tasks s' =
    [Autumn.mkRow 1 (Some "Dentist") (Some "2024-01-01") (Some "9:01")
       (Some "bring card")] /\
  Autumn.alarms
    (Autumn.log
       (snd (Autumn.check_alarms (Scenario.jan1_at 9 1) false
               (Autumn.start (AutumnWindow.tasks s')))))
  = [].
Proof.
  intros s s'.
  destruct (autumn_short_time_never_rings s (mkdate 2024 1 1) 9 1
              eq_refl eq_refl eq_refl eq_refl ltac:(discriminate))
    as [Htk H].
  split; [exact Htk|].
  exact (proj2 (H (Scenario.jan1_at 9 1) eq_refl)).
Defined.


(** ** The MySQL planners never ring *)

Lemma hyper5_alarms_app (a b : list Hyper5.event) :
  Hyper5.alarms (a ++ b) = (Hyper5.alarms a ++ Hyper5.alarms b)%list.
Proof. apply flat_map_app. Qed.

Lemma hyper5_alarm_checker_idle (turns : list (datetime * bool)) :
  forall s : Hyper5.state,
    Hyper5.alarms (Hyper5.log (Hyper5.alarm_checker turns s))
    = Hyper5.alarms (Hyper5.log s) /\
    Hyper5.tasks (Hyper5.alarm_checker turns s) = Hyper5.tasks s.
Proof.
  unfold Hyper5.alarm_checker.
  induction turns as [|[t f] turns IH]; intros s; [split; reflexivity|].
  cbn [fold_left fst snd].
  destruct (IH (Hyper5.check_once t f s)) as [H1 H2].
  rewrite H1, H2, hyper5_pass_idle. cbn [Hyper5.log Hyper5.tasks].
  rewrite hyper5_alarms_app. destruct f; cbn [Hyper5.alarms flat_map];
    rewrite ?app_nil_r; split; reflexivity.
Qed.

(** X17. The alarm thread of the MySQL port [hyper5.py] never rings. For
    every table and every sequence of turns of its loop, whatever the clock
    reads and whether or not the connection or the query fails in a turn,
    no alarm is raised and the table stays as it is: the query compares
    [CONCAT(date, ' ', time)], which ends in the seconds of the [TIME]
    value, with a minute key that has none. *)
Theorem hyper5_thread_never_rings (turns : list (datetime * bool))
    (rows : list Hyper5.Row) :
  let s' := Hyper5.alarm_checker turns (Hyper5.start rows) in
  Hyper5.alarms (Hyper5.log s') = [] /\ Hyper5.tasks s' = rows.
Proof.
  cbv zeta.
  destruct (hyper5_alarm_checker_idle turns (Hyper5.start rows)) as [H1 H2].
  rewrite H1, H2. split; reflexivity.
Qed.

Lemma autumn2_never_due (t : datetime) (r : Autumn2.Row) :
  Autumn2.due_at (format_key t) r = false.
Proof.
  unfold Autumn2.due_at. apply String.eqb_neq. intros E.
  apply (f_equal colons) in E.
  rewrite colons_format_key, !colons_append, colons_format_date,
    colons_render_time in E.
  discriminate E.
Qed.

Lemma autumn2_alarms_app (a b : list Autumn2.event) :
  Autumn2.alarms (a ++ b) = (Autumn2.alarms a ++ Autumn2.alarms b)%list.
Proof. apply flat_map_app. Qed.

Lemma autumn2_check_once (t : datetime) (conn_fails : bool)
    (s : Autumn2.state) :
  Autumn2.tasks (Autumn2.check_once t conn_fails s) = Autumn2.tasks s /\
  Autumn2.alarms (Autumn2.log (Autumn2.check_once t conn_fails s))
  = Autumn2.alarms (Autumn2.log s).
Proof.
  unfold Autumn2.check_once, Autumn2.check_body. cbv zeta.
  destruct conn_fails; cbv beta iota delta [bind ret raise gets modify].
  - cbn [Autumn2.emit Autumn2.tasks Autumn2.log]. split; [reflexivity|].
    rewrite !autumn2_alarms_app. cbn [Autumn2.alarms flat_map].
    now rewrite !app_nil_r.
  - rewrite (filter_none _ (Autumn2.tasks s))
      by (intros r _; apply autumn2_never_due).
    cbn [for_each]. cbv beta iota delta [ret].
    cbn [Autumn2.emit Autumn2.tasks Autumn2.log]. split; [reflexivity|].
    rewrite autumn2_alarms_app. cbn [Autumn2.alarms flat_map].
    now rewrite app_nil_r.
Qed.

Lemma autumn2_alarm_checker_idle (turns : list (datetime * bool)) :
  forall s : Autumn2.state,
    Autumn2.alarms (Autumn2.log (Autumn2.alarm_checker turns s))
    = Autumn2.alarms (Autumn2.log s) /\
    Autumn2.tasks (Autumn2.alarm_checker turns s) = Autumn2.tasks s.
Proof.
  unfold Autumn2.alarm_checker.
  induction turns as [|[t f] turns IH]; intros s; [split; reflexivity|].
  cbn [fold_left fst snd].
  destruct (autumn2_check_once t f s) as [E1 E2].
  destruct (IH (Autumn2.check_once t f s)) as [H1 H2].
  rewrite H1, H2, E1, E2. split; reflexivity.
Qed.

(** X18. The alarm thread of the second planner of [autumn.py] never rings.
    For every table and every sequence of turns of its loop, whatever the
    clock reads and whether or not the connection fails, no alarm is raised
    and the table stays as it is: [CONCAT(task_date, ' ', task_time)] ends
    in seconds, the minute key does not. *)
Theorem autumn2_thread_never_rings (turns : list (datetime * bool))
    (rows : list Autumn2.Row) :
  let s' := Autumn2.alarm_checker turns (Autumn2.start rows) in
  Autumn2.alarms (Autumn2.log s') = [] /\ Autumn2.tasks s' = rows.
Proof.
  cbv zeta.
  destruct (autumn2_alarm_checker_idle turns (Autumn2.start rows)) as [H1 H2].
  rewrite H1, H2. split; reflexivity.
Qed.


(** ** A recurring task, day after day *)

Lemma days_later_add (a b : nat) (d : PyDate.date) :
  days_later a (days_later b d) = days_later (a + b) d.
Proof. induction a as [|a IH]; cbn [days_later Nat.add]; congruence. Qed.

Lemma format_date_inj (a b : PyDate.date) :
  valid_date a = true -> valid_date b = true ->
  format_date a = format_date b -> a = b.
Proof.
  intros Va Vb E. pose proof (strptime_format_date a Va) as Pa.
  rewrite E, (strptime_format_date b Vb) in Pa. now injection Pa.
Qed.

(* the dates of two occurrences are written alike only if they are the
   same occurrence *)
Lemma later_dates_differ (d : PyDate.date) (i j : nat) :
  valid_date d = true ->
  toordinal d + Z.of_nat i <= MAXORDINAL ->
  toordinal d + Z.of_nat j <= MAXORDINAL ->
  format_date (days_later i d) = format_date (days_later j d) -> i = j.
Proof.
  intros Hv Hi Hj E.
  destruct (days_later_ok i d Hv Hi) as [Vi Oi].
  destruct (days_later_ok j d Hv Hj) as [Vj Oj].
  apply (format_date_inj _ _ Vi Vj) in E. rewrite E in Oi. lia.
Qed.

Lemma fold_max_member (l : list Z) :
  forall a, fold_left Z.max l a = a \/ In (fold_left Z.max l a) l.
Proof.
  induction l as [|y l IH]; intros a; cbn [fold_left]; [now left|].
  destruct (IH (Z.max a y)) as [E|H]; [|right; now right].
  rewrite E. destruct (Z.max_spec a y) as [[_ ->]|[_ ->]];
    [right; now left|now left].
Qed.

Section Recurring.

Variables (m : Row) (d : PyDate.date) (h mi : Z) (rc : string) (step : nat).
Variables (sec : nat -> Z) (alive : nat -> bool).

Hypothesis m_recurrence : recurrence m = Some rc.
Hypothesis rc_step :
  (rc = "daily" /\ step = 1%nat) \/ (rc = "weekly" /\ step = 7%nat).
Hypothesis m_date : date m = format_date d.
Hypothesis m_time : time m = pad2 h ++ ":" ++ pad2 mi.
Hypothesis d_valid : valid_date d = true.

Let occ := occurrence m d step.
Let turn := occurrence_pass d h mi step sec alive.

Lemma occurrence_fields (j : nat) :
  id (occ j) = id m + Z.of_nat j /\ title (occ j) = title m /\
  date (occ j) = format_date (days_later (step * j) d) /\
  time (occ j) = time m /\ description (occ j) = description m /\
  recurrence (occ j) = Some rc.
Proof.
  destruct j as [|j]; cbn [occ occurrence id title date time description
                           recurrence].
  - rewrite Nat.mul_0_r. cbn [days_later Z.of_nat].
    repeat split; [lia|exact m_date|exact m_recurrence].
  - repeat split. exact m_recurrence.
Qed.

Lemma step_positive : (1 <= step)%nat.
Proof. destruct rc_step as [[_ ->]|[_ ->]]; lia. Qed.

Lemma rc_recurring : truthy rc && daily_or_weekly (lower rc) = true.
Proof. destruct rc_step as [[-> _]|[-> _]]; reflexivity. Qed.

(* the date that [compute_next_date] gives for an occurrence is the date
   of the next *)
Lemma next_occurrence_date (k : nat) :
  toordinal d + Z.of_nat (step * S k) <= MAXORDINAL ->
  compute_next_date (date (occ k)) (lower rc)
  = Return (Some (format_date (days_later (step * S k) d))).
Proof.
  intros Hb. destruct (occurrence_fields k) as (_ & _ & -> & _).
  assert (Hs := Hb). rewrite Nat.mul_succ_r, Nat2Z.inj_add in Hs.
  destruct (days_later_ok (step * k) d d_valid) as [Vk Ok]; [lia|].
  unfold compute_next_date. rewrite (strptime_format_date _ Vk).
  destruct rc_step as [[-> ->]|[-> ->]];
    cbn [lower ascii_lower N_of_ascii N_of_digits N.add N.mul N.leb N.compare
         Pos.compare Pos.compare_cont andb ascii_of_N String.eqb Ascii.eqb
         Bool.eqb].
  - rewrite add_one_day by first [exact Vk|unfold days_left; lia].
    replace (1 * S k)%nat with (S (1 * k)) by lia. reflexivity.
  - rewrite add_seven_days by first [exact Vk|unfold days_left; lia].
    rewrite days_later_add.
    replace (7 + 7 * k)%nat with (7 * S k)%nat by lia. reflexivity.
Qed.

Lemma occurrence_due (j k : nat) :
  toordinal d + Z.of_nat (step * j) <= MAXORDINAL ->
  toordinal d + Z.of_nat (step * k) <= MAXORDINAL ->
  due_at (format_key (now (turn k))) (occ j) = Nat.eqb j k.
Proof.
  intros Hj Hk. destruct (occurrence_fields j) as (_ & _ & Dj & Tj & _).
  unfold due_at. rewrite Dj, Tj, m_time.
  cbn [turn occurrence_pass now]. unfold format_key, format_time.
  cbn [dt_date hour minute].
  pose proof step_positive as Sp.
  destruct (Nat.eqb_spec j k) as [->|Hne]; [apply String.eqb_refl|].
  apply String.eqb_neq. intros E. apply Hne.
  apply append_inv_tail in E.
  apply (later_dates_differ d _ _ d_valid Hj Hk) in E. nia.
Qed.

Lemma occurrences_due (k : nat) :
  toordinal d + Z.of_nat (step * k) <= MAXORDINAL ->
  filter (due_at (format_key (now (turn k)))) (map occ (seq 0 (S k)))
  = [occ k].
Proof.
  intros Hk. pose proof step_positive as Sp.
  rewrite seq_S, map_app, filter_app. cbn [Nat.add map filter].
  rewrite occurrence_due, Nat.eqb_refl by lia.
  rewrite filter_none; [reflexivity|].
  intros r Hr. apply in_map_iff in Hr. destruct Hr as (j & <- & Hj).
  apply in_seq in Hj. rewrite occurrence_due by nia.
  apply Nat.eqb_neq. lia.
Qed.

Lemma occurrences_next_id (k : nat) :
  next_rowid (map occ (seq 0 (S k))) = id m + Z.of_nat (S k).
Proof.
  cbn [seq map next_rowid].
  assert (Hid : forall x, In x (map id (map occ (seq 1 k))) ->
                          id m < x <= id m + Z.of_nat k).
  { intros x Hx. rewrite map_map in Hx. apply in_map_iff in Hx.
    destruct Hx as (j & <- & Hj). apply in_seq in Hj.
    destruct (occurrence_fields j) as (-> & _). lia. }
  destruct (fold_max_bounds (map id (map occ (seq 1 k))) (id (occ 0)))
    as [B1 B2].
  destruct (occurrence_fields 0) as (E0 & _). rewrite E0 in *.
  destruct k as [|k].
  - cbn [seq map fold_left]. lia.
  - assert (Hk : In (id m + Z.of_nat (S k))
                   (map id (map occ (seq 1 (S k))))).
    { rewrite map_map. apply in_map_iff. exists (S k).
      split; [now destruct (occurrence_fields (S k)) as (-> & _)|].
      apply in_seq. lia. }
    specialize (B2 _ Hk).
    destruct (fold_max_member (map id (map occ (seq 1 (S k))))
                (id m + Z.of_nat 0)) as [E|H]; [lia|].
    apply Hid in H. lia.
Qed.

Lemma occurrences_lack_next (k : nat) :
  toordinal d + Z.of_nat (step * S k) <= MAXORDINAL ->
  has_occurrence (map occ (seq 0 (S k))) (title m)
    (format_date (days_later (step * S k) d)) (time m) rc = false.
Proof.
  intros Hb. pose proof step_positive as Sp.
  unfold has_occurrence.
  apply not_true_iff_false. intros H. apply existsb_exists in H.
  destruct H as (r & Hr & Hs). apply in_map_iff in Hr.
  destruct Hr as (j & <- & Hj). apply in_seq in Hj.
  unfold same_occurrence in Hs. rewrite !andb_true_iff in Hs.
  destruct Hs as [[[_ Hd] _] _]. apply String.eqb_eq in Hd.
  destruct (occurrence_fields j) as (_ & _ & Dj & _). rewrite Dj in Hd.
  apply (later_dates_differ d _ _ d_valid) in Hd; nia.
Qed.

(* one pass on the day of occurrence [k], over the table of the
   occurrences up to it *)
Lemma occurrence_pass_effect (k : nat) (s : state) :
  toordinal d + Z.of_nat (step * S k) <= MAXORDINAL ->
  tasks s = map occ (seq 0 (S k)) -> handled s = [] ->
  tasks (check_once (turn k) s) = map occ (seq 0 (S (S k))) /\
  alarms (log (check_once (turn k) s))
  = (alarms (log s) ++ [id m + Z.of_nat k])%list /\
  inserted (log (check_once (turn k) s))
  = (inserted (log s) ++ [occ (S k)])%list.
Proof.
  intros Hb Ht Hh. pose proof step_positive as Sp.
  destruct (occurrence_fields k) as (Ik & Tk & Dk & Tmk & Dsk & Rk).
  unfold check_once.
  rewrite check_body_working by reflexivity.
  change (tasks (ready (turn k) s)) with (tasks s). rewrite Ht.
  rewrite occurrences_due by nia.
  rewrite for_each_cons.
  rewrite process_fresh
    by (change (handled (ready (turn k) s)) with (handled s);
        now rewrite Hh).
  set (s1 := rung (format_key (now (turn k))) (root_alive (turn k)) (occ k)
               (ready (turn k) s)).
  rewrite (advance_recurring (occ k) s1 rc _ Rk rc_recurring
             (next_occurrence_date k Hb) (truthy_format_date _) eq_refl).
  change (tasks s1) with (tasks s). rewrite Ht, Tk, Tmk.
  rewrite (occurrences_lack_next k Hb).
  assert (Hsucc : successor (map occ (seq 0 (S k))) (occ k)
                    (format_date (days_later (step * S k) d)) rc
                  = occ (S k)).
  { unfold successor. rewrite occurrences_next_id, Tk, Tmk, Dsk.
    cbn [occ occurrence]. now rewrite m_recurrence. }
  rewrite Hsucc. cbn [for_each ret].
  cbn [tasks log emit with_tasks].
  split; [|split].
  - rewrite (seq_S (S k)), map_app. reflexivity.
  - unfold s1, rung, ready. cbn [log emit with_handled with_fuse].
    rewrite !alarms_app. cbn [alarms flat_map app]. rewrite Ik.
    rewrite !app_nil_r. reflexivity.
  - unfold s1, rung, ready. cbn [log emit with_handled with_fuse].
    rewrite !inserted_app. cbn [inserted flat_map app].
    now rewrite !app_nil_r.
Qed.

(* the thread over the passes of the occurrences [k], [k+1], ... *)
Lemma occurrence_passes_effect (n : nat) :
  forall (k : nat) (s : state),
    toordinal d + Z.of_nat (step * (k + n)) <= MAXORDINAL ->
    tasks s = map occ (seq 0 (S k)) -> handled s = [] ->
    let r := alarm_checker None (map turn (seq k n)) s in
    fst r = Running /\
    tasks (snd r) = map occ (seq 0 (S (k + n))) /\
    alarms (log (snd r))
    = (alarms (log s) ++ map (fun j => id m + Z.of_nat j) (seq k n))%list /\
    inserted (log (snd r))
    = (inserted (log s) ++ map occ (seq (S k) n))%list.
Proof.
  pose proof step_positive as Sp.
  induction n as [|n IH]; intros k s Hb Ht Hh; cbv zeta.
  - cbn [seq map]. rewrite alarm_checker_nil, is_set_never.
    cbn [fst snd]. rewrite log_emit, log_with_polls, Nat.add_0_r.
    rewrite alarms_app, inserted_app. cbn [alarms inserted flat_map].
    rewrite !app_nil_r. repeat split. exact Ht.
  - cbn [seq map]. rewrite alarm_checker_cons, is_set_never.
    cbn [fst snd].
    set (s0 := emit (Polled false) (with_polls (S (polls s)) s)).
    destruct (occurrence_pass_effect k s0 ltac:(nia) Ht Hh)
      as (P1 & P2 & P3).
    destruct (sleep_loop_trace None 7 (check_once (turn k) s0))
      as (evs & Sl & _ & Sa & Si & St & _).
    destruct (IH (S k)
                (with_handled [] (sleep_loop None 7 (check_once (turn k) s0))))
      as (R1 & R2 & R3 & R4).
    + replace (S k + n)%nat with (k + S n)%nat by lia. exact Hb.
    + rewrite tasks_with_handled, St. exact P1.
    + reflexivity.
    + cbv zeta in R1, R2, R3, R4.
      rewrite log_with_handled, Sl in R3, R4.
      rewrite alarms_app, Sa, app_nil_r, P2 in R3.
      rewrite inserted_app, Si, app_nil_r, P3 in R4.
      assert (A0 : alarms (log s0) = alarms (log s)).
      { unfold s0. rewrite log_emit, log_with_polls, alarms_app.
        cbn [alarms flat_map]. apply app_nil_r. }
      assert (I0 : inserted (log s0) = inserted (log s)).
      { unfold s0. rewrite log_emit, log_with_polls, inserted_app.
        cbn [inserted flat_map]. apply app_nil_r. }
      rewrite A0 in R3. rewrite I0 in R4.
      replace (S k + n)%nat with (k + S n)%nat in R2 by lia.
      split; [exact R1|]. split; [exact R2|].
      rewrite R3, R4, <- !app_assoc. split; reflexivity.
Qed.

End Recurring.

(** X19. A recurring task rings at every occurrence, once. Start the thread
    on a table that holds one task, [daily] or [weekly], with its date
    written [YYYY-MM-DD] and its time [HH:MM], and let it make one pass in
    the minute of the task on each of the first [n] days on which the task
    is due (the store working, the stop event not set, the calendar not at
    its end). Then each pass raises one alarm, that of the occurrence of its
    day, and inserts the row of the next occurrence: in the end the table
    holds the task and one row for each of the [n] following occurrences,
    with the next ids, the same title, time, description and recurrence,
    [completed = 0], and dates one day (or seven days) apart. *)
Theorem recurring_task_rings_every_time (m : Row) (d : PyDate.date)
    (h mi : Z) (rc : string) (step : nat) (sec : nat -> Z)
    (alive : nat -> bool) (n : nat) :
  recurrence m = Some rc ->
  (rc = "daily" /\ step = 1%nat) \/ (rc = "weekly" /\ step = 7%nat) ->
  date m = format_date d ->
  time m = pad2 h ++ ":" ++ pad2 mi ->
  valid_date d = true ->
  toordinal d + Z.of_nat (step * n) <= MAXORDINAL ->
  let r := alarm_checker None
             (map (occurrence_pass d h mi step sec alive) (seq 0 n))
             (start [m]) in
  fst r = Running /\
  tasks (snd r) = map (occurrence m d step) (seq 0 (S n)) /\
  alarms (log (snd r)) = map (fun j => id m + Z.of_nat j) (seq 0 n) /\
  inserted (log (snd r)) = map (occurrence m d step) (seq 1 n).
Proof.
  intros Hr Hs Hd Ht Hv Hb.
  exact (occurrence_passes_effect m d h mi rc step sec alive Hr Hs Hd Ht Hv
           n 0%nat (start [m]) Hb eq_refl eq_refl).
Qed.

Lemma recurring_task_rings_every_time_witness :
  let r := alarm_checker None
             (map (occurrence_pass (mkdate 2024 1 1) 9 0 1 (fun _ => 5)
                     (fun _ => true)) (seq 0 3))
             (start [Scenario.math_hw]) in
  alarms (log (snd r)) = [1; 2; 3] /\
  map date (tasks (snd r))
  = ["2024-01-01"; "2024-01-02"; "2024-01-03"; "2024-01-04"].
Proof.
  intros r.
  destruct (recurring_task_rings_every_time Scenario.math_hw
              (mkdate 2024 1 1) 9 0 "daily" 1 (fun _ => 5) (fun _ => true) 3
              eq_refl (or_introl (conj eq_refl eq_refl)) eq_refl eq_refl
              eq_refl ltac:(vm_compute; discriminate))
    as (_ & Htk & Ha & _).
  fold r in Htk, Ha. rewrite Htk, Ha. split; reflexivity.
Defined.


(** ** The SQLite thread on any table *)

(** X20. A pass of the SQLite thread rings the rows that are due, and those
    only. On a table whose ids are distinct, every alarm of a pass is the
    alarm of a row whose date and time, joined by a blank, are the minute
    key of the clock; a pass that runs to its end raises the alarm of every
    such row, once, in the order of the table; and a row whose date and
    time are written [YYYY-MM-DD] and [HH:MM] is due exactly when the clock
    reads its day, hour and minute, whatever the seconds. *)
Theorem sqlite_pass_rings_the_due_rows (p : pass) (rows : list Row) :
  NoDup (map id rows) ->
  let key := format_key (now p) in
  let rung := alarms (log (check_once p (start rows))) in
  (forall i, In i rung ->
     exists r, In r rows /\ id r = i /\ due_at key r = true) /\
  (abandoned p (start rows) = false ->
   rung = map id (filter (due_at key) rows)) /\
  (valid_datetime (now p) = true ->
   forall r t, App.written r t ->
     (due_at key r = true <->
      dt_date (now p) = dt_date t /\ hour (now p) = hour t /\
      minute (now p) = minute t)).
Proof.
  intros Hnd key rung.
  destruct (pass_fires_due_rows p (start rows) eq_refl Hnd)
    as (evs & Hl & Hin & _ & Hall).
  cbv zeta in Hl, Hin, Hall. fold key in Hl, Hin, Hall.
  assert (Hr : rung = alarms evs).
  { unfold rung. rewrite Hl. reflexivity. }
  split; [|split].
  - intros i Hi. rewrite Hr in Hi. destruct (Hin i Hi) as (r & H1 & H2 & H3).
    exists r. repeat split; try assumption.
    unfold due_at. now apply String.eqb_eq.
  - intros Hab. rewrite Hr. now apply Hall.
  - intros Hv r t (Vt & Dr & Tr). unfold due_at. rewrite String.eqb_eq, Dr, Tr.
    change (format_date (dt_date t) ++ " " ++ format_time t)
      with (format_key t).
    split.
    + intros E. symmetry in E. now apply format_key_inj.
    + intros (E1 & E2 & E3). unfold key, format_key, format_time.
      now rewrite E1, E2, E3.
Qed.

Lemma sqlite_pass_rings_the_due_rows_witness :
  alarms (log (check_once (Scenario.jan1 9 0)
                 (start [Scenario.math_hw; Scenario.one_off;
                         mkRow 3 "Later" "2024-01-01" "09:01" None (Some 0)
                           (Some "none")])))
  = [1; 2].
Proof.
  assert (Hnd : NoDup (map id [Scenario.math_hw; Scenario.one_off;
                               mkRow 3 "Later" "2024-01-01" "09:01" None
                                 (Some 0) (Some "none")])).
  { repeat constructor; cbn; intuition discriminate. }
  exact (proj1 (proj2 (sqlite_pass_rings_the_due_rows (Scenario.jan1 9 0) _
                         Hnd)) eq_refl).
Defined.

Lemma alarm_checker_keeps_rows (passes : list pass) :
  forall s : state,
    exists new : list Row,
      tasks (snd (alarm_checker None passes s)) = (tasks s ++ new)%list.
Proof.
  induction passes as [|p rest IH]; intros s.
  - exists []. rewrite alarm_checker_nil, is_set_never. cbn [snd].
    now rewrite app_nil_r.
  - rewrite alarm_checker_cons, is_set_never. cbn [fst snd].
    set (s0 := emit (Polled false) (with_polls (S (polls s)) s)).
    destruct (check_once_table p s0) as (new1 & H1 & _).
    destruct (sleep_loop_trace None 7 (check_once p s0))
      as (evs & _ & _ & _ & _ & St & _).
    destruct (IH (with_handled [] (sleep_loop None 7 (check_once p s0))))
      as (new2 & H2).
    exists (new1 ++ new2)%list.
    rewrite H2, tasks_with_handled, St, H1, app_assoc. reflexivity.
Qed.

(** X21. A failing store does not stop the SQLite thread. While the stop
    event is not set, the thread makes every pass that the clock allows
    for, whichever store calls failed in the passes before; no pass, failed
    or not, takes a row out of the table; and a pass that is abandoned has
    printed its error as the last thing it did. *)
Theorem sqlite_thread_survives_failures (passes : list pass) (s : state) :
  let r := alarm_checker None passes s in
  fst r = Running /\
  clock_reads (log (snd r))
  = (clock_reads (log s) ++ map (fun p => format_key (now p)) passes)%list /\
  (exists new, tasks (snd r) = (tasks s ++ new)%list) /\
  (forall p s0, abandoned p s0 = true ->
     exists evs e,
       log (check_once p s0)
       = (log s0 ++ ClockRead (format_key (now p)) :: evs ++ [Printed e])%list).
Proof.
  cbv zeta. destruct (failed_pass_goes_on passes s) as [H1 H2].
  split; [exact H1|]. split; [exact H2|].
  split; [apply alarm_checker_keeps_rows|].
  intros p s0. apply abandoned_pass_printed.
Qed.


(** ** What the window's check of date and time lets through *)

(* what a parser leaves is the end of what it was given *)
Lemma two_chars_shape (tens : ascii) (lo hi : Z) (s : string) (v : Z)
    (r : string) :
  two_chars tens lo hi s = Some (v, r) ->
  exists c1 c2, s = String c1 (String c2 r).
Proof.
  destruct s as [|c1 [|c2 s]]; try discriminate. unfold two_chars.
  destruct (c1 =? tens)%char; [|discriminate].
  destruct (digit_val c2) as [w|]; [|discriminate].
  destruct (digit_val c1); destruct (in_range lo hi w); try discriminate;
    intros H; injection H as _ <-; now exists c1, c2.
Qed.

Lemma one_char_shape (lo hi : Z) (s : string) (v : Z) (r : string) :
  one_char lo hi s = Some (v, r) -> exists c, s = String c r.
Proof.
  destruct s as [|c s]; [discriminate|]. unfold one_char.
  destruct (digit_val c) as [w|]; [|discriminate].
  destruct (in_range lo hi w); [|discriminate].
  intros H. injection H as _ <-. now exists c.
Qed.

Lemma or_else_shape (s r : string) (v : Z) (a b : option (Z * string)) :
  (forall v r, a = Some (v, r) -> one_or_two s r) ->
  (forall v r, b = Some (v, r) -> one_or_two s r) ->
  or_else a b = Some (v, r) -> one_or_two s r.
Proof.
  intros Ha Hb. destruct a as [[v' r']|]; cbn [or_else]; intros H.
  - injection H as -> ->. now apply (Ha v r).
  - now apply (Hb v r).
Qed.

Ltac shape :=
  repeat first
    [ apply or_else_shape; intros ? ?
    | intros H; apply two_chars_shape in H; right; exact H
    | intros H; apply one_char_shape in H; left; exact H ].

Lemma parse_month_shape (s : string) (v : Z) (r : string) :
  parse_month s = Some (v, r) -> one_or_two s r.
Proof. unfold parse_month. shape. Qed.

Lemma parse_day_shape (s : string) (v : Z) (r : string) :
  parse_day s = Some (v, r) -> one_or_two s r.
Proof. unfold parse_day. shape. Qed.

Lemma parse_hour_shape (s : string) (v : Z) (r : string) :
  parse_hour s = Some (v, r) -> one_or_two s r.
Proof. unfold parse_hour. shape. Qed.

Lemma parse_minute_shape (s : string) (v : Z) (r : string) :
  parse_minute s = Some (v, r) -> one_or_two s r.
Proof. unfold parse_minute. shape. Qed.

Lemma parse_year_shape (s : string) (y : Z) (r : string) :
  parse_year s = Some (y, r) ->
  exists c1 c2 c3 c4, s = String c1 (String c2 (String c3 (String c4 r))).
Proof.
  destruct s as [|c1 [|c2 [|c3 [|c4 s]]]]; try discriminate.
  unfold parse_year, opt_bind.
  destruct (digit_val c1), (digit_val c2), (digit_val c3), (digit_val c4);
    try discriminate.
  intros H. injection H as _ <-. now exists c1, c2, c3, c4.
Qed.

Lemma expect_shape (c : ascii) (s r : string) :
  expect c s = Some r -> s = String c r.
Proof.
  destruct s as [|c' s]; [discriminate|]. cbn [expect].
  destruct (Ascii.eqb_spec c' c) as [->|]; [|discriminate].
  intros H. now injection H as <-.
Qed.

Lemma backwards_append (a b : string) :
  backwards (a ++ b) = (backwards b ++ backwards a)%list.
Proof.
  induction a as [|c a IH]; cbn [append backwards].
  - now rewrite app_nil_r.
  - now rewrite IH, app_assoc.
Qed.

Lemma backwards_inj (a : string) :
  forall b, backwards a = backwards b -> a = b.
Proof.
  induction a as [|c a IH]; intros [|c' b]; cbn [backwards]; intros E.
  - reflexivity.
  - destruct (backwards b); discriminate E.
  - destruct (backwards a); discriminate E.
  - apply app_inj_tail in E. destruct E as [E ->]. f_equal. now apply IH.
Qed.

(* what [rstrip] leaves ends in no whitespace *)
Lemma rstrip_end (s : string) :
  match backwards (rstrip s) with
  | [] => True
  | c :: _ => is_space c = false
  end.
Proof.
  induction s as [|c s IH]; cbn [rstrip backwards]; [exact I|].
  destruct (rstrip s) as [|c' r'].
  - destruct (is_space c) eqn:E; cbn [backwards app]; [exact I|exact E].
  - change (backwards (String c (String c' r')))
      with (backwards (String c' r') ++ [c])%list.
    destruct (backwards (String c' r')) as [|x l] eqn:E.
    + cbn [backwards] in E. destruct (backwards r'); discriminate E.
    + exact IH.
Qed.

Lemma lstrip_split (s : string) :
  exists w, s = w ++ lstrip s /\ blank_only w = true.
Proof.
  induction s as [|c s (w & E & B)]; cbn [lstrip].
  - now exists EmptyString.
  - destruct (is_space c) eqn:Hc.
    + exists (String c w). cbn [append blank_only]. rewrite Hc, B.
      split; [now rewrite <- E|reflexivity].
    + now exists EmptyString.
Qed.

Lemma blank_only_backwards (w : string) :
  blank_only w = true -> Forall (fun c => is_space c = true) (backwards w).
Proof.
  induction w as [|c w IH]; cbn [blank_only backwards]; [constructor|].
  rewrite andb_true_iff. intros [Hc Hw]. apply Forall_app.
  split; [now apply IH|now repeat constructor].
Qed.

Lemma digit_char_not_colon_eq (n : Z) : digit_char n <> ":"%char.
Proof.
  intros E. pose proof (digit_char_not_colon n) as H. rewrite E in H.
  discriminate H.
Qed.

(** In a text that ends in a blank, an hour and a minute on two digits each,
    and that has no whitespace before that blank, the time of the format
    begins at that blank: whatever the parser took before [\s+], it took
    all of the text before the blank. *)
Lemma time_part_begins_at_blank (ds p r5 r6 r7 r8 : string) (h mi hh mm : Z) :
  ds ++ String " " (pad2 h ++ ":" ++ pad2 mi) = p ++ r5 ->
  rstrip ds = ds ->
  spaces r5 = Some r6 ->
  parse_hour r6 = Some (hh, r7) ->
  expect ":" r7 = Some r8 ->
  parse_minute r8 = Some (mm, EmptyString) ->
  p = ds /\ r5 = String " " (pad2 h ++ ":" ++ pad2 mi).
Proof.
  intros E Hs H5 H6 H7 H8.
  assert (Hend := rstrip_end ds). rewrite Hs in Hend.
  destruct r5 as [|w r5']; [discriminate H5|]. cbn [spaces] in H5.
  destruct (is_space w) eqn:Hw; [|discriminate H5]. injection H5 as <-.
  destruct (lstrip_split r5') as (ws & E5 & Bw).
  apply blank_only_backwards in Bw.
  apply expect_shape in H7. subst r7.
  apply (f_equal backwards) in E.
  rewrite !backwards_append in E. rewrite E5 in E.
  cbn [backwards] in E. rewrite !backwards_append in E.
  unfold pad2 in E. cbn [append backwards app] in E.
  rewrite <- !app_assoc in E. cbn [app] in E.
  pose proof (is_space_digit_char (h / 10)) as S1.
  pose proof (digit_char_not_colon_eq (mi / 10)) as C1.
  assert (Hclose : forall a1 a2 n1 n2 : ascii,
            lstrip r5' = String a1 (String a2 (String ":" (String n1
                           (String n2 EmptyString)))) ->
            p = ds /\
            String w r5' = String " " (pad2 h ++ ":" ++ pad2 mi)).
  { intros a1 a2 n1 n2 E6. rewrite E6 in E.
    cbn [backwards app] in E. rewrite <- ?app_assoc in E. cbn [app] in E.
    injection E as <- <- <- <- E.
    destruct (backwards ws) as [|w1 wr] eqn:Ews; cbn [app] in E.
    - injection E as <- E. apply backwards_inj in E.
      destruct ws; [|cbn [backwards] in Ews;
                     destruct (backwards ws); discriminate Ews].
      cbn [append] in E5. rewrite E5, E6. split; [now symmetry|reflexivity].
    - exfalso. injection E as _ E. rewrite E in Hend.
      apply Forall_inv_tail in Bw.
      destruct wr as [|w2 wr]; cbn [app] in Hend.
      + congruence.
      + apply Forall_inv in Bw. congruence. }
  destruct (parse_hour_shape _ _ _ H6) as [(a & E6)|(a1 & a2 & E6)];
    destruct (parse_minute_shape _ _ _ H8) as [(n1 & E8)|(n1 & n2 & E8)];
    subst r8.
  - exfalso. rewrite E6 in E. cbn [backwards app] in E.
    rewrite <- ?app_assoc in E. cbn [app] in E.
    injection E as _ E _. now apply C1.
  - exfalso. rewrite E6 in E. cbn [backwards app] in E.
    rewrite <- ?app_assoc in E. cbn [app] in E.
    injection E as _ _ _ E.
    destruct (backwards ws) as [|w1 wr]; cbn [app] in E.
    + injection E as E _. congruence.
    + injection E as E _. apply Forall_inv in Bw. congruence.
  - exfalso. rewrite E6 in E. cbn [backwards app] in E.
    rewrite <- ?app_assoc in E. cbn [app] in E.
    injection E as _ E _. now apply C1.
  - now apply (Hclose a1 a2 n1 n2).
Qed.

Lemma one_or_two_length (s r : string) :
  one_or_two s r ->
  String.length s = S (String.length r) \/
  String.length s = S (S (String.length r)).
Proof. intros [(c & ->)|(c1 & c2 & ->)]; cbn [String.length]; auto. Qed.

Lemma cut_year (a x : string) (y : Z) (r : string) :
  parse_year (a ++ x) = Some (y, r) -> (4 <= String.length a)%nat ->
  exists a', r = a' ++ x /\ parse_year a = Some (y, a').
Proof.
  destruct a as [|c1 [|c2 [|c3 [|c4 a]]]]; cbn [String.length]; try lia.
  intros H _. cbn [append] in H. unfold parse_year, opt_bind in *.
  destruct (digit_val c1), (digit_val c2), (digit_val c3), (digit_val c4);
    try discriminate.
  injection H as <- <-. now exists a.
Qed.

Lemma cut_expect (c : ascii) (a x r : string) :
  expect c (a ++ x) = Some r -> (1 <= String.length a)%nat ->
  exists a', r = a' ++ x /\ expect c a = Some a'.
Proof.
  destruct a as [|c' a]; cbn [String.length]; [lia|].
  intros H _. cbn [append expect] in *.
  destruct (c' =? c)%char; [|discriminate]. injection H as <-. now exists a.
Qed.

Lemma cut_month (a x : string) (m : Z) (r : string) :
  parse_month (a ++ x) = Some (m, r) -> (2 <= String.length a)%nat ->
  exists a', r = a' ++ x /\ parse_month a = Some (m, a').
Proof.
  destruct a as [|c1 [|c2 a]]; cbn [String.length]; try lia.
  intros H _. cbn [append] in H. rewrite parse_month_more in H.
  destruct (parse_month (String c1 (String c2 a))) as [[m' a']|];
    [|discriminate]. cbn [more] in H. injection H as <- <-. now exists a'.
Qed.

Lemma cut_day (a z : string) (d : Z) :
  parse_day (a ++ String " " z) = Some (d, String " " z) ->
  parse_day a = Some (d, EmptyString).
Proof.
  destruct a as [|c1 [|c2 a]]; cbn [append]; intros H.
  - exfalso. apply parse_day_shape, one_or_two_length in H.
    cbn [String.length] in H. lia.
  - revert H. unfold parse_day, two_chars.
    change (digit_val " ") with (@None Z).
    destruct (c1 =? "3")%char, (c1 =? "1")%char, (c1 =? "2")%char,
      (c1 =? "0")%char, (c1 =? " ")%char; cbn [or_else];
      unfold one_char; destruct (digit_val c1) as [v|];
      try discriminate;
      destruct (in_range 1 9 v); cbn [or_else]; try discriminate;
      intros H; injection H as <-; reflexivity.
  - change (String " " z) with (EmptyString ++ String " " z) in H at 2.
    rewrite parse_day_more in H.
    destruct (parse_day (String c1 (String c2 a))) as [[d' a']|];
      [|discriminate]. cbn [more] in H. injection H as <- E.
    change (String " " z) with (EmptyString ++ String " " z) in E at 2.
    apply append_inv_tail in E. now subst a'.
Qed.

(** With the hour and the minute of the menus, the window's check accepts
    a date text (stripped of whitespace at its ends) only if [strptime]
    takes that text for a date. *)
Lemma checked_date_parses (ds : string) (h mi : Z) (t : datetime) :
  rstrip ds = ds ->
  strptime_datetime (ds ++ " " ++ pad2 h ++ ":" ++ pad2 mi) = Some t ->
  strptime_date ds = Some (dt_date t).
Proof.
  intros Hs. unfold strptime_datetime, strptime_date.
  set (x := " " ++ pad2 h ++ ":" ++ pad2 mi).
  destruct (parse_year (ds ++ x)) as [[y r1]|] eqn:E1; [|discriminate].
  cbn [opt_bind].
  destruct (expect "-" r1) as [r2|] eqn:E2; [|discriminate]. cbn [opt_bind].
  destruct (parse_month r2) as [[m r3]|] eqn:E3; [|discriminate].
  cbn [opt_bind].
  destruct (expect "-" r3) as [r4|] eqn:E4; [|discriminate]. cbn [opt_bind].
  destruct (parse_day r4) as [[dd r5]|] eqn:E5; [|discriminate].
  cbn [opt_bind].
  destruct (spaces r5) as [r6|] eqn:E6; [|discriminate]. cbn [opt_bind].
  destruct (parse_hour r6) as [[hh r7]|] eqn:E7; [|discriminate].
  cbn [opt_bind].
  destruct (expect ":" r7) as [r8|] eqn:E8; [|discriminate]. cbn [opt_bind].
  destruct (parse_minute r8) as [[mm r9]|] eqn:E9; [|discriminate].
  cbn [opt_bind]. destruct r9; [|discriminate].
  (* the text before what is left for the time *)
  assert (Hp : exists p, ds ++ x = p ++ r5).
  { destruct (parse_year_shape _ _ _ E1) as (c1 & c2 & c3 & c4 & S1).
    pose proof (expect_shape _ _ _ E2) as S2.
    pose proof (expect_shape _ _ _ E4) as S4.
    destruct (parse_month_shape _ _ _ E3) as [(a & S3)|(a & b & S3)];
      destruct (parse_day_shape _ _ _ E5) as [(e & S5)|(e & f & S5)];
      rewrite S1, S2, S3, S4, S5;
      [ exists (String c1 (String c2 (String c3 (String c4 (String "-"
                 (String a (String "-" (String e EmptyString))))))))
      | exists (String c1 (String c2 (String c3 (String c4 (String "-"
                 (String a (String "-" (String e (String f EmptyString)))))))))
      | exists (String c1 (String c2 (String c3 (String c4 (String "-"
                 (String a (String b (String "-" (String e EmptyString)))))))))
      | exists (String c1 (String c2 (String c3 (String c4 (String "-"
                 (String a (String b (String "-"
                 (String e (String f EmptyString))))))))))];
      reflexivity. }
  destruct Hp as (p & Hp).
  destruct (time_part_begins_at_blank ds p r5 r6 r7 r8 h mi hh mm Hp Hs
              E6 E7 E8 E9) as [_ E]. subst r5.
  (* the lengths of what the fields of the date took *)
  pose proof (parse_year_shape _ _ _ E1) as (c1 & c2 & c3 & c4 & S1).
  apply (f_equal String.length) in S1. rewrite length_append in S1.
  cbn [String.length] in S1.
  pose proof (f_equal String.length (expect_shape _ _ _ E2)) as S2.
  pose proof (one_or_two_length _ _ (parse_month_shape _ _ _ E3)) as S3.
  pose proof (f_equal String.length (expect_shape _ _ _ E4)) as S4.
  pose proof (one_or_two_length _ _ (parse_day_shape _ _ _ E5)) as S5.
  cbn [String.length] in S2, S4.
  change (String " " (pad2 h ++ ":" ++ pad2 mi)) with x in E5, S5.
  destruct (cut_year ds x y r1 E1 ltac:(lia)) as (a1 & -> & Q1).
  rewrite length_append in *.
  destruct (cut_expect _ a1 x r2 E2 ltac:(lia)) as (a2 & -> & Q2).
  rewrite length_append in *.
  destruct (cut_month a2 x m r3 E3 ltac:(lia)) as (a3 & -> & Q3).
  rewrite length_append in *.
  destruct (cut_expect _ a3 x r4 E4 ltac:(lia)) as (a4 & -> & Q4).
  rewrite Q1. cbn [opt_bind]. rewrite Q2. cbn [opt_bind].
  rewrite Q3. cbn [opt_bind]. rewrite Q4. cbn [opt_bind].
  rewrite (cut_day a4 _ dd E5). cbn [opt_bind].
  destruct (valid_date (mkdate y m dd)); [|discriminate].
  intros H. now injection H as <-.
Qed.


(** ** The dates in the table *)

Lemma rstrip_again (s : string) : rstrip (rstrip s) = rstrip s.
Proof.
  induction s as [|c s IH]; [reflexivity|]. cbn [rstrip].
  destruct (rstrip s) as [|c' r'] eqn:E.
  - destruct (is_space c) eqn:Hc; [reflexivity|]. cbn [rstrip].
    now rewrite Hc.
  - change (rstrip (String c (String c' r')))
      with (match rstrip (String c' r') with
            | EmptyString =>
                if is_space c then EmptyString else String c EmptyString
            | String a b => String c (String a b)
            end).
    now rewrite IH.
Qed.

Lemma rstrip_strip (s : string) : rstrip (strip s) = strip s.
Proof. unfold strip. apply rstrip_again. Qed.

(* the date that [compute_next_date] returns is one it would take *)
Lemma next_date_dated (ds rc nd : string) :
  compute_next_date ds rc = Return (Some nd) ->
  exists d, strptime_date nd = Some d.
Proof.
  unfold compute_next_date.
  destruct (strptime_date ds) as [d|] eqn:Hp; [|discriminate].
  pose proof (strptime_date_valid _ _ Hp) as Hv.
  assert (K : forall n : nat, forall d',
            add_days d (Z.of_nat n) = Some d' ->
            exists x, strptime_date (format_date d') = Some x).
  { intros n d' Ha. destruct (add_days_later n d d' Hv Ha) as [Hv' _].
    exists d'. now apply strptime_format_date. }
  destruct (rc =? "daily")%string.
  - destruct (add_days d 1) as [d'|] eqn:Ha; [|discriminate].
    intros H. injection H as <-. exact (K 1%nat d' Ha).
  - destruct (rc =? "weekly")%string; [|discriminate].
    destruct (add_days d 7) as [d'|] eqn:Ha; [|discriminate].
    intros H. injection H as <-. exact (K 7%nat d' Ha).
Qed.

Lemma dated_no_value_error (r : Row) (rc : string) :
  dated r = true -> compute_next_date (date r) rc <> Raise ValueError.
Proof.
  unfold dated, compute_next_date.
  destruct (strptime_date (date r)) as [d|]; [intros _|discriminate].
  destruct (rc =? "daily")%string; [destruct (add_days d 1); discriminate|].
  destruct (rc =? "weekly")%string; [destruct (add_days d 7)|]; discriminate.
Qed.

Lemma dated_checked (m : Row) (h mi : Z) (t : datetime) :
  rstrip (date m) = date m ->
  strptime_datetime (date m ++ " " ++ pad2 h ++ ":" ++ pad2 mi) = Some t ->
  dated m = true.
Proof.
  intros Hs Hp. unfold dated.
  now rewrite (checked_date_parses _ h mi t Hs Hp).
Qed.

Lemma refresh_tasks (order_by : list Row -> list Row) (clock : datetime)
    (s : App.state) :
  App.tasks (snd (App.refresh_upcoming_panel order_by clock s)) = App.tasks s.
Proof. exact (proj1 (refresh_frame order_by clock s)). Qed.

Lemma add_task_dated (order_by : list Row -> list Row) (clock : datetime)
    (s : App.state) (h mi : Z) :
  App.hour_var s = pad2 h -> App.min_var s = pad2 mi ->
  Forall (fun r => dated r = true) (App.tasks s) ->
  Forall (fun r => dated r = true)
    (App.tasks (snd (App.add_task order_by clock s))).
Proof.
  intros Hh Hm H. unfold App.add_task. unfold_app. rewrite Hh, Hm.
  destruct (negb (truthy (strip (App.title_entry s)))); [exact H|].
  destruct (strptime_datetime _) as [t|] eqn:E; [|exact H]. cbv beta.
  destruct (App.fuse s) as [[|n]|]; [exact H| |];
    rewrite refresh_tasks; cbn [App.tasks App.clear_entries App.emit
                                App.with_tasks App.with_fuse];
    (apply Forall_app; split; [exact H|]);
    (apply Forall_cons; [|apply Forall_nil]);
    (apply (dated_checked _ h mi t); [apply rstrip_strip|exact E]).
Qed.

Lemma update_row_dated (tid : Z) (nt nd ntm ndesc nrc : string) (r : Row) :
  (exists d, strptime_date nd = Some d) ->
  dated r = true ->
  dated (App.update_row tid nt nd ntm ndesc nrc r) = true.
Proof.
  intros (d & Hd) H. unfold App.update_row.
  destruct (id r =? tid); [|exact H]. unfold dated. cbn [date].
  now rewrite Hd.
Qed.

Lemma update_task_dated (order_by : list Row -> list Row) (clock : datetime)
    (tid : Z) (nt nd ndesc nrc : string) (h mi : Z) (s : App.state) :
  rstrip nd = nd ->
  Forall (fun r => dated r = true) (App.tasks s) ->
  Forall (fun r => dated r = true)
    (App.tasks
       (snd (App.update_task order_by clock tid nt nd
               (pad2 h ++ ":" ++ pad2 mi) ndesc nrc s))).
Proof.
  intros Hs H. unfold App.update_task.
  destruct (strptime_datetime _) as [t|] eqn:E; [|exact H]. unfold_app.
  assert (K : Forall (fun r => dated r = true)
                (map (App.update_row tid nt nd (pad2 h ++ ":" ++ pad2 mi)
                        ndesc nrc) (App.tasks s))).
  { apply Forall_map. revert H. apply Forall_impl. intros r.
    apply update_row_dated. exists (dt_date t).
    exact (checked_date_parses nd h mi t Hs E). }
  destruct (App.fuse s) as [[|n]|]; [exact H| |];
    rewrite refresh_tasks; exact K.
Qed.

Lemma filter_dated (f : Row -> bool) (rows : list Row) :
  Forall (fun r => dated r = true) rows ->
  Forall (fun r => dated r = true) (filter f rows).
Proof.
  intros H. apply Forall_forall. intros r Hr. apply filter_In in Hr.
  exact (proj1 (Forall_forall _ _) H r (proj1 Hr)).
Qed.

Lemma save_and_close_dated (order_by : list Row -> list Row)
    (clock : datetime) (tid : Z) (title_e desc_e date_e rvar : string)
    (h mi : Z) (refresh_cb : option (M App.state unit)) (s : App.state) :
  (forall cb s0, refresh_cb = Some cb ->
     App.tasks (snd (cb s0)) = App.tasks s0) ->
  Forall (fun r => dated r = true) (App.tasks s) ->
  Forall (fun r => dated r = true)
    (App.tasks
       (snd (App.save_and_close order_by clock tid title_e desc_e date_e
               (pad2 h) (pad2 mi) rvar refresh_cb s))).
Proof.
  intros Hcb H. unfold App.save_and_close. cbv zeta.
  destruct (negb (truthy (strip title_e))); [exact H|].
  pose proof (update_task_dated order_by clock tid (strip title_e)
                (strip date_e) (strip desc_e) rvar h mi s
                (rstrip_strip date_e) H) as K.
  cbv beta iota delta [bind ret raise gets modify].
  destruct (App.update_task order_by clock tid (strip title_e)
              (strip date_e) (pad2 h ++ ":" ++ pad2 mi) (strip desc_e) rvar s)
    as [[[]|e] s1]; cbn [snd] in K |- *; [|exact K].
  destruct refresh_cb as [cb|]; [|exact K].
  pose proof (Hcb cb s1 eq_refl) as Kc.
  destruct (cb s1) as [[[]|e] s2]; cbn [snd] in Kc |- *;
    cbn [App.tasks App.emit]; rewrite Kc; exact K.
Qed.

(* no exception of the recurrence step is a [ValueError] when the date of
   the row parses *)
Lemma advance_error (m : Row) (s : state) :
  dated m = true -> fst (advance m s) <> Raise ValueError.
Proof.
  intros D. unfold advance.
  destruct (recurrence m) as [rc|]; [|discriminate].
  destruct (truthy rc && daily_or_weekly (lower rc)); [|discriminate].
  pose proof (dated_no_value_error m (lower rc) D) as Hv.
  destruct (compute_next_date (date m) (lower rc)) as [[nd|]|e].
  - destruct (truthy nd); [|discriminate].
    cbv beta iota delta
      [bind ret raise gets modify count_occurrences insert_task store_call].
    destruct (fuse s) as [[|[|n]]|] eqn:Hf; cbn [fst]; try discriminate;
      destruct (_ =? 0); cbn [fuse with_fuse fst]; rewrite ?Hf;
      discriminate.
  - discriminate.
  - cbn [raise fst]. intros E. injection E as ->. now apply Hv.
Qed.

Lemma process_error (key : string) (alive : bool) (m : Row) (s : state) :
  dated m = true -> fst (process key alive m s) <> Raise ValueError.
Proof.
  intros D.
  destruct (existsb (pair_eqb (id m, key)) (handled s)) eqn:E.
  - rewrite (process_seen _ _ _ _ E). discriminate.
  - rewrite (process_fresh _ _ _ _ E). now apply advance_error.
Qed.

Lemma quiet_not_printed (evs : list event) (e : exn) :
  Forall quiet evs -> ~ In (Printed e) evs.
Proof.
  intros H Hin. apply (proj1 (Forall_forall _ _) H) in Hin. exact Hin.
Qed.

(* the rows that the body of a pass adds have dates that parse, and the
   body does not end in a [ValueError] *)
Lemma for_each_dated (key : string) (alive : bool) (ms : list Row) :
  Forall (fun r => dated r = true) ms ->
  forall s : state,
    let r := for_each (process key alive) ms s in
    exists (new : list Row) (evs : list event),
      tasks (snd r) = (tasks s ++ new)%list /\
      log (snd r) = (log s ++ evs)%list /\
      Forall quiet evs /\
      Forall (fun x => dated x = true) new /\
      fst r <> Raise ValueError.
Proof.
  induction 1 as [|m ms D Hms IH]; intros s; cbv zeta.
  - exists [], []. cbn. rewrite !app_nil_r.
    repeat split; try constructor. discriminate.
  - rewrite for_each_cons.
    destruct (process_effect key alive m s)
      as (new1 & evs1 & Ht & Hl & _ & _ & Hq & _ & _ & _ & Hnew & _).
    cbv zeta in Ht, Hl.
    assert (Hd : Forall (fun x => dated x = true) new1).
    { apply Forall_forall. intros x Hx.
      destruct (Hnew x Hx) as (rc & nd & Hc & ->).
      destruct (next_date_dated _ _ _ Hc) as (d & Hd).
      unfold dated, successor. cbn [date]. now rewrite Hd. }
    pose proof (process_error key alive m s D) as He.
    destruct (process key alive m s) as [[[]|e] s1]; cbn [fst snd] in *.
    + destruct (IH s1) as (new2 & evs2 & Ht2 & Hl2 & Hq2 & Hd2 & He2).
      cbv zeta in Ht2, Hl2, He2.
      exists (new1 ++ new2)%list, (evs1 ++ evs2)%list.
      rewrite Ht2, Hl2, Ht, Hl, !app_assoc.
      repeat split; try apply Forall_app; auto.
    + exists new1, evs1. repeat split; assumption.
Qed.

Lemma check_once_dated (p : pass) (s : state) :
  Forall (fun r => dated r = true) (tasks s) ->
  exists (new : list Row) (evs : list event),
    tasks (check_once p s) = (tasks s ++ new)%list /\
    Forall (fun x => dated x = true) new /\
    log (check_once p s) = (log s ++ evs)%list /\
    ~ In (Printed ValueError) evs.
Proof.
  intros H. unfold check_once. cbv zeta. fold (ready p s).
  set (key := format_key (now p)).
  destruct (check_body_cases key (root_alive p) (ready p s)) as [->|[f ->]].
  - exists [], [ClockRead key; Printed StoreError].
    rewrite tasks_emit, tasks_ready, app_nil_r.
    cbn [ready emit with_fuse log]. rewrite <- app_assoc.
    repeat split; [constructor|].
    intros [E|[E|[]]]; discriminate E.
  - rewrite tasks_ready.
    destruct (for_each_dated key (root_alive p)
                (filter (due_at key) (tasks s)) (filter_dated _ _ H)
                (with_fuse f (ready p s)))
      as (new & evs & Ht & Hl & Hq & Hd & He).
    cbv zeta in Ht, Hl, He.
    rewrite tasks_with_fuse, tasks_ready in Ht.
    cbn [ready emit with_fuse log] in Hl.
    destruct (for_each (process key (root_alive p))
                (filter (due_at key) (tasks s)) (with_fuse f (ready p s)))
      as [[[]|e] s1]; cbn [fst snd] in *.
    + exists new, (ClockRead key :: evs). rewrite Ht, Hl, <- app_assoc.
      repeat split; [exact Hd|].
      intros [E|E]; [discriminate E|].
      exact (quiet_not_printed _ _ Hq E).
    + exists new, (ClockRead key :: evs ++ [Printed e]).
      rewrite tasks_emit, Ht. cbn [emit log]. rewrite Hl, <- !app_assoc.
      repeat split; [exact Hd|].
      intros [E|E]; [discriminate E|]. apply in_app_or in E.
      destruct E as [E|[E|[]]]; [exact (quiet_not_printed _ _ Hq E)|].
      injection E as ->. now apply He.
Qed.

Lemma sleep_loop_prints_nothing (stop_after : option nat) (i : nat) :
  forall s : state,
    exists evs : list event,
      log (sleep_loop stop_after i s) = (log s ++ evs)%list /\
      forall e, ~ In (Printed e) evs.
Proof.
  induction i as [|i IH]; intros s.
  - exists []. cbn [sleep_loop]. rewrite app_nil_r. now split.
  - cbn [sleep_loop]. unfold is_set.
    set (b := match stop_after with
              | Some n => (n <=? polls s)%nat
              | None => false
              end).
    destruct b.
    + exists [Polled true]. split; [reflexivity|].
      intros e [E|[]]; discriminate E.
    + destruct (IH (emit Slept
                      (emit (Polled false) (with_polls (S (polls s)) s))))
        as (evs & Hl & Hn).
      exists (Polled false :: Slept :: evs). rewrite Hl.
      cbn [emit log with_polls]. rewrite <- !app_assoc.
      split; [reflexivity|].
      intros e [E|[E|E]]; [discriminate E|discriminate E|exact (Hn e E)].
Qed.

(* the thread keeps the dates of the table parseable, and prints no
   [ValueError] meanwhile *)
Lemma alarm_checker_dated (stop_after : option nat) (passes : list pass) :
  forall s : state,
    Forall (fun r => dated r = true) (tasks s) ->
    exists (new : list Row) (evs : list event),
      tasks (snd (alarm_checker stop_after passes s)) = (tasks s ++ new)%list /\
      Forall (fun x => dated x = true) new /\
      log (snd (alarm_checker stop_after passes s)) = (log s ++ evs)%list /\
      ~ In (Printed ValueError) evs.
Proof.
  induction passes as [|p rest IH]; intros s H.
  - exists [], [Polled (fst (is_set stop_after s))].
    rewrite alarm_checker_nil. cbn [snd is_set emit with_polls tasks log fst].
    rewrite app_nil_r. repeat split; [constructor|].
    intros [E|[]]; discriminate E.
  - rewrite alarm_checker_cons.
    destruct (fst (is_set stop_after s)) eqn:Hb.
    + exists [], [Polled true]. unfold is_set in *. cbn [fst snd] in *.
      rewrite Hb. cbn [emit with_polls tasks log]. rewrite app_nil_r.
      repeat split; [constructor|]. intros [E|[]]; discriminate E.
    + set (s1 := snd (is_set stop_after s)).
      assert (T1 : tasks s1 = tasks s) by reflexivity.
      assert (L1 : log s1 = (log s ++ [Polled false])%list).
      { unfold s1, is_set in *. cbn [fst snd] in *. rewrite Hb. reflexivity. }
      destruct (check_once_dated p s1) as (new1 & evs1 & Ht1 & Hd1 & Hl1 & Hn1);
        [rewrite T1; exact H|].
      destruct (sleep_loop_trace stop_after 7 (check_once p s1))
        as (evs' & _ & _ & _ & _ & St & _).
      destruct (sleep_loop_prints_nothing stop_after 7 (check_once p s1))
        as (evs2 & Hl2 & Hn2).
      set (s3 := with_handled [] (sleep_loop stop_after 7 (check_once p s1))).
      assert (T3 : tasks s3 = (tasks s ++ new1)%list).
      { unfold s3. now rewrite tasks_with_handled, St, Ht1, T1. }
      assert (L3 : log s3
                   = (log s ++ Polled false :: evs1 ++ evs2)%list).
      { unfold s3. cbn [with_handled log]. rewrite Hl2, Hl1, L1.
        rewrite <- !app_assoc. reflexivity. }
      destruct (IH s3) as (new3 & evs3 & Ht3 & Hd3 & Hl3 & Hn3).
      { rewrite T3. apply Forall_app. now split. }
      exists (new1 ++ new3)%list, (Polled false :: evs1 ++ evs2 ++ evs3)%list.
      rewrite Ht3, Hl3, T3, L3, <- !app_assoc.
      repeat split.
      * apply Forall_app. now split.
      * cbn [app]. rewrite <- !app_assoc. reflexivity.
      * intros [E|E]; [discriminate E|].
        apply in_app_or in E. destruct E as [E|E]; [exact (Hn1 E)|].
        apply in_app_or in E. destruct E as [E|E];
          [exact (Hn2 _ E)|exact (Hn3 E)].
Qed.

(** X22. The window stores no date that the recurrence step cannot read.
    [dated r] says that [strptime] with [%Y-%m-%d] takes the [date] text of
    row [r], which is what [compute_next_date] asks of it. Let every row of
    the table be dated. With the two menus of the main window holding an
    hour and a minute on two digits, the table is so again after [add_task],
    whatever the entry fields hold and whether the store fails or not: the
    check of date and time together lets no date text through that is not
    a date on its own. The same holds after [save_and_close] of an edit
    window whose menus hold two digits each and whose refresh callback, if
    there is one, leaves the table as it is. So [compute_next_date] raises
    no [ValueError] on a row of the table after [add_task], whatever the
    recurrence. *)
Theorem window_stores_only_dates (order_by : list Row -> list Row)
    (clock : datetime) (s : App.state) (h mi : Z)
    (refresh_cb : option (M App.state unit)) :
  App.hour_var s = pad2 h -> App.min_var s = pad2 mi ->
  (forall cb s0, refresh_cb = Some cb ->
     App.tasks (snd (cb s0)) = App.tasks s0) ->
  Forall (fun r => dated r = true) (App.tasks s) ->
  let keeps (op : M App.state unit) :=
    Forall (fun r => dated r = true) (App.tasks (snd (op s))) in
  keeps (App.add_task order_by clock) /\
  (forall tid title_e desc_e date_e rvar h' mi',
     keeps (App.save_and_close order_by clock tid title_e desc_e date_e
              (pad2 h') (pad2 mi') rvar refresh_cb)) /\
  (forall r rc,
     In r (App.tasks (snd (App.add_task order_by clock s))) ->
     compute_next_date (date r) rc <> Raise ValueError).
Proof.
  intros Hh Hm Hcb H. cbv zeta.
  pose proof (add_task_dated order_by clock s h mi Hh Hm H) as A.
  split; [exact A|]. split.
  { intros tid title_e desc_e date_e rvar h' mi'.
    now apply save_and_close_dated. }
  intros r rc Hr. apply dated_no_value_error.
  exact (proj1 (Forall_forall _ _) A r Hr).
Qed.

Lemma window_stores_only_dates_witness :
  let s := App.mkState [] None "Essay" "" " 2024-3-5 " "09" "30" "daily"
             [] [] false [] in
  let s' := snd (App.add_task App.sort_rows
                   (mkdatetime (mkdate 2024 1 1) 8 0 0) s) in
  map date (App.tasks s') = ["2024-3-5"] /\
  Forall (fun r => dated r = true) (App.tasks s').
Proof.
  intros s s'. split; [reflexivity|].
  refine (proj1 (window_stores_only_dates App.sort_rows
                   (mkdatetime (mkdate 2024 1 1) 8 0 0) s 9 30 None
                   eq_refl eq_refl _ _)).
  - intros cb s0 E. discriminate E.
  - constructor.
Defined.

(** X23. The SQLite thread meets no date that it cannot read, and leaves
    none. If every row of the table is dated when the thread starts a run
    of passes, then, whichever store calls fail and whenever the stop event
    is set, every row of the table is dated afterwards, the rows that the
    thread inserted for next occurrences among them, and none of the errors
    that the thread printed in these passes is a [ValueError]: what it
    prints comes from the store or from a date past the year 9999. *)
Theorem thread_meets_no_unreadable_date (stop_after : option nat)
    (passes : list pass) (s : state) :
  Forall (fun r => dated r = true) (tasks s) ->
  ~ In (Printed ValueError) (log s) ->
  let s' := snd (alarm_checker stop_after passes s) in
  Forall (fun r => dated r = true) (tasks s') /\
  ~ In (Printed ValueError) (log s').
Proof.
  intros H Hl. cbv zeta.
  destruct (alarm_checker_dated stop_after passes s H)
    as (new & evs & -> & Hd & -> & Hn).
  split; [apply Forall_app; now split|].
  intros E. apply in_app_or in E. destruct E as [E|E]; auto.
Qed.

Lemma thread_meets_no_unreadable_date_witness :
  let rows := [mkRow 1 "Essay" "2024-01-01" "09:00" None (Some 0)
                 (Some "daily")] in
  let s' := snd (alarm_checker None [Scenario.jan1 9 0] (start rows)) in
  map date (tasks s') = ["2024-01-01"; "2024-01-02"] /\
  Forall (fun r => dated r = true) (tasks s') /\
  ~ In (Printed ValueError) (log s').
Proof.
  intros rows s'. split; [reflexivity|].
  refine (thread_meets_no_unreadable_date None [Scenario.jan1 9 0]
            (start rows) _ _).
  - repeat constructor.
  - intros [].
Defined.


(** ** Records with a malformed date or time *)







(** ** Once a minute *)















